(** * pen-audit: the reconciliation core, embedded and verified

    A shallow embedding of the parts of pen-audit that its specification
    makes claims about:

    - [pen_audit/codebase_matcher.py]: [_slugify], [_is_stub_page];
    - [pen_audit/scoring.py]: [classify_screen_tier], [compute_completion];
    - [pen_audit/pen_parser.py]: [_parse_node];
    - [pen_audit/state.py]: [merge_scan], [resolve_feature];

    and of the code around them: [_normalize], [_build_route_map] and
    [match_codebase] of the matcher, the methods of [PenNode] and
    [PenDocument], [make_feature], and [_count_features] of the screen
    detector.

    The first half of the file holds the definitions, module by module in
    the order of the source files; the second half holds the properties. *)

From Stdlib Require Import ZArith Ascii String List Bool Lia.
From Stdlib Require Import Floats.
From stdpp Require Import base tactics option list strings gmap.

Local Open Scope Z_scope.

(* ===================================================================== *)
(** * Part I: the embedding                                               *)
(* ===================================================================== *)

(** ** Python [str] operations

    A [str] is modelled by the sequence of its code points, for text in
    the range U+0000 to U+00FF: one [ascii] (eight bits) per code point.
    The builtins below follow CPython on that range. *)
Module PyStr.

Definition code (c : ascii) : N := N_of_ascii c.

(** [str.isspace] on one code point; also what [str.strip()] removes and
    what [\s] matches in a [str] pattern. *)
Definition is_space (c : ascii) : bool :=
  let n := code c in
  ((9 <=? n) && (n <=? 13) || (28 <=? n) && (n <=? 32)
   || (n =? 133) || (n =? 160))%N.

(** The line boundaries of [str.splitlines]. *)
Definition is_linebreak (c : ascii) : bool :=
  let n := code c in
  ((10 <=? n) && (n <=? 13) || (28 <=? n) && (n <=? 30) || (n =? 133))%N.

Definition is_lower_az (c : ascii) : bool :=
  let n := code c in ((97 <=? n) && (n <=? 122))%N.

Definition is_digit (c : ascii) : bool :=
  let n := code c in ((48 <=? n) && (n <=? 57))%N.

Definition hyphen : ascii := "-"%char.
Definition underscore : ascii := "_"%char.
Definition is_hyphen (c : ascii) : bool := (code c =? 45)%N.
Definition is_underscore (c : ascii) : bool := (code c =? 95)%N.

(** [str.lower] on one code point: A-Z, and the upper-case letters of
    Latin-1 (U+00C0 to U+00DE without the multiplication sign). *)
Definition lower_char (c : ascii) : ascii :=
  let n := code c in
  if ((65 <=? n) && (n <=? 90)
      || (192 <=? n) && (n <=? 222) && negb (n =? 215))%N
  then ascii_of_N (n + 32) else c.

Definition lower (s : list ascii) : list ascii := map lower_char s.

Fixpoint lstrip (p : ascii -> bool) (s : list ascii) : list ascii :=
  match s with
  | [] => []
  | c :: r => if p c then lstrip p r else s
  end.

Definition rstrip (p : ascii -> bool) (s : list ascii) : list ascii :=
  rev (lstrip p (rev s)).

(** [s.strip()] is [strip is_space s]; [s.strip('-')] is
    [strip is_hyphen s]. *)
Definition strip (p : ascii -> bool) (s : list ascii) : list ascii :=
  rstrip p (lstrip p s).

(** [s.splitlines()]: [cur] is the line being read, most recent character
    first; [started] tells whether a line is open (so that a text ending
    in a line boundary has no empty last line); [after_cr] tells that the
    previous character was a carriage return, whose following line feed
    belongs to the same boundary. *)
Fixpoint splitlines_from (started after_cr : bool) (cur s : list ascii)
  : list (list ascii) :=
  match s with
  | [] => if started then [rev cur] else []
  | c :: r =>
      if after_cr && (code c =? 10)%N then splitlines_from false false [] r
      else if is_linebreak c
           then rev cur :: splitlines_from false (code c =? 13)%N [] r
           else splitlines_from true false (c :: cur) r
  end.

Definition splitlines (s : list ascii) : list (list ascii) :=
  splitlines_from false false [] s.

Fixpoint starts_with (p s : list ascii) : bool :=
  match p, s with
  | [], _ => true
  | _ :: _, [] => false
  | a :: p', b :: s' => (code a =? code b)%N && starts_with p' s'
  end.

(** [p in s] for two [str]. *)
Fixpoint contains (p s : list ascii) : bool :=
  starts_with p s ||
  match s with
  | [] => false
  | _ :: r => contains p r
  end.

(** [re.sub(r'[^...]', '', s)] for a character class: the characters of
    the class are kept. *)
Definition sub_delete_not (keep : ascii -> bool) (s : list ascii) : list ascii :=
  List.filter keep s.

(** [re.sub(r'[...]+', rep, s)] for a character class and a one-character
    replacement: every maximal run of characters of the class becomes one
    [rep]. [in_run] tells that the previous character was in the class. *)
Fixpoint sub_runs_from (cls : ascii -> bool) (rep : ascii) (in_run : bool)
    (s : list ascii) : list ascii :=
  match s with
  | [] => []
  | c :: r =>
      if cls c
      then if in_run then sub_runs_from cls rep true r
           else rep :: sub_runs_from cls rep true r
      else c :: sub_runs_from cls rep false r
  end.

Definition sub_runs (cls : ascii -> bool) (rep : ascii) (s : list ascii) : list ascii :=
  sub_runs_from cls rep false s.

Definition of_string (s : string) : list ascii := list_ascii_of_string s.
Definition to_string (s : list ascii) : string := string_of_list_ascii s.

(** [p in s] on [string]. *)
Definition str_in (p s : string) : bool := contains (of_string p) (of_string s).

(** [s.lower()] on [string]. *)
Definition str_lower (s : string) : string := to_string (lower (of_string s)).

(** ["\n".join(lines)]. *)
Definition newline : ascii := "010"%char.

Fixpoint join_lines (lines : list string) : string :=
  match lines with
  | [] => EmptyString
  | [l] => l
  | l :: r => (l +:+ String newline (join_lines r))%string
  end.

End PyStr.

(** ** pen_audit/codebase_matcher.py *)
Module CodebaseMatcher.
Import PyStr.

(** The class [[a-z0-9\s-]] whose complement the first [re.sub] deletes. *)
Definition slug_keep (c : ascii) : bool :=
  is_lower_az c || is_digit c || is_space c || is_hyphen c.

(** The class [[\s_]]. *)
Definition space_or_underscore (c : ascii) : bool :=
  is_space c || is_underscore c.

Definition slugify_chars (name : list ascii) : list ascii :=
  let slug := strip is_space (lower name) in
  let slug := sub_delete_not slug_keep slug in
  let slug := sub_runs space_or_underscore hyphen slug in
  let slug := strip is_hyphen (sub_runs is_hyphen hyphen slug) in
  slug.

Definition _slugify (name : string) : string :=
  to_string (slugify_chars (of_string name)).

(** The shape of a slug: only [a-z], [0-9] and the hyphen, no hyphen
    first or last, no two hyphens in a row. *)
Definition slug_char (c : ascii) : bool :=
  is_lower_az c || is_digit c || is_hyphen c.

Definition head_not (p : ascii -> bool) (s : list ascii) : bool :=
  match s with
  | [] => true
  | c :: _ => negb (p c)
  end.

Fixpoint no_double (p : ascii -> bool) (s : list ascii) : bool :=
  match s with
  | [] => true
  | c :: r => (negb (p c) || head_not p r) && no_double p r
  end.

Definition slug_ok (s : list ascii) : bool :=
  forallb slug_char s && no_double is_hyphen s
  && head_not is_hyphen s && head_not is_hyphen (rev s).

Definition coming_soon : list ascii := of_string "coming soon".

(** [_is_stub_page] on the text of the page. *)
Definition is_stub_content (content : list ascii) : bool :=
  let lines := splitlines (strip is_space content) in
  if (Z.of_nat (length lines) <? 10) then true
  else
    let content_lower := lower content in
    if contains coming_soon content_lower && (Z.of_nat (length lines) <? 30)
    then true
    else false.

(** [_is_stub_page]: [read] is what [page_path.read_text] gives, [None]
    when it raises [OSError]. *)
Definition _is_stub_page (read : option string) : bool :=
  match read with
  | None => true
  | Some content => is_stub_content (of_string content)
  end.

(** The reading of the stub rule that counts non-blank lines: a line is
    blank when it has only white space; the phrase is looked up as
    written. *)
Definition is_blank (line : list ascii) : bool := forallb is_space line.

Definition nonblank_lines (content : list ascii) : nat :=
  length (List.filter (fun l => negb (is_blank l)) (splitlines content)).

Definition stub_by_nonblank_lines (content : string) : bool :=
  let c := of_string content in
  (Z.of_nat (nonblank_lines c) <? 10)
  || contains coming_soon c && (Z.of_nat (length (splitlines c)) <? 30).

End CodebaseMatcher.

(** ** Data shared by the modules *)

(** A JSON-compatible value, as [json.load] builds it: a [dict] is the
    sequence of its items in insertion order. *)
#[warnings="-register-all"]
Inductive json : Type :=
| JNull
| JBool (b : bool)
| JInt (n : Z)
| JFloat (x : float)
| JStr (s : string)
| JList (elems : list json)
| JObj (items : list (string * json)).

(** A [dict] with [str] keys, as the sequence of its items in insertion
    order. A [dict] has no key twice; the operations do not rely on it,
    and [get] answers with the first item of the key. *)
Module PyDict.
Section Ops.
Context {V : Type}.

(** [d.get(k)]: [None] when [k not in d]. *)
Fixpoint get (k : string) (d : list (string * V)) : option V :=
  match d with
  | [] => None
  | (k', v) :: r => if String.eqb k' k then Some v else get k r
  end.

(** [d[k] = v]: a known key keeps its place, a new one goes last. *)
Fixpoint set (k : string) (v : V) (d : list (string * V)) : list (string * V) :=
  match d with
  | [] => [(k, v)]
  | (k', v') :: r =>
      if String.eqb k' k then (k', v) :: r else (k', v') :: set k v r
  end.

Definition keys (d : list (string * V)) : list string := map fst d.
Definition values (d : list (string * V)) : list V := map snd d.
End Ops.
End PyDict.

(** A feature, with the keys [make_feature] gives it. *)
Module Feature.
Record t : Type := mk {
  id : string;
  detector : string;
  screen_id : string;
  name : string;
  tier : Z;
  category : string;
  summary : string;
  detail : list (string * json);
  status : string;
  first_seen : string;
  last_seen : string;
}.

Definition set_tier (v : Z) (f : t) : t :=
  mk (id f) (detector f) (screen_id f) (name f) v (category f)
     (summary f) (detail f) (status f) (first_seen f) (last_seen f).
Definition set_summary (v : string) (f : t) : t :=
  mk (id f) (detector f) (screen_id f) (name f) (tier f) (category f)
     v (detail f) (status f) (first_seen f) (last_seen f).
Definition set_detail (v : list (string * json)) (f : t) : t :=
  mk (id f) (detector f) (screen_id f) (name f) (tier f) (category f)
     (summary f) v (status f) (first_seen f) (last_seen f).
Definition set_status (v : string) (f : t) : t :=
  mk (id f) (detector f) (screen_id f) (name f) (tier f) (category f)
     (summary f) (detail f) v (first_seen f) (last_seen f).
Definition set_last_seen (v : string) (f : t) : t :=
  mk (id f) (detector f) (screen_id f) (name f) (tier f) (category f)
     (summary f) (detail f) (status f) (first_seen f) v.

(** [g] has the id, detector, screen, name, category, status and
    first-seen time of [f]: all but the four fields a scan writes, the
    tier, the summary, the detail and the last-seen time. *)
Definition same_unscanned (f g : t) : Prop :=
  id g = id f /\ detector g = detector f /\ screen_id g = screen_id f
  /\ name g = name f /\ category g = category f /\ status g = status f
  /\ first_seen g = first_seen f.

(** [g] is [f], or [f] was open and [g] is [f] marked as removed. *)
Definition marked (f g : t) : Prop :=
  g = f \/ (status f = "open"%string /\ g = set_status "removed_from_design" f).

(** [g] is [f], or [f] was open and [g] is [f] with the status [s]. *)
Definition resolved_as (s : string) (f g : t) : Prop :=
  g = f \/ (status f = "open"%string /\ g = set_status s f).
End Feature.

(** ** pen_audit/scoring.py *)
Module Scoring.

(** [TIER_WEIGHTS.get(tier, 2)]. *)
Definition tier_weight (tier : Z) : Z :=
  if tier =? 1 then 1
  else if tier =? 2 then 2
  else if tier =? 3 then 4
  else if tier =? 4 then 8
  else 2.

(** [feature_counts.get(ind, 0)]. *)
Definition count_of (feature_counts : gmap string Z) (ind : string) : Z :=
  default 0 (feature_counts !! ind).

(** [any(feature_counts.get(ind, 0) > 0 for ind in indicators)]. *)
Definition any_positive (feature_counts : gmap string Z) (indicators : list string) : bool :=
  existsb (fun ind => 0 <? count_of feature_counts ind) indicators.

Definition t4_indicators : list string :=
  ["camera"; "scanner"; "map"; "video"; "realtime"; "animation"; "device_api"]%string.
Definition t3_indicators : list string :=
  ["charts"; "timers"; "builders"; "drag_drop"; "swipe"; "tabs_complex"]%string.
Definition t2_indicators : list string :=
  ["forms"; "lists"; "cards"; "crud"; "detail_view"; "modals"; "tabs"]%string.

Definition classify_screen_tier (feature_counts : gmap string Z) : Z :=
  if any_positive feature_counts t4_indicators then 4
  else if any_positive feature_counts t3_indicators then 3
  else if any_positive feature_counts t2_indicators then 2
  else 1.

(** The decision order as the specification lists it, to compare with
    [classify_screen_tier]. *)
Definition spec_t3_indicators : list string :=
  ["charts"; "timers"; "builders"; "drag_drop"; "swipe"]%string.

Definition spec_tier (feature_counts : gmap string Z) : Z :=
  if any_positive feature_counts t4_indicators then 4
  else if any_positive feature_counts spec_t3_indicators then 3
  else if any_positive feature_counts t2_indicators then 2
  else 1.

(** One entry of [by_tier]. *)
Record tier_stats : Type := TierStats { ts_total : Z; ts_done : Z }.

Definition add_total (ts : tier_stats) : tier_stats :=
  TierStats (ts_total ts + 1) (ts_done ts).
Definition add_done (ts : tier_stats) : tier_stats :=
  TierStats (ts_total ts) (ts_done ts + 1).

(** [by_tier.setdefault(tier, {"total": 0, "done": 0})]: the map after
    the call. *)
Definition setdefault (tier : Z) (by_tier : gmap Z tier_stats) : gmap Z tier_stats :=
  match by_tier !! tier with
  | Some _ => by_tier
  | None => <[tier := TierStats 0 0]> by_tier
  end.

(** The result of [compute_completion]. *)
Record stats : Type := Stats {
  total : Z;
  implemented : Z;
  deferred : Z;
  out_of_scope : Z;
  open : Z;
  pct : float;
  by_tier : gmap Z tier_stats;
  effort_score : float;
}.

(** The counters of the loop of [compute_completion]. *)
Record counters : Type := Counters {
  c_by_tier : gmap Z tier_stats;
  c_total : Z;
  c_implemented : Z;
  c_deferred : Z;
  c_out_of_scope : Z;
}.

Definition counters0 : counters := Counters ∅ 0 0 0 0.

(** One turn of the loop [for f in features]. The defaults of
    [f.get("tier", 2)] and [f.get("status", "open")] are for features
    without these keys, which [Feature.t] always has. *)
Definition count_feature (c : counters) (f : Feature.t) : counters :=
  let tier := Feature.tier f in
  let status := Feature.status f in
  let by_tier := alter add_total tier (setdefault tier (c_by_tier c)) in
  let total := c_total c + 1 in
  if String.eqb status "implemented" then
    Counters (alter add_done tier by_tier) total
             (c_implemented c + 1) (c_deferred c) (c_out_of_scope c)
  else if String.eqb status "deferred" then
    Counters by_tier total (c_implemented c) (c_deferred c + 1) (c_out_of_scope c)
  else if String.eqb status "out_of_scope" then
    Counters by_tier total (c_implemented c) (c_deferred c) (c_out_of_scope c + 1)
  else
    Counters by_tier total (c_implemented c) (c_deferred c) (c_out_of_scope c).

Definition count_features (features : list Feature.t) : counters :=
  fold_left count_feature features counters0.

(** [sum(TIER_WEIGHTS.get(tier, 2) * ts[key] for tier, ts in by_tier.items())]. *)
Definition effort (key : tier_stats -> Z) (by_tier : gmap Z tier_stats) : Z :=
  map_fold (fun tier ts acc => tier_weight tier * key ts + acc) 0 by_tier.

(** The two sums of [compute_completion]. *)
Definition total_effort (by_tier : gmap Z tier_stats) : Z := effort ts_total by_tier.
Definition done_effort (by_tier : gmap Z tier_stats) : Z := effort ts_done by_tier.

(** What the statistics are compared with: the features of one status,
    their number, the effort of a list of features, and the sum of an
    amount over the entries of [by_tier]. *)
Definition has_status (s : string) (f : Feature.t) : bool :=
  String.eqb (Feature.status f) s.

Definition with_status (s : string) (features : list Feature.t) : list Feature.t :=
  List.filter (has_status s) features.

Definition count_status (s : string) (features : list Feature.t) : Z :=
  Z.of_nat (length (with_status s features)).

Definition counts_as_open (f : Feature.t) : bool :=
  negb (has_status "implemented" f || has_status "deferred" f
        || has_status "out_of_scope" f).

Definition weight_sum (features : list Feature.t) : Z :=
  fold_right (fun f acc => tier_weight (Feature.tier f) + acc) 0 features.

Definition sum_entries (g : Z -> tier_stats -> Z) (by_tier : gmap Z tier_stats) : Z :=
  map_fold (fun tier ts acc => g tier ts + acc) 0 by_tier.

(** [sum(by_tier[t]["total"] for t in by_tier)]. *)
Definition tiers_total (by_tier : gmap Z tier_stats) : Z :=
  sum_entries (fun _ ts => ts_total ts) by_tier.

(** Some indicator of the list has a count above zero. *)
Definition positive_in (feature_counts : gmap string Z) (indicators : list string) : Prop :=
  exists ind, In ind indicators /\ 0 < count_of feature_counts ind.

(** [int] to [float], exact below 2^53. *)
Definition float_of_Z (n : Z) : float :=
  if n <? 0 then PrimFloat.opp (PrimFloat.of_uint63 (Uint63.of_Z (- n)))
  else PrimFloat.of_uint63 (Uint63.of_Z n).

(** [a / b] for two [int]: the nearest [float] to the quotient, which for
    operands below 2^53 is the IEEE division of the converted operands. *)
Definition int_truediv (a b : Z) : float :=
  PrimFloat.div (float_of_Z a) (float_of_Z b).

Definition hundred : float := float_of_Z 100.

Section WithRound.
(** The builtin [round(x, 1)] on [float]. *)
Variable round1 : float -> float.

(** [round((a / b) * 100, 1) if b > 0 else 0.0]. *)
Definition percentage (a b : Z) : float :=
  if 0 <? b then round1 (PrimFloat.mul (int_truediv a b) hundred)
  else PrimFloat.zero.

Definition compute_completion (features : list Feature.t) : stats :=
  let c := count_features features in
  let total := c_total c in
  let implemented := c_implemented c in
  let deferred := c_deferred c in
  let out_of_scope := c_out_of_scope c in
  let open_count := total - implemented - deferred - out_of_scope in
  let pct := percentage implemented total in
  let total_effort := total_effort (c_by_tier c) in
  let done_effort := done_effort (c_by_tier c) in
  let effort_score := percentage done_effort total_effort in
  Stats total implemented deferred out_of_scope open_count pct
        (c_by_tier c) effort_score.
End WithRound.

(** [round(x, 1)] for the values [compute_completion] rounds, which lie
    between 0 and 100: the nearest multiple of one tenth to the exact
    value of [x], an exact tie going to the even multiple, and then the
    nearest [float] to that decimal. *)
Definition py_round1 (x : float) : float :=
  match Prim2SF x with
  | S754_finite sign m e =>
      let num := Z.pos m * 10 * (if 0 <=? e then 2 ^ e else 1) in
      let den := if 0 <=? e then 1 else 2 ^ (- e) in
      let q := num / den in
      let r := num mod den in
      let k := if (2 * r <? den) then q
               else if (den <? 2 * r) then q + 1
               else if Z.even q then q else q + 1 in
      let y := PrimFloat.div (float_of_Z k) (float_of_Z 10) in
      if sign then PrimFloat.opp y else y
  | _ => x
  end.

End Scoring.

(** ** pen_audit/pen_parser.py *)
Module PenParser.

(** The dataclass [PenNode]. Its fields hold whatever the input had under
    the key: the dataclass does not check the annotated types. *)
#[warnings="-register-all"]
Inductive PenNode : Type := mkPenNode {
  id : json;
  type : json;
  name : json;
  children : list PenNode;
  properties : list (string * json);
  reusable : json;
}.

(** [data.get(key, default)]. *)
Definition get_default (key : string) (default : json) (data : list (string * json)) : json :=
  match PyDict.get key data with
  | Some v => v
  | None => default
  end.

Definition skip_keys : list string :=
  ["id"; "type"; "name"; "children"; "reusable"]%string.

(** [k not in skip_keys]. *)
Definition not_skipped (k : string) : bool :=
  negb (existsb (String.eqb k) skip_keys).

(** [_parse_node]; [None] stands for the [AttributeError] of [data.get]
    when [data] is not a [dict]. The recursion is structural: [the_children]
    is [data.get("children", [])] followed by the [isinstance] test and the
    loop over the list, which is [parse_children]
    (see [PenParserFacts.parse_node_unfold] for the equation in the order
    of the source). *)
Fixpoint _parse_node (data : json) : option PenNode :=
  match data with
  | JObj items =>
      let fix parse_children (raw_children : list json) : option (list PenNode) :=
        match raw_children with
        | [] => Some []
        | child_data :: rest =>
            match child_data with
            | JObj _ =>
                match _parse_node child_data with
                | Some child =>
                    match parse_children rest with
                    | Some nodes => Some (child :: nodes)
                    | None => None
                    end
                | None => None
                end
            | _ => parse_children rest
            end
        end in
      let fix the_children (its : list (string * json)) : option (list PenNode) :=
        match its with
        | [] => Some []
        | (k, v) :: its' =>
            if String.eqb k "children"
            then match v with
                 | JList raw_children => parse_children raw_children
                 | _ => Some []
                 end
            else the_children its'
        end in
      match the_children items with
      | Some children =>
          let node_id := get_default "id" (JStr "") items in
          let node_type := get_default "type" (JStr "frame") items in
          let name := get_default "name" (JStr "") items in
          let reusable := get_default "reusable" (JBool false) items in
          let properties :=
            List.filter (fun kv => not_skipped (fst kv)) items in
          Some (mkPenNode node_id node_type name children properties reusable)
      | None => None
      end
  | _ => None
  end.

(** The loop over [raw_children], on its own. *)
Fixpoint parse_children (raw_children : list json) : option (list PenNode) :=
  match raw_children with
  | [] => Some []
  | child_data :: rest =>
      match child_data with
      | JObj _ =>
          match _parse_node child_data with
          | Some child =>
              match parse_children rest with
              | Some nodes => Some (child :: nodes)
              | None => None
              end
          | None => None
          end
      | _ => parse_children rest
      end
  end.

Definition is_dict (v : json) : bool :=
  match v with JObj _ => true | _ => false end.

(** [data.get("children", [])] followed by the [isinstance] test and the
    loop. *)
Definition children_of (data : list (string * json)) : option (list PenNode) :=
  match get_default "children" (JList []) data with
  | JList raw_children => parse_children raw_children
  | _ => Some []
  end.

End PenParser.

(** ** pen_audit/state.py

    Features are [dict] objects that the state and the caller's list share:
    [merge_scan] stores the caller's objects in the state and writes into
    the objects already there. The model keeps every feature object in a
    store; the state and the list of fresh features hold references. *)
Module State.

(** A reference to a feature object. *)
Abbreviation loc := nat (only parsing).

(** The store of feature objects: every reference holds an object. *)
Abbreviation heap := (nat -> Feature.t) (only parsing).

(** [h[l].field = v], as the function [g] on the object. *)
Definition upd (l : loc) (g : Feature.t -> Feature.t) (h : heap) : heap :=
  fun l' => if Nat.eqb l' l then g (h l') else h l'.

Definition CURRENT_VERSION : Z := 1.

(** The state: [features] maps each id to the reference of its feature;
    [stats] is [None] for the empty [dict] of a new state. *)
Record state : Type := mkState {
  version : Z;
  created : string;
  last_scan : option string;
  scan_count : Z;
  source_file : option string;
  features : list (string * loc);
  components : list (string * json);
  stats : option Scoring.stats;
}.

Definition _empty_state (now : string) : state :=
  mkState CURRENT_VERSION now None 0 None [] [] None.

(** [make_feature]; [now] is the value of [_now()]. *)
Definition make_feature (detector screen_id name : string) (tier : Z)
    (category summary : string) (detail : option (list (string * json)))
    (now : string) : Feature.t :=
  let fid :=
    if negb (String.eqb name "")
    then (detector +:+ "::" +:+ screen_id +:+ "::" +:+ name)%string
    else (detector +:+ "::" +:+ screen_id)%string in
  Feature.mk fid detector screen_id name tier category summary
    (match detail with Some (_ :: _ as d) => d | _ => [] end)
    "open" now now.

(** The summary [merge_scan] returns. *)
Record diff : Type := Diff { new : Z; removed : Z; total : Z }.

(** What the first loop of [merge_scan] carries. *)
Record scan : Type := Scan {
  s_heap : heap;
  s_existing : list (string * loc);
  s_current_ids : gset string;
  s_new_count : Z;
}.

(** One turn of [for f in features]: [fid in existing] and [existing[fid]]
    are one lookup; the four assignments are made in the order of the
    source, each reading [f] in the store as the one before left it ([old]
    and [f] may be the same object). The default of [f.get("detail", {})]
    is for a feature without that key, which [Feature.t] always has. *)
Definition merge_feature (now : string) (s : scan) (f : loc) : scan :=
  let h := s_heap s in
  let fid := Feature.id (h f) in
  let current_ids := {[fid]} ∪ s_current_ids s in
  match PyDict.get fid (s_existing s) with
  | Some old =>
      let h := upd old (Feature.set_last_seen now) h in
      let h := upd old (Feature.set_tier (Feature.tier (h f))) h in
      let h := upd old (Feature.set_summary (Feature.summary (h f))) h in
      let h := upd old (Feature.set_detail (Feature.detail (h f))) h in
      Scan h (s_existing s) current_ids (s_new_count s)
  | None =>
      Scan h (PyDict.set fid f (s_existing s)) current_ids (s_new_count s + 1)
  end.

(** One turn of [for fid, old in existing.items()]. *)
Definition remove_absent (current_ids : gset string) (acc : heap * Z)
    (item : string * loc) : heap * Z :=
  let '(h, removed) := acc in
  let '(fid, old) := item in
  if bool_decide (fid ∉ current_ids) && String.eqb (Feature.status (h old)) "open"
  then (upd old (Feature.set_status "removed_from_design") h, removed + 1)
  else (h, removed).

(** One turn of the loop of [resolve_feature]. *)
Definition resolve_item (pattern status : string) (acc : heap * list string)
    (item : string * loc) : heap * list string :=
  let '(h, resolved) := acc in
  let '(fid, f) := item in
  if negb (String.eqb (Feature.status (h f)) "open") then (h, resolved)
  else if String.eqb fid pattern
          || String.eqb (Feature.screen_id (h f)) pattern
          || PyStr.str_in pattern fid
  then (upd f (Feature.set_status status) h, resolved ++ [fid])
  else (h, resolved).

(** The ids of a list of feature objects: [[f["id"] for f in features]]. *)
Definition ids_of (h : heap) (features : list loc) : list string :=
  map (fun f => Feature.id (h f)) features.

(** An item of the mapping that [merge_scan] marks as removed: its key is
    not among [ids] and the status of its object is "open". *)
Definition absent_open (h : heap) (ids : list string) (item : string * loc) : bool :=
  negb (existsb (String.eqb (fst item)) ids)
  && String.eqb (Feature.status (h (snd item))) "open".

(** The objects behind the items that [merge_scan] marks as removed. *)
Definition absent_open_objects (h : heap) (ids : list string)
    (items : list (string * loc)) : gset nat :=
  list_to_set (PyDict.values (List.filter (absent_open h ids) items)).

(** An item of the mapping that [resolve_feature] resolves. *)
Definition resolvable (h : heap) (pattern : string) (item : string * loc) : bool :=
  String.eqb (Feature.status (h (snd item))) "open"
  && (String.eqb (fst item) pattern
      || String.eqb (Feature.screen_id (h (snd item))) pattern
      || PyStr.str_in pattern (fst item)).

(** No feature object is stored under two keys. *)
Definition distinct_objects (st : state) : Prop :=
  NoDup (PyDict.values (features st)).

(** The mapping is a [dict] (no key twice) that stores every feature
    under its own id. *)
Definition keyed_by_id (h : heap) (existing : list (string * loc)) : Prop :=
  NoDup (PyDict.keys existing)
  /\ forall k l, In (k, l) existing -> Feature.id (h l) = k.

Definition state_ok (h : heap) (st : state) : Prop :=
  keyed_by_id h (features st).

Section WithRound.
(** The builtin [round(x, 1)], which [compute_completion] uses. *)
Variable round1 : float -> float.

(** [_recompute_stats]. *)
Definition _recompute_stats (h : heap) (st : state) : state :=
  let features := map h (PyDict.values (features st)) in
  mkState (version st) (created st) (last_scan st) (scan_count st)
    (source_file st) (State.features st) (components st)
    (Some (Scoring.compute_completion round1 features)).

(** [merge_scan]; [now] is the value of [_now()]. The result is the
    store and the state after the call, and the returned summary. *)
Definition merge_scan (h : heap) (st : state) (features : list loc)
    (source_file : string) (now : string) : heap * state * diff :=
  let last_scan := Some now in
  let scan_count := scan_count st + 1 in
  let source_file :=
    if negb (String.eqb source_file "") then Some source_file
    else State.source_file st in
  let s := fold_left (merge_feature now) features
             (Scan h (State.features st) ∅ 0) in
  let existing := s_existing s in
  let current_ids := s_current_ids s in
  let '(h, removed) :=
    fold_left (remove_absent current_ids) existing (s_heap s, 0) in
  let st := mkState (version st) (created st) last_scan scan_count
              source_file existing (components st) (stats st) in
  (h, _recompute_stats h st,
   Diff (s_new_count s) removed (Z.of_nat (size current_ids))).

(** [resolve_feature]: the store and the state after the call, and the
    returned list. *)
Definition resolve_feature (h : heap) (st : state) (pattern status : string)
    : heap * state * list string :=
  let '(h, resolved) :=
    fold_left (resolve_item pattern status) (features st) (h, []) in
  (h, _recompute_stats h st, resolved).
(** The stores and states the program comes to: from the empty state, by
    creating feature objects that the state does not hold (the detectors
    do), by [merge_scan] and by [resolve_feature]. *)
Inductive reachable : heap -> state -> Prop :=
| reach_empty h now : reachable h (_empty_state now)
| reach_create h h' st :
    reachable h st ->
    (forall l, In l (PyDict.values (features st)) -> h' l = h l) ->
    reachable h' st
| reach_merge h st fresh src now :
    reachable h st ->
    reachable (fst (fst (merge_scan h st fresh src now)))
      (snd (fst (merge_scan h st fresh src now)))
| reach_resolve h st pattern status :
    reachable h st ->
    reachable (fst (fst (resolve_feature h st pattern status)))
      (snd (fst (resolve_feature h st pattern status))).
End WithRound.

End State.

(** ** Sample data

    A state of three features after a first scan, the second and third
    still open, and the features of a second scan: two of the known screens
    with new tiers and summaries, and a chart that is new. The form of the
    first scan is gone from the design. *)
Module Samples.
Import State.

Definition t0 : string := "2026-01-05T09:00:00+00:00".
Definition t1 : string := "2026-01-06T09:00:00+00:00".

Definition settings0 : Feature.t :=
  Feature.set_status "implemented"
    (make_feature "screen" "s2" "Settings" 1 "screen" "Settings" None t0).
Definition food_log0 : Feature.t :=
  make_feature "screen" "s1" "Food Log" 2 "screen" "Food Log" None t0.
Definition form0 : Feature.t :=
  make_feature "form" "s1" "" 2 "form" "3 inputs" None t0.
Definition settings1 : Feature.t :=
  make_feature "screen" "s2" "Settings" 2 "screen" "Settings with toggle" None t1.
Definition food_log1 : Feature.t :=
  make_feature "screen" "s1" "Food Log" 3 "screen" "Food Log with chart" None t1.
Definition chart1 : Feature.t :=
  make_feature "data_display" "s1" "chart" 3 "data_display" "1 chart" None t1.

Definition heap0 : heap :=
  fun l =>
    match l with
    | 0 => settings0
    | 1 => food_log0
    | 2 => form0
    | 3 => settings1
    | 4 => food_log1
    | _ => chart1
    end%nat.

Definition state0 : state :=
  mkState CURRENT_VERSION t0 (Some t0) 1 (Some "design.json"%string)
    [("screen::s2::Settings", 0); ("screen::s1::Food Log", 1); ("form::s1", 2)]%string%nat
    [] None.

Definition fresh1 : list loc := [3; 4; 5]%nat.

(** A page of eleven lines, two of them not blank. *)
Definition sparse_page : string :=
  PyStr.join_lines ["a"; ""; ""; ""; ""; ""; ""; ""; ""; ""; "b"]%string.

(** A page of twelve lines with the phrase in capitals. *)
Definition capital_page : string :=
  PyStr.join_lines
    ["export default function Page() {"; "  return ("; "    <main>";
     "      <h1>Food Log</h1>"; "      <p>Coming Soon</p>"; "      <p>1</p>";
     "      <p>2</p>"; "      <p>3</p>"; "      <p>4</p>"; "    </main>";
     "  );"; "}"]%string.

(** The counts of a screen whose only positive indicator is
    [tabs_complex]. *)
Definition tabs_complex_only : gmap string Z := {[ "tabs_complex"%string := 1 ]}.
End Samples.

(** ** pen_audit/scoring.py: what the tiers of [by_tier] are compared with *)
Module Tiers.
Import Scoring.

(** The features of one tier, and the entry that [by_tier] should hold
    for the tier: none when no feature has it. *)
Definition of_tier (tier : Z) (features : list Feature.t) : list Feature.t :=
  List.filter (fun f => Feature.tier f =? tier) features.

Definition tier_entry (tier : Z) (features : list Feature.t) : option tier_stats :=
  let fs := of_tier tier features in
  if (length fs =? 0)%nat then None
  else Some (TierStats (Z.of_nat (length fs)) (count_status "implemented" fs)).

(** The entry of a tier after one more feature. *)
Definition bump (f : Feature.t) (ts : tier_stats) : tier_stats :=
  TierStats (ts_total ts + 1)
            (ts_done ts + if has_status "implemented" f then 1 else 0).

(** The entry of tier [t] after the loop, from the entry before it. *)
Definition entry_after (t : Z) (fs : list Feature.t) (e : option tier_stats)
    : option tier_stats :=
  let base := default (TierStats 0 0) e in
  if (length (of_tier t fs) =? 0)%nat then e
  else Some (TierStats (ts_total base + Z.of_nat (length (of_tier t fs)))
               (ts_done base + count_status "implemented" (of_tier t fs))).

End Tiers.

(** ** pen_audit/pen_parser.py: the methods of [PenNode] and [PenDocument]

    [count_by_type], whose keys are the types of the nodes, is with the
    screen detector below, which reads it. *)
Module PenTree.
Import PenParser.

(** The truth value of a JSON value under [if] and [not]. *)
Definition truthy (v : json) : bool :=
  match v with
  | JNull => false
  | JBool b => b
  | JInt n => negb (n =? 0)
  | JFloat x => negb (PrimFloat.eqb x PrimFloat.zero)
  | JStr s => negb (String.eqb s "")
  | JList elems => match elems with [] => false | _ => true end
  | JObj items => match items with [] => false | _ => true end
  end.

(** [v == s] for a [str] literal [s]. *)
Definition eq_str (v : json) (s : string) : bool :=
  match v with
  | JStr t => String.eqb t s
  | _ => false
  end.

(** The properties [is_screen], [is_component] (which hands back the
    field itself) and [is_instance]. *)
Definition is_screen (n : PenNode) : bool :=
  eq_str (type n) "frame" && negb (truthy (reusable n)).
Definition is_component (n : PenNode) : json := reusable n.
Definition is_instance (n : PenNode) : bool := eq_str (type n) "ref".

(** [walk], the nodes in the order the generator yields them. *)
Fixpoint walk (n : PenNode) : list PenNode :=
  n :: flat_map walk (children n).

Definition find_by_type (node_type : string) (n : PenNode) : list PenNode :=
  List.filter (fun m => eq_str (type m) node_type) (walk n).

(** A list comprehension whose condition may raise. *)
Fixpoint select {A} (cond : A -> option bool) (l : list A) : option (list A) :=
  match l with
  | [] => Some []
  | x :: l' =>
      match cond x with
      | Some b =>
          match select cond l' with
          | Some r => Some (if b then x :: r else r)
          | None => None
          end
      | None => None
      end
  end.

(** [pattern_lower in n.name.lower()]; [None] is the [AttributeError] of
    [.lower()] on a name that is not a [str]. *)
Definition name_contains (pattern_lower : string) (n : PenNode) : option bool :=
  match name n with
  | JStr s => Some (PyStr.str_in pattern_lower (PyStr.str_lower s))
  | _ => None
  end.

Definition find_by_name (pattern : string) (n : PenNode) : option (list PenNode) :=
  let pattern_lower := PyStr.str_lower pattern in
  select (name_contains pattern_lower) (walk n).

Definition find_text_content (n : PenNode) : list json :=
  flat_map
    (fun m =>
       if eq_str (type m) "text" then
         let content := get_default "content" (JStr "") (properties m) in
         if truthy content then [content] else []
       else [])
    (walk n).

(** [max] of a generator that yields [x] and then the items of [l]. *)
Definition max_of (x : Z) (l : list Z) : Z := fold_left Z.max l x.

Fixpoint depth (n : PenNode) : Z :=
  match children n with
  | [] => 0
  | child :: rest => 1 + max_of (depth child) (map depth rest)
  end.

(** The dataclass [PenDocument]. *)
Record PenDocument : Type := mkPenDocument {
  root : PenNode;
  source_file : string;
}.

Definition screens (doc : PenDocument) : list PenNode :=
  List.filter is_screen (children (root doc)).

Definition components (doc : PenDocument) : list PenNode :=
  List.filter (fun node => truthy (is_component node)) (walk (root doc)).

Definition all_instances (doc : PenDocument) : list PenNode :=
  List.filter is_instance (walk (root doc)).

(** A raw child that [_parse_node] turns into a screen: a [dict] whose
    type, "frame" when absent, is "frame" and whose [reusable], [False]
    when absent, is not true. *)
Definition screen_data (child_data : json) : bool :=
  match child_data with
  | JObj items =>
      eq_str (get_default "type" (JStr "frame") items) "frame"
      && negb (truthy (get_default "reusable" (JBool false) items))
  | _ => false
  end.

Definition parse_pen_json (data : json) : option PenDocument :=
  match _parse_node data with
  | Some root => Some (mkPenDocument root "")
  | None => None
  end.

End PenTree.

(** ** pen_audit/codebase_matcher.py: [_normalize] *)
Module Normalize.
Import PyStr CodebaseMatcher.

(** The class [[a-z0-9]] whose complement [_normalize] deletes. *)
Definition alnum_lower (c : ascii) : bool := is_lower_az c || is_digit c.

Definition normalize_chars (s : list ascii) : list ascii :=
  sub_delete_not alnum_lower (lower s).

Definition _normalize (s : string) : string :=
  to_string (normalize_chars (of_string s)).

End Normalize.

(** ** pen_audit/codebase_matcher.py: [_build_route_map], [match_codebase]

    The features are the objects of the store of [State]: [match_codebase]
    writes the status of the objects that the state holds. *)
Module Matcher.
Import PyStr CodebaseMatcher Normalize PenParser PenTree State.

(** [s.lstrip(chars)]: the leading characters that occur in [chars] go. *)
Definition in_chars (chars : string) (c : ascii) : bool :=
  existsb (Ascii.eqb c) (of_string chars).

Definition lstrip_chars (chars s : string) : string :=
  to_string (lstrip (in_chars chars) (of_string s)).

(** [s.endswith(suffix)]. *)
Definition ends_with (suffix s : string) : bool :=
  starts_with (rev (of_string suffix)) (rev (of_string s)).

(** [s.split(sep)] for a one-character separator; [cur] is the segment
    being read, most recent character first. *)
Fixpoint split_from (sep : ascii) (cur s : list ascii) : list (list ascii) :=
  match s with
  | [] => [rev cur]
  | c :: r =>
      if Ascii.eqb c sep then rev cur :: split_from sep [] r
      else split_from sep (c :: cur) r
  end.

Definition split (sep : ascii) (s : string) : list string :=
  map to_string (split_from sep [] (of_string s)).

Definition slash : ascii := "/"%char.

(** A loop that runs a step which may raise over a list. *)
Fixpoint fold_opt {A B} (step : A -> B -> option A) (l : list B) (a : A)
    : option A :=
  match l with
  | [] => Some a
  | x :: l' =>
      match step a x with
      | Some a' => fold_opt step l' a'
      | None => None
      end
  end.

(** One turn of the loop of [_build_route_map]; [None] is the
    [AttributeError] of [s.lower()] on a screen name that is true and not
    a [str]. *)
Definition add_route (result : list (string * json)) (route : json)
    : option (list (string * json)) :=
  match route with
  | JObj items =>
      let screen_name := get_default "screen_name" (JStr "") items in
      if truthy screen_name then
        match screen_name with
        | JStr s => Some (PyDict.set (_normalize s) route result)
        | _ => None
        end
      else Some result
  | _ => Some result
  end.

Definition _build_route_map (routes : list json) : option (list (string * json)) :=
  fold_opt add_route routes [].

(** [route.get("path", "").lstrip("/")]; [None] is the [AttributeError]
    of [.lstrip] on a path that is not a [str]. *)
Definition route_path (route : list (string * json)) : option string :=
  match get_default "path" (JStr "") route with
  | JStr s => Some (lstrip_chars "/" s)
  | _ => None
  end.

(** [for page_slug, path in pages.items(): if cond: ... = path; break]:
    the path of the first page whose slug meets the condition. *)
Definition find_page (cond : string -> bool) (pages : list (string * string))
    : option string :=
  match List.find (fun item => cond (fst item)) pages with
  | Some (_, path) => Some path
  | None => None
  end.

(** One turn of the loop that builds [route_path_to_page]. *)
Definition add_route_page (pages : list (string * string))
    (route_path_to_page : list (string * string)) (route : json)
    : option (list (string * string)) :=
  match route with
  | JObj items =>
      match route_path items with
      | Some rpath =>
          match find_page
                  (fun page_slug =>
                     String.eqb rpath page_slug
                     || String.eqb (lstrip_chars "app/" rpath)
                          (lstrip_chars "app/" page_slug))
                  pages with
          | Some page_path => Some (PyDict.set rpath page_path route_path_to_page)
          | None => Some route_path_to_page
          end
      | None => None
      end
  | _ => Some route_path_to_page
  end.

(** The entries of the three lists of the report. *)
Record matched_entry : Type := Matched {
  m_feature_id : string;
  m_screen_name : string;
  m_page_path : string;
  m_matched_via : option string;
  m_has_route : bool;
}.

Record stub_entry : Type := Stub {
  s_feature_id : string;
  s_screen_name : string;
  s_page_path : string;
  s_matched_via : option string;
}.

Record missing_entry : Type := Missing {
  x_feature_id : string;
  x_screen_name : string;
  x_expected_slug : string;
}.

Record results : Type := Results {
  matched : list matched_entry;
  stub : list stub_entry;
  missing : list missing_entry;
  total_matched : Z;
  total_stub : Z;
  total_missing : Z;
}.

Definition results0 : results := Results [] [] [] 0 0 0.

(** What [match_codebase] returns: the early [dict] with the key "error"
    (and "matched" at 0), or the report. *)
Inductive outcome : Type :=
| NoAppDir (error : string)
| Report (r : results).

(** [if not page_path: for ... in pages.items(): if cond: page_path = path;
    matched_via = via; break], on the pair of the two variables. *)
Definition try_pages (cond : string -> bool) (via : string)
    (pages : list (string * string)) (found : option string * option string)
    : option string * option string :=
  match fst found with
  | Some _ => found
  | None =>
      match find_page cond pages with
      | Some path => (Some path, Some via)
      | None => found
      end
  end.

(** The four strategies, in their order: the values of [page_path] and
    [matched_via] after them. [None] is the [AttributeError] of
    [route_path]. *)
Definition find_page_for (pages : list (string * string))
    (route_map : list (string * json)) (name : string)
    : option (option string * option string) :=
  let slug := _slugify name in
  let norm_name := _normalize name in
  let strategy1 :=
    match PyDict.get norm_name route_map with
    | Some (JObj route_data) =>
        match route_path route_data with
        | Some rpath =>
            Some (find_page
                    (fun page_slug =>
                       String.eqb rpath page_slug
                       || ends_with page_slug rpath
                       || ends_with (List.last (split slash rpath) ""%string) page_slug)
                    pages,
                  Some "routes.json"%string)
        | None => None
        end
    | Some _ => None
    | None => Some (None, None)
    end in
  match strategy1 with
  | Some found =>
      let found :=
        try_pages (fun page_slug =>
                     String.eqb slug page_slug
                     || String.eqb ("app/" +:+ slug) page_slug)
          "exact_slug" pages found in
      let found :=
        try_pages (fun page_slug =>
                     let segments := split slash page_slug in
                     match segments with [] => false | _ => true end
                     && String.eqb (List.last segments ""%string) slug)
          "last_segment" pages found in
      let found :=
        try_pages (fun page_slug => String.eqb norm_name (_normalize page_slug))
          "normalized" pages found in
      Some found
  | None => None
  end.

(** One turn of [for fid, f in features.items()]; [read] is what
    [read_text] gives for a path, [None] when it raises [OSError]. *)
Definition match_feature (pages : list (string * string))
    (route_map : list (string * json)) (read : string -> option string)
    (dry_run : bool) (acc : heap * results) (item : string * loc)
    : option (heap * results) :=
  let '(h, res) := acc in
  let '(fid, f) := item in
  if negb (String.eqb (Feature.category (h f)) "screen") then Some acc
  else if negb (String.eqb (Feature.status (h f)) "open") then Some acc
  else
    let name := Feature.name (h f) in
    let slug := _slugify name in
    let norm_name := _normalize name in
    match find_page_for pages route_map name with
    | Some (page_path, matched_via) =>
        let has_route :=
          match PyDict.get norm_name route_map with
          | Some _ => true
          | None => false
          end in
        match page_path with
        | Some path =>
            if negb (_is_stub_page (read path)) then
              Some (if dry_run then h
                    else upd f (Feature.set_status "implemented") h,
                    Results
                      (matched res
                       ++ [Matched fid name path matched_via has_route])
                      (stub res) (missing res)
                      (total_matched res + 1) (total_stub res)
                      (total_missing res))
            else
              Some (h,
                    Results (matched res)
                      (stub res ++ [Stub fid name path matched_via])
                      (missing res)
                      (total_matched res) (total_stub res + 1)
                      (total_missing res))
        | None =>
            Some (h,
                  Results (matched res) (stub res)
                    (missing res ++ [Missing fid name slug])
                    (total_matched res) (total_stub res)
                    (total_missing res + 1))
        end
    | None => None
    end.

(** [match_codebase] on the store and the state. What the function asks
    of the file system is given: [app_dir] is the path it builds and
    [app_exists] the answer of [app_dir.exists()]; [pages] is the value of
    [_find_page_files(app_dir)], [routes] that of
    [_find_routes_json(project)], and [read] the text of a page file.
    [None] is an exception. *)
Definition match_codebase (h : heap) (st : state) (app_dir : string)
    (app_exists : bool) (pages : list (string * string)) (routes : list json)
    (read : string -> option string) (dry_run : bool)
    : option (heap * outcome) :=
  if negb app_exists
  then Some (h, NoAppDir ("App directory not found: " +:+ app_dir))
  else
    match _build_route_map routes with
    | Some route_map =>
        match fold_opt (add_route_page pages) routes [] with
        | Some route_path_to_page =>
            match fold_opt (match_feature pages route_map read dry_run)
                    (features st) (h, results0) with
            | Some (h', res) => Some (h', Report res)
            | None => None
            end
        | None => None
        end
    | None => None
    end.

(** What the properties of [match_codebase] are stated with. *)

(** A route that [_build_route_map] files under the key [k]. *)
Definition named (k : string) (route : json) : bool :=
  match route with
  | JObj items =>
      match get_default "screen_name" (JStr "") items with
      | JStr s => negb (String.eqb s "") && String.eqb (_normalize s) k
      | _ => false
      end
  | _ => false
  end.

(** A route on which [match_codebase] raises: its screen name is true and
    not a [str], or its path is not a [str]. *)
Definition bad_screen_name (items : list (string * json)) : bool :=
  match get_default "screen_name" (JStr "") items with
  | JStr _ => false
  | v => truthy v
  end.

Definition bad_path (items : list (string * json)) : bool :=
  match get_default "path" (JStr "") items with
  | JStr _ => false
  | _ => true
  end.

Definition bad_name_route (route : json) : bool :=
  match route with JObj items => bad_screen_name items | _ => false end.

Definition bad_path_route (route : json) : bool :=
  match route with JObj items => bad_path items | _ => false end.

(** A feature that the loop of [match_codebase] looks at. *)
Definition open_screen (f : Feature.t) : bool :=
  String.eqb (Feature.category f) "screen"
  && String.eqb (Feature.status f) "open".

(** The page and the strategy found for a name. *)
Definition search (pages : list (string * string))
    (route_map : list (string * json)) (name : string)
    : option string * option string :=
  match find_page_for pages route_map name with
  | Some found => found
  | None => (None, None)
  end.

Definition has_route (route_map : list (string * json)) (name : string) : bool :=
  match PyDict.get (_normalize name) route_map with
  | Some _ => true
  | None => false
  end.

(** The entry of each list that a feature under the key [fid] gives, if
    any. *)
Definition matched_for (pages : list (string * string))
    (route_map : list (string * json)) (read : string -> option string)
    (fid : string) (f : Feature.t) : option matched_entry :=
  if open_screen f then
    match search pages route_map (Feature.name f) with
    | (Some path, via) =>
        if _is_stub_page (read path) then None
        else Some (Matched fid (Feature.name f) path via
                     (has_route route_map (Feature.name f)))
    | (None, _) => None
    end
  else None.

Definition stub_for (pages : list (string * string))
    (route_map : list (string * json)) (read : string -> option string)
    (fid : string) (f : Feature.t) : option stub_entry :=
  if open_screen f then
    match search pages route_map (Feature.name f) with
    | (Some path, via) =>
        if _is_stub_page (read path)
        then Some (Stub fid (Feature.name f) path via)
        else None
    | (None, _) => None
    end
  else None.

Definition missing_for (pages : list (string * string))
    (route_map : list (string * json)) (fid : string) (f : Feature.t)
    : option missing_entry :=
  if open_screen f then
    match search pages route_map (Feature.name f) with
    | (Some _, _) => None
    | (None, _) => Some (Missing fid (Feature.name f) (_slugify (Feature.name f)))
    end
  else None.

(** The entries a function gives for the items of the mapping, in order. *)
Definition collect {B} (entry : string -> Feature.t -> option B) (h : heap)
    (items : list (string * loc)) : list B :=
  flat_map (fun item => match entry (fst item) (h (snd item)) with
                        | Some e => [e]
                        | None => []
                        end) items.


(** The names of the four strategies. *)
Definition strategies : list string :=
  ["routes.json"; "exact_slug"; "last_segment"; "normalized"]%string.

(** The report [res] with more entries, counted. *)
Definition extend (res : results) (ms : list matched_entry)
    (ss : list stub_entry) (xs : list missing_entry) : results :=
  Results (matched res ++ ms) (stub res ++ ss) (missing res ++ xs)
    (total_matched res + Z.of_nat (length ms))
    (total_stub res + Z.of_nat (length ss))
    (total_missing res + Z.of_nat (length xs)).

Definition opt_list {B} (o : option B) : list B :=
  match o with Some e => [e] | None => [] end.

(** [g] is [f], or [f] was an open screen and [g] is [f] implemented. *)
Definition implemented_from (f g : Feature.t) : Prop :=
  g = f \/ (open_screen f = true /\ g = Feature.set_status "implemented" f).

(** Every route of the map is a [dict] with a [str] path. *)
Definition good_routes (route_map : list (string * json)) : Prop :=
  forall k v, PyDict.get k route_map = Some v ->
    exists items, v = JObj items /\ bad_path items = false.

(** A page that the strategies found is a page of the app, found by one
    of the four. *)
Definition found_ok (pages : list (string * string))
    (found : option string * option string) : Prop :=
  match fst found with
  | Some path =>
      (exists slug, In (slug, path) pages)
      /\ exists via, snd found = Some via /\ In via strategies
  | None => True
  end.

End Matcher.

(** ** pen_audit/pen_parser.py: [count_by_type];
       pen_audit/detectors/screen.py: [_count_features]

    The keys of the [dict] of [count_by_type] are JSON values. How Python
    compares two of them is a parameter, [key_eq]. *)
Module ScreenDetector.
Import PyStr PenParser PenTree Scoring Matcher.

Section Keys.
(** The equality of two [dict] keys, a stored one and a looked-up one. *)
Variable key_eq : json -> json -> bool.

(** [d.get(k)] and [d[k] = v] for a [dict] whose keys are JSON values. *)
Fixpoint kget (k : json) (d : list (json * Z)) : option Z :=
  match d with
  | [] => None
  | (k', v) :: r => if key_eq k' k then Some v else kget k r
  end.

Fixpoint kset (k : json) (v : Z) (d : list (json * Z)) : list (json * Z) :=
  match d with
  | [] => [(k, v)]
  | (k', v') :: r => if key_eq k' k then (k', v) :: r else (k', v') :: kset k v r
  end.

(** A value that can be a key: a list or a [dict] cannot. *)
Definition hashable (v : json) : bool :=
  match v with
  | JList _ | JObj _ => false
  | _ => true
  end.

(** One turn of the loop of [count_by_type]; [None] is the [TypeError]
    for a type that cannot be a key. *)
Definition count_type (counts : list (json * Z)) (n : PenNode)
    : option (list (json * Z)) :=
  if hashable (type n)
  then Some (kset (type n) (default 0 (kget (type n) counts) + 1) counts)
  else None.

Definition count_by_type (n : PenNode) : option (list (json * Z)) :=
  fold_opt count_type (walk n) [].

(** [any(k in s for k in keys)]. *)
Definition any_in (keys : list string) (s : string) : bool :=
  existsb (fun k => str_in k s) keys.

(** [counts[key] = counts.get(key, 0) + 1]. *)
Definition incr (key : string) (counts : gmap string Z) : gmap string Z :=
  <[key := count_of counts key + 1]> counts.

Definition incr_if (b : bool) (key : string) (counts : gmap string Z)
    : gmap string Z :=
  if b then incr key counts else counts.

(** [n.name.lower() if n.name else ""]; [None] is the [AttributeError]
    for a name that is true and not a [str]. *)
Definition name_lower_of (n : PenNode) : option string :=
  if truthy (name n) then
    match name n with
    | JStr s => Some (str_lower s)
    | _ => None
    end
  else Some ""%string.

(** [" ".join(texts)]; [None] is the [TypeError] for an item that is not
    a [str]. *)
Fixpoint join_space (texts : list json) : option string :=
  match texts with
  | [] => Some ""%string
  | JStr s :: r =>
      match r with
      | [] => Some s
      | _ =>
          match join_space r with
          | Some t => Some (s +:+ " " +:+ t)%string
          | None => None
          end
      end
  | _ => None
  end.

(** [" ".join(n.find_text_content()).lower() if n.type == "frame" else ""]. *)
Definition texts_of (n : PenNode) : option string :=
  if eq_str (type n) "frame" then
    match join_space (find_text_content n) with
    | Some t => Some (str_lower t)
    | None => None
    end
  else Some ""%string.

(** One turn of the loop [for n in node.walk()] of [_count_features]. *)
Definition count_node (counts : gmap string Z) (n : PenNode)
    : option (gmap string Z) :=
  match name_lower_of n with
  | Some name_lower =>
      match texts_of n with
      | Some texts =>
          let combined := (name_lower +:+ " " +:+ texts)%string in
          let counts :=
            incr_if (any_in ["input"; "field"; "text_field"; "search"; "form"]
                       name_lower) "forms" counts in
          let counts :=
            incr_if (any_in ["list"; "row"; "item"; "cell"] name_lower)
              "lists" counts in
          let counts := incr_if (str_in "card" name_lower) "cards" counts in
          let counts :=
            incr_if (any_in ["chart"; "graph"; "ring"; "progress"; "donut"]
                       name_lower) "charts" counts in
          let counts :=
            incr_if (any_in ["tab"; "segment"] name_lower) "tabs" counts in
          let counts :=
            incr_if (any_in ["modal"; "sheet"; "dialog"; "overlay"; "popup"]
                       name_lower) "modals" counts in
          let counts :=
            if any_in ["camera"; "scanner"; "barcode"; "qr"] name_lower
            then incr "scanner" (incr "camera" counts)
            else counts in
          let counts :=
            incr_if (any_in ["timer"; "stopwatch"; "countdown"] name_lower)
              "timers" counts in
          let counts := incr_if (str_in "map" name_lower) "map" counts in
          let counts :=
            incr_if (any_in ["add"; "create"; "new"; "edit"; "delete"; "remove"]
                       combined) "crud" counts in
          let counts :=
            incr_if (any_in ["drag"; "reorder"; "sortable"] name_lower)
              "drag_drop" counts in
          let counts :=
            incr_if (str_in "builder" name_lower) "builders" counts in
          Some counts
      | None => None
      end
  | None => None
  end.

Definition _count_features (node : PenNode) : option (gmap string Z) :=
  match count_by_type node with
  | Some type_counts =>
      let counts : gmap string Z := ∅ in
      let counts :=
        <["text_nodes" := default 0 (kget (JStr "text") type_counts)]> counts in
      let counts :=
        <["ref_nodes" := default 0 (kget (JStr "ref") type_counts)]> counts in
      fold_opt count_node (walk node) counts
  | None => None
  end.
End Keys.

(** The keys that [_count_features] writes. *)
Definition counted : list string :=
  ["text_nodes"; "ref_nodes"; "forms"; "lists"; "cards"; "charts"; "tabs";
   "modals"; "camera"; "scanner"; "timers"; "map"; "crud"; "drag_drop";
   "builders"]%string.

(** What holds of the counts all along the loop of [_count_features]. *)
Definition counts_ok (counts : gmap string Z) : Prop :=
  (forall k, ~ In k counted -> counts !! k = None)
  /\ count_of counts "camera" = count_of counts "scanner"
  /\ (forall k, k <> "text_nodes"%string -> k <> "ref_nodes"%string ->
        0 <= count_of counts k).

(** The lowered name of the node contains one of the keys. *)
Definition name_has (keys : list string) (n : PenNode) : bool :=
  match name_lower_of n with
  | Some name_lower => any_in keys name_lower
  | None => false
  end.

(** The keys in a name that make a screen of tier 4, and of tier 3. *)
Definition tier4_names : list string :=
  ["camera"; "scanner"; "barcode"; "qr"; "map"]%string.
Definition tier3_names : list string :=
  ["chart"; "graph"; "ring"; "progress"; "donut"; "timer"; "stopwatch";
   "countdown"; "drag"; "reorder"; "sortable"; "builder"]%string.

Definition b2z (b : bool) : Z := if b then 1 else 0.

(** The sum of the counts of a [dict] of counts. *)
Definition total_count (counts : list (json * Z)) : Z :=
  fold_right (fun kv acc => snd kv + acc) 0 counts.

(** A key equality, for examples: [str] keys by their text, the others
    never equal. *)
Definition str_key_eq (a b : json) : bool :=
  match a, b with
  | JStr s, JStr t => String.eqb s t
  | _, _ => false
  end.

End ScreenDetector.

(** ** More sample data *)
Module Designs.
Import State Samples PenParser PenTree Matcher ScreenDetector.

(** A third scan that finds the form of the first scan again: the two
    screens, and the form as a new object. *)
Definition t2 : string := "2026-01-07T09:00:00+00:00".
Definition form2 : Feature.t :=
  make_feature "form" "s1" "" 3 "form" "5 inputs" None t2.
Definition heap2 : heap :=
  fun l => if Nat.eqb l 6 then form2 else heap0 l.
Definition fresh2 : list loc := [3; 4; 6]%nat.

(** A design of two screens, a text node at the top and a component; the
    first screen holds a camera view. *)
Definition camera_view : list (string * json) :=
  [("id", JStr "c1"); ("type", JStr "frame"); ("name", JStr "Camera View")]%string.
Definition food_log_data : list (string * json) :=
  [("id", JStr "s1"); ("name", JStr "Food Log");
   ("children", JList [JObj camera_view; JStr "note"])]%string.
Definition settings_data : list (string * json) :=
  [("id", JStr "s2"); ("type", JStr "frame"); ("name", JStr "Settings")]%string.
Definition raw_children : list json :=
  [JObj food_log_data; JNull;
   JObj [("id", JStr "t1"); ("type", JStr "text")]%string;
   JObj settings_data;
   JObj [("id", JStr "b1"); ("reusable", JBool true)]%string].
Definition design : list (string * json) :=
  [("id", JStr "root"); ("children", JList raw_children)]%string.

(** The node of the first screen. *)
Definition food_log_node : PenNode :=
  mkPenNode (JStr "s1") (JStr "frame") (JStr "Food Log")
    [mkPenNode (JStr "c1") (JStr "frame") (JStr "Camera View") [] [] (JBool false)]
    [] (JBool false).

(** An app with a page for each of the two screens, the second a stub,
    and a route for the settings. *)
Definition real_page : string :=
  PyStr.join_lines
    ["export default function Page() {"; "  return ("; "    <main>";
     "      <h1>Food Log</h1>"; "      <ul>"; "        <li>Breakfast</li>";
     "        <li>Lunch</li>"; "      </ul>"; "    </main>"; "  );"; "}"]%string.
Definition pages : list (string * string) :=
  [("food-log", "app/food-log/page.tsx");
   ("settings", "app/settings/page.tsx")]%string.
Definition routes : list json :=
  [JObj [("screen_name", JStr "Settings"); ("path", JStr "/settings")]%string].
Definition read (path : string) : option string :=
  if String.eqb path "app/food-log/page.tsx" then Some real_page
  else if String.eqb path "app/settings/page.tsx" then Some capital_page
  else None.

End Designs.

(* ===================================================================== *)
(** * Part II: properties                                                 *)
(* ===================================================================== *)

(** ** Facts on the [str] operations *)
Module PyStrFacts.
Import PyStr.

Ltac each_char c :=
  destruct c as [[] [] [] [] [] [] [] []]; vm_compute; try tauto; try congruence.

Lemma is_hyphen_eq c : is_hyphen c = true -> c = hyphen.
Proof. each_char c. Qed.

Lemma starts_with_spec p s :
  starts_with p s = true <-> exists r, s = p ++ r.
Proof.
  revert s; induction p as [|a p IH]; intros s; simpl.
  - split; eauto.
  - destruct s as [|b s]; simpl.
    + split; [discriminate | intros [r Hr]; discriminate].
    + rewrite andb_true_iff, IH, N.eqb_eq. split.
      * intros [Hab [r ->]]. exists r. f_equal.
        unfold code in Hab.
        rewrite <- (ascii_N_embedding a), <- (ascii_N_embedding b).
        now rewrite Hab.
      * intros [r Hr]. injection Hr as -> ->. eauto.
Qed.

(** [p in s] holds exactly when [s] is [a ++ p ++ b] for some [a], [b]. *)
Lemma contains_spec p s :
  contains p s = true <-> exists a b, s = a ++ p ++ b.
Proof.
  induction s as [|c s IH]; simpl.
  - rewrite orb_false_r, starts_with_spec. split.
    + intros [r Hr]. exists [], r. exact Hr.
    + intros [a [b Hab]]. destruct a; simpl in Hab; [eauto | discriminate].
  - rewrite orb_true_iff, starts_with_spec, IH. split.
    + intros [[r Hr] | [a [b Hab]]].
      * exists [], r. exact Hr.
      * exists (c :: a), b. simpl. now f_equal.
    + intros [a [b Hab]]. destruct a as [|c' a]; simpl in Hab.
      * left. eauto.
      * right. injection Hab as _ ->. eauto.
Qed.

Lemma of_string_app a b :
  of_string (a +:+ b) = of_string a ++ of_string b.
Proof. induction a as [|c a IH]; simpl; [reflexivity | now rewrite IH]. Qed.

Lemma of_to_string s : of_string (to_string s) = s.
Proof. apply list_ascii_of_string_of_list_ascii. Qed.

Lemma to_of_string s : to_string (of_string s) = s.
Proof. apply string_of_list_ascii_of_string. Qed.

Lemma to_string_app a b :
  to_string (a ++ b) = (to_string a +:+ to_string b)%string.
Proof. induction a as [|c a IH]; simpl; [reflexivity | now rewrite IH]. Qed.

(** [p in s] on [string]. *)
Lemma str_in_spec p s :
  str_in p s = true <-> exists a b, s = (a +:+ p +:+ b)%string.
Proof.
  unfold str_in. rewrite contains_spec. split.
  - intros [a [b Hab]]. exists (to_string a), (to_string b).
    rewrite <- (to_of_string s), Hab, !to_string_app, to_of_string.
    reflexivity.
  - intros [a [b ->]]. exists (of_string a), (of_string b).
    now rewrite !of_string_app.
Qed.

Lemma str_in_refl s : str_in s s = true.
Proof.
  apply str_in_spec. exists ""%string, ""%string. simpl.
  rewrite <- (to_of_string s) at 1.
  rewrite <- (app_nil_r (of_string s)), to_string_app, to_of_string.
  reflexivity.
Qed.

Section Strip.
Variable p : ascii -> bool.

Lemma lstrip_suffix s : exists pre, s = pre ++ lstrip p s.
Proof.
  induction s as [|c s [pre IH]]; simpl.
  - now exists [].
  - destruct (p c).
    + exists (c :: pre). simpl. now f_equal.
    + now exists [].
Qed.

Lemma lstrip_id s :
  match s with [] => True | c :: _ => p c = false end -> lstrip p s = s.
Proof. destruct s as [|c s]; simpl; [reflexivity | now intros ->]. Qed.

Lemma lstrip_head s :
  match lstrip p s with [] => True | c :: _ => p c = false end.
Proof.
  induction s as [|c s IH]; simpl; [exact I |].
  destruct (p c) eqn:E; [exact IH | exact E].
Qed.

Lemma lstrip_snoc s c :
  p c = false -> exists t, lstrip p (s ++ [c]) = t ++ [c].
Proof.
  intros Hc. induction s as [|a s [t IH]]; simpl.
  - rewrite Hc. now exists [].
  - destruct (p a); [eauto |]. now exists (a :: s).
Qed.

Lemma rstrip_prefix s : exists post, s = rstrip p s ++ post.
Proof.
  unfold rstrip. destruct (lstrip_suffix (rev s)) as [pre H].
  exists (rev pre). rewrite <- rev_app_distr, <- H. now rewrite rev_involutive.
Qed.

Lemma rstrip_id s :
  match rev s with [] => True | c :: _ => p c = false end -> rstrip p s = s.
Proof.
  intros H. unfold rstrip. rewrite lstrip_id by exact H.
  apply rev_involutive.
Qed.

Lemma rstrip_last s :
  match rev (rstrip p s) with [] => True | c :: _ => p c = false end.
Proof. unfold rstrip. rewrite rev_involutive. apply lstrip_head. Qed.

Lemma rstrip_head c s :
  p c = false -> exists t, rstrip p (c :: s) = c :: t.
Proof.
  intros Hc. unfold rstrip. simpl.
  destruct (lstrip_snoc (rev s) c Hc) as [t ->].
  rewrite rev_app_distr. simpl. eauto.
Qed.

(** The stripped text is a middle part of the text, and neither starts
    nor ends with a stripped character. *)
Lemma strip_infix s : exists pre post, s = pre ++ strip p s ++ post.
Proof.
  unfold strip. destruct (lstrip_suffix s) as [pre H].
  destruct (rstrip_prefix (lstrip p s)) as [post H'].
  exists pre, post. now rewrite <- H', <- H.
Qed.

Lemma strip_head s :
  match strip p s with [] => True | c :: _ => p c = false end.
Proof.
  unfold strip. pose proof (lstrip_head s) as H.
  destruct (lstrip p s) as [|c t]; [exact I |].
  destruct (rstrip_head c t H) as [u ->]. exact H.
Qed.

Lemma strip_last s :
  match rev (strip p s) with [] => True | c :: _ => p c = false end.
Proof. unfold strip. apply rstrip_last. Qed.

Lemma strip_id s :
  match s with [] => True | c :: _ => p c = false end ->
  match rev s with [] => True | c :: _ => p c = false end ->
  strip p s = s.
Proof.
  intros H1 H2. unfold strip. rewrite lstrip_id by exact H1.
  now apply rstrip_id.
Qed.
End Strip.

End PyStrFacts.

(** ** pen_audit/codebase_matcher.py: [_slugify] and [_is_stub_page] *)
Module CodebaseMatcherFacts.
Import PyStr CodebaseMatcher PyStrFacts.

(** *** Characters of a slug *)

Lemma slug_char_lower c : slug_char c = true -> lower_char c = c.
Proof. each_char c. Qed.

Lemma slug_char_not_space c : slug_char c = true -> is_space c = false.
Proof. each_char c. Qed.

Lemma slug_char_not_sep c : slug_char c = true -> space_or_underscore c = false.
Proof. each_char c. Qed.

Lemma slug_char_keep c : slug_char c = true -> slug_keep c = true.
Proof. each_char c. Qed.

Lemma keep_not_sep c :
  slug_keep c = true -> space_or_underscore c = false -> slug_char c = true.
Proof. each_char c. Qed.

Lemma slug_char_range c :
  slug_char c = true ->
  (97 <= code c <= 122)%N \/ (48 <= code c <= 57)%N \/ c = hyphen.
Proof.
  unfold slug_char, is_lower_az, is_digit. intros H.
  apply orb_prop in H as [H | H]; [apply orb_prop in H as [H | H] |].
  - left. apply andb_prop in H as [H1 H2]. split; now apply N.leb_le.
  - right; left. apply andb_prop in H as [H1 H2]. split; now apply N.leb_le.
  - right; right. now apply is_hyphen_eq.
Qed.

(** *** Runs *)

Lemma head_not_iff p s :
  head_not p s = true <-> match s with [] => True | c :: _ => p c = false end.
Proof.
  destruct s as [|c s]; simpl; [tauto |]. now rewrite negb_true_iff.
Qed.

Lemma no_double_app p a b :
  no_double p (a ++ b) = true -> no_double p a = true /\ no_double p b = true.
Proof.
  induction a as [|c a IH]; simpl; [tauto |].
  rewrite !andb_true_iff. intros [H1 H2]. destruct (IH H2) as [Ha Hb].
  repeat split; try assumption.
  destruct (p c); simpl in *; [|reflexivity].
  destruct a; [reflexivity | exact H1].
Qed.

Section Runs.
Variables (cls : ascii -> bool) (rep : ascii).

Lemma sub_runs_from_in b s c :
  In c (sub_runs_from cls rep b s) -> c = rep \/ (In c s /\ cls c = false).
Proof.
  revert b; induction s as [|a s IH]; intros b; simpl; [tauto |].
  destruct (cls a) eqn:Ea.
  - destruct b; simpl; intros H.
    + destruct (IH _ H) as [-> | [H1 H2]]; auto.
    + destruct H as [<- | H]; [now left |].
      destruct (IH _ H) as [-> | [H1 H2]]; auto.
  - simpl. intros [<- | H]; [now right; split; [left |] |].
    destruct (IH _ H) as [-> | [H1 H2]]; auto.
Qed.

(** After the substitution no two characters of the class are adjacent
    (the replacement being one of them). *)
Lemma sub_runs_from_no_double b s :
  no_double cls (sub_runs_from cls rep b s) = true
  /\ (b = true -> head_not cls (sub_runs_from cls rep b s) = true).
Proof.
  revert b; induction s as [|a s IH]; intros b; simpl; [tauto |].
  destruct (cls a) eqn:Ea.
  - destruct (IH true) as [H1 H2]. destruct b; simpl.
    + auto.
    + rewrite H1, (H2 eq_refl), orb_true_r. split; [reflexivity | discriminate].
  - destruct (IH false) as [H1 _]. simpl. rewrite Ea, H1. auto.
Qed.

Lemma sub_runs_from_none b s :
  forallb (fun c => negb (cls c)) s = true -> sub_runs_from cls rep b s = s.
Proof.
  revert b; induction s as [|a s IH]; intros b; simpl; [reflexivity |].
  rewrite andb_true_iff, negb_true_iff. intros [-> H]. now rewrite IH.
Qed.

(** A text with no two adjacent characters of the class is left as it
    is, when the replacement is the only character of the class. *)
Lemma sub_runs_from_id b s :
  (forall c, cls c = true -> c = rep) ->
  no_double cls s = true ->
  (b = true -> head_not cls s = true) ->
  sub_runs_from cls rep b s = s.
Proof.
  intros Hrep. revert b; induction s as [|a s IH]; intros b; simpl;
    [reflexivity |].
  rewrite andb_true_iff. intros [H1 H2] Hb.
  destruct (cls a) eqn:Ea; simpl in *.
  - destruct b; [now specialize (Hb eq_refl) |].
    rewrite (Hrep a Ea). f_equal. now apply IH.
  - f_equal. apply IH; [assumption | discriminate].
Qed.
End Runs.

(** *** The shape of [_slugify]'s result *)

Lemma slugify_chars_ok name : slug_ok (slugify_chars name) = true.
Proof.
  unfold slugify_chars, sub_delete_not, sub_runs.
  set (s0 := strip is_space (lower name)).
  set (s1 := List.filter slug_keep s0).
  set (s2 := sub_runs_from space_or_underscore hyphen false s1).
  set (s3 := sub_runs_from is_hyphen hyphen false s2).
  assert (C2 : forall c, In c s2 -> slug_char c = true).
  { intros c Hc. apply sub_runs_from_in in Hc as [-> | [Hc Hn]]; [reflexivity |].
    apply filter_In in Hc as [_ Hk]. now apply keep_not_sep. }
  assert (C3 : forall c, In c s3 -> slug_char c = true).
  { intros c Hc. apply sub_runs_from_in in Hc as [-> | [Hc _]]; [reflexivity |].
    now apply C2. }
  destruct (sub_runs_from_no_double is_hyphen hyphen false s2) as [D3 _].
  fold s3 in D3.
  destruct (strip_infix is_hyphen s3) as [pre [post E]].
  unfold slug_ok. rewrite !andb_true_iff. repeat split.
  - apply forallb_forall. intros c Hc. apply C3. rewrite E.
    apply in_or_app; right. apply in_or_app; now left.
  - rewrite E in D3. apply no_double_app in D3 as [_ D3].
    now apply no_double_app in D3 as [D3 _].
  - apply head_not_iff, strip_head.
  - apply head_not_iff, strip_last.
Qed.

Lemma slugify_chars_id s : slug_ok s = true -> slugify_chars s = s.
Proof.
  unfold slug_ok. rewrite !andb_true_iff. intros [[[C D] H] L].
  rewrite forallb_forall in C.
  assert (R : forall c, In c (rev s) -> slug_char c = true)
    by (intros c Hc; apply C; now apply in_rev).
  unfold slugify_chars, sub_delete_not, sub_runs.
  assert (E0 : lower s = s).
  { unfold lower. rewrite <- (map_id s) at 2. apply map_ext_in.
    intros c Hc. now apply slug_char_lower, C. }
  rewrite E0.
  assert (E1 : strip is_space s = s).
  { apply strip_id.
    - destruct s as [|c r]; [exact I |]. apply slug_char_not_space, C. now left.
    - destruct (rev s) as [|c r]; [exact I |]. apply slug_char_not_space, R. now left. }
  rewrite E1.
  assert (E2 : List.filter slug_keep s = s).
  { apply forallb_filter_id, forallb_forall.
    intros c Hc. now apply slug_char_keep, C. }
  rewrite E2.
  rewrite (sub_runs_from_none space_or_underscore).
  2:{ apply forallb_forall. intros c Hc. apply negb_true_iff.
      now apply slug_char_not_sep, C. }
  rewrite (sub_runs_from_id is_hyphen hyphen);
    [| exact is_hyphen_eq | exact D | discriminate].
  apply strip_id; now apply head_not_iff.
Qed.

Lemma no_double_hyphens a b :
  no_double is_hyphen (a ++ hyphen :: hyphen :: b) = false.
Proof.
  induction a as [|c a IH]; simpl; [reflexivity |].
  rewrite IH. apply andb_false_r.
Qed.

(** C9. [_slugify] is idempotent, and its result holds only lower-case
    letters, digits and hyphens, has no two hyphens in a row, and neither
    starts nor ends with a hyphen. *)
Theorem slugify_idempotent_and_shaped (name : string) :
  let slug := _slugify name in
  _slugify slug = slug
  /\ (forall c, In c (of_string slug) ->
       (97 <= code c <= 122)%N \/ (48 <= code c <= 57)%N \/ c = "-"%char)
  /\ (forall a b, slug <> (a +:+ "--" +:+ b)%string)
  /\ (forall r, slug <> ("-" +:+ r)%string)
  /\ (forall r, slug <> (r +:+ "-")%string).
Proof.
  unfold _slugify. set (s := slugify_chars (of_string name)).
  pose proof (slugify_chars_ok (of_string name)) as Hok. fold s in Hok.
  cbv zeta. rewrite of_to_string. repeat split.
  - now rewrite slugify_chars_id.
  - intros c Hc. apply slug_char_range.
    unfold slug_ok in Hok. rewrite !andb_true_iff in Hok.
    destruct Hok as [[[C _] _] _]. rewrite forallb_forall in C. now apply C.
  - intros a b E. apply (f_equal of_string) in E.
    rewrite of_to_string, !of_string_app in E.
    unfold slug_ok in Hok. rewrite !andb_true_iff in Hok.
    destruct Hok as [[[_ D] _] _]. rewrite E in D.
    change (of_string "--" ++ of_string b)
      with (hyphen :: hyphen :: of_string b) in D.
    now rewrite no_double_hyphens in D.
  - intros r E. apply (f_equal of_string) in E.
    rewrite of_to_string, of_string_app in E.
    unfold slug_ok in Hok. rewrite !andb_true_iff in Hok.
    destruct Hok as [[_ H] _]. rewrite E in H. discriminate.
  - intros r E. apply (f_equal of_string) in E.
    rewrite of_to_string, of_string_app in E.
    unfold slug_ok in Hok. rewrite !andb_true_iff in Hok.
    destruct Hok as [_ L]. rewrite E, rev_app_distr in L. discriminate.
Qed.

(** *** [_is_stub_page] *)

Import Samples.

Example sparse_page_lines :
  map to_string (splitlines (strip is_space (of_string sparse_page)))
  = ["a"; ""; ""; ""; ""; ""; ""; ""; ""; ""; "b"]%string
  /\ nonblank_lines (of_string sparse_page) = 2%nat.
Proof. split; reflexivity. Qed.

(** C6, as stated, fails: a page with two non-blank lines and nine blank
    lines between them is not a stub for [_is_stub_page], which counts
    every line, while the rule on non-blank lines makes it one. *)
Lemma stub_rule_counterexample :
  _is_stub_page (Some sparse_page) = false
  /\ stub_by_nonblank_lines sparse_page = true.
Proof. split; reflexivity. Qed.

(** The phrase is looked up in the lower-cased text. *)
Example coming_soon_any_case :
  _is_stub_page (Some capital_page) = true
  /\ str_in "coming soon" capital_page = false.
Proof. split; reflexivity. Qed.

(** C6, amended. A page that cannot be read is a stub. A page that can
    is a stub exactly when its text, with the white space at both ends
    stripped, has fewer than 10 lines (blank lines between the first and
    the last count), or when the text in lower case contains
    "coming soon" and those lines are fewer than 30. *)
Theorem is_stub_page_rule (content : string) :
  let lines := splitlines (strip is_space (of_string content)) in
  _is_stub_page None = true
  /\ (_is_stub_page (Some content) = true <->
      (length lines < 10)%nat
      \/ ((exists a b, str_lower content = (a +:+ "coming soon" +:+ b)%string)
          /\ (length lines < 30)%nat)).
Proof.
  cbv zeta. split; [reflexivity |].
  rewrite <- str_in_spec.
  unfold _is_stub_page, is_stub_content, str_in, str_lower.
  rewrite of_to_string. fold coming_soon.
  set (n := length (splitlines (strip is_space (of_string content)))).
  destruct (Z.ltb_spec (Z.of_nat n) 10) as [H10 | H10].
  - split; [intros _; left; lia | reflexivity].
  - destruct (contains coming_soon (lower (of_string content))); simpl.
    + destruct (Z.ltb_spec (Z.of_nat n) 30) as [H30 | H30].
      * split; [intros _; right; split; [reflexivity | lia] | reflexivity].
      * split; [discriminate | intros [H | [_ H]]; lia].
    + split; [discriminate | intros [H | [H _]]; [lia | discriminate]].
Qed.

End CodebaseMatcherFacts.

(** ** pen_audit/scoring.py: the tier classifier and the statistics *)
Module ScoringFacts.
Import Scoring.

(** *** [classify_screen_tier] *)

Lemma any_positive_iff fc inds :
  any_positive fc inds = true <-> positive_in fc inds.
Proof.
  unfold any_positive, positive_in. rewrite existsb_exists.
  split; intros [ind [H1 H2]]; exists ind; split; try assumption;
    now apply Z.ltb_lt.
Qed.

Lemma any_positive_not fc inds :
  any_positive fc inds = false <-> ~ positive_in fc inds.
Proof.
  rewrite <- any_positive_iff. destruct (any_positive fc inds); split;
    congruence.
Qed.

(** C5, as stated, fails: with [tabs_complex] alone above zero the
    classifier answers 3, and the listed decision order answers 1. *)
Lemma tier_order_counterexample :
  classify_screen_tier Samples.tabs_complex_only = 3
  /\ spec_tier Samples.tabs_complex_only = 1
  /\ any_positive Samples.tabs_complex_only
       (t4_indicators ++ spec_t3_indicators) = false.
Proof. repeat split; reflexivity. Qed.

(** C5, amended. The classifier follows the decision order with
    [tabs_complex] among the tier-3 indicators: 4 if an indicator of
    {camera, scanner, map, video, realtime, animation, device_api} is
    above zero; else 3 if one of {charts, timers, builders, drag_drop,
    swipe, tabs_complex} is; else 2 if one of {forms, lists, cards, crud,
    detail_view, modals, tabs} is; else 1. So a positive [camera] gives 4
    whatever the other counts, and with no tier-4 indicator and none of
    these six tier-3 indicators above zero the answer is never 3. *)
Theorem classify_screen_tier_order (fc : gmap string Z) :
  let T4 := ["camera"; "scanner"; "map"; "video"; "realtime"; "animation";
             "device_api"]%string in
  let T3 := ["charts"; "timers"; "builders"; "drag_drop"; "swipe";
             "tabs_complex"]%string in
  let T2 := ["forms"; "lists"; "cards"; "crud"; "detail_view"; "modals";
             "tabs"]%string in
  (classify_screen_tier fc = 4 <-> positive_in fc T4)
  /\ (classify_screen_tier fc = 3 <->
      ~ positive_in fc T4 /\ positive_in fc T3)
  /\ (classify_screen_tier fc = 2 <->
      ~ positive_in fc T4 /\ ~ positive_in fc T3 /\ positive_in fc T2)
  /\ (classify_screen_tier fc = 1 <->
      ~ positive_in fc T4 /\ ~ positive_in fc T3 /\ ~ positive_in fc T2)
  /\ (0 < count_of fc "camera" -> classify_screen_tier fc = 4).
Proof.
  cbv zeta. fold t4_indicators t3_indicators t2_indicators.
  unfold classify_screen_tier.
  assert (Hcam : 0 < count_of fc "camera" -> positive_in fc t4_indicators).
  { intros H. exists "camera"%string. split; [now left | exact H]. }
  destruct (any_positive fc t4_indicators) eqn:E4;
    [apply any_positive_iff in E4 | apply any_positive_not in E4].
  { repeat split; try tauto; try discriminate. }
  destruct (any_positive fc t3_indicators) eqn:E3;
    [apply any_positive_iff in E3 | apply any_positive_not in E3].
  { repeat split; try tauto; try discriminate. }
  destruct (any_positive fc t2_indicators) eqn:E2;
    [apply any_positive_iff in E2 | apply any_positive_not in E2].
  { repeat split; try tauto; try discriminate. }
  repeat split; try tauto; try discriminate.
Qed.

(** *** Sums over [by_tier] *)

Section Sums.
Variable g : Z -> tier_stats -> Z.

Lemma sum_entries_insert (m : gmap Z tier_stats) k v :
  m !! k = None -> sum_entries g (<[k:=v]> m) = g k v + sum_entries g m.
Proof.
  intros H. unfold sum_entries. rewrite map_fold_insert_L; [reflexivity | | exact H].
  intros. lia.
Qed.

Lemma sum_entries_alter (m : gmap Z tier_stats) k v f :
  m !! k = Some v ->
  sum_entries g (alter f k m) = sum_entries g m - g k v + g k (f v).
Proof.
  intros H. rewrite <- (insert_delete_id m k v H) at 1 2.
  rewrite alter_insert_eq, !sum_entries_insert by apply lookup_delete_eq.
  lia.
Qed.

Lemma setdefault_lookup (m : gmap Z tier_stats) k :
  setdefault k m !! k = Some (default (TierStats 0 0) (m !! k)).
Proof.
  unfold setdefault. destruct (m !! k) eqn:E; simpl; [exact E |].
  apply lookup_insert_eq.
Qed.

Lemma sum_entries_setdefault (m : gmap Z tier_stats) k :
  g k (TierStats 0 0) = 0 ->
  sum_entries g (setdefault k m) = sum_entries g m.
Proof.
  intros H0. unfold setdefault. destruct (m !! k) eqn:E; [reflexivity |].
  rewrite sum_entries_insert by exact E. lia.
Qed.
End Sums.

Lemma sum_entries_ext g g' (m : gmap Z tier_stats) :
  (forall k v, g k v = g' k v) -> sum_entries g m = sum_entries g' m.
Proof.
  intros H. induction m as [|k v m Hk IH] using map_ind.
  - unfold sum_entries. now rewrite !map_fold_empty.
  - rewrite !sum_entries_insert by exact Hk. now rewrite IH, H.
Qed.

Section Weighted.
Variable w : Z -> Z.

Let by_total := fun (t : Z) (ts : tier_stats) => w t * ts_total ts.
Let by_done := fun (t : Z) (ts : tier_stats) => w t * ts_done ts.

Lemma count_feature_by_tier c f :
  let bt := alter add_total (Feature.tier f) (setdefault (Feature.tier f) (c_by_tier c)) in
  c_by_tier (count_feature c f)
  = if has_status "implemented" f then alter add_done (Feature.tier f) bt else bt.
Proof.
  unfold count_feature, has_status. cbv zeta.
  destruct (String.eqb (Feature.status f) "implemented"); [reflexivity |].
  destruct (String.eqb (Feature.status f) "deferred"); [reflexivity |].
  destruct (String.eqb (Feature.status f) "out_of_scope"); reflexivity.
Qed.

Lemma count_feature_total c f :
  sum_entries by_total (c_by_tier (count_feature c f))
  = sum_entries by_total (c_by_tier c) + w (Feature.tier f).
Proof.
  rewrite count_feature_by_tier. cbv zeta.
  set (t := Feature.tier f). set (m := setdefault t (c_by_tier c)).
  pose proof (setdefault_lookup (c_by_tier c) t) as Hm. fold m in Hm.
  set (v := default (TierStats 0 0) (c_by_tier c !! t)) in Hm.
  assert (Ha : alter add_total t m !! t = Some (add_total v))
    by (now rewrite lookup_alter_eq, Hm).
  assert (E : sum_entries by_total (alter add_total t m)
              = sum_entries by_total (c_by_tier c) + w t).
  { rewrite (sum_entries_alter _ m t v) by exact Hm.
    unfold m. rewrite sum_entries_setdefault by (unfold by_total; simpl; lia).
    unfold by_total, add_total. simpl. lia. }
  destruct (has_status "implemented" f); [| exact E].
  rewrite (sum_entries_alter _ _ t (add_total v)) by exact Ha.
  rewrite E. unfold by_total, add_done, add_total. simpl. lia.
Qed.

Lemma count_feature_done c f :
  sum_entries by_done (c_by_tier (count_feature c f))
  = sum_entries by_done (c_by_tier c)
    + (if has_status "implemented" f then w (Feature.tier f) else 0).
Proof.
  rewrite count_feature_by_tier. cbv zeta.
  set (t := Feature.tier f). set (m := setdefault t (c_by_tier c)).
  pose proof (setdefault_lookup (c_by_tier c) t) as Hm. fold m in Hm.
  set (v := default (TierStats 0 0) (c_by_tier c !! t)) in Hm.
  assert (Ha : alter add_total t m !! t = Some (add_total v))
    by (now rewrite lookup_alter_eq, Hm).
  assert (E : sum_entries by_done (alter add_total t m)
              = sum_entries by_done (c_by_tier c)).
  { rewrite (sum_entries_alter _ m t v) by exact Hm.
    unfold m. rewrite sum_entries_setdefault by (unfold by_done; simpl; lia).
    unfold by_done, add_total. simpl. lia. }
  destruct (has_status "implemented" f); [| rewrite E; lia].
  rewrite (sum_entries_alter _ _ t (add_total v)) by exact Ha.
  rewrite E. unfold by_done, add_done, add_total. simpl. lia.
Qed.

Lemma fold_total features c :
  sum_entries by_total (c_by_tier (fold_left count_feature features c))
  = sum_entries by_total (c_by_tier c)
    + fold_right (fun f acc => w (Feature.tier f) + acc) 0 features.
Proof.
  revert c; induction features as [|f fs IH]; intros c; simpl; [lia |].
  rewrite IH, count_feature_total. lia.
Qed.

Lemma fold_done features c :
  sum_entries by_done (c_by_tier (fold_left count_feature features c))
  = sum_entries by_done (c_by_tier c)
    + fold_right (fun f acc => w (Feature.tier f) + acc) 0
        (with_status "implemented" features).
Proof.
  revert c; induction features as [|f fs IH]; intros c; simpl; [lia |].
  rewrite IH, count_feature_done.
  destruct (has_status "implemented" f); simpl; lia.
Qed.
End Weighted.

(** *** The counters of [compute_completion] *)

Lemma has_status_eq s f : has_status s f = true <-> Feature.status f = s.
Proof. unfold has_status. apply String.eqb_eq. Qed.

Lemma count_status_cons s f fs :
  count_status s (f :: fs)
  = (if has_status s f then 1 else 0) + count_status s fs.
Proof.
  unfold count_status, with_status. simpl.
  destruct (has_status s f); simpl length; lia.
Qed.

Lemma count_feature_counters c f :
  c_total (count_feature c f) = c_total c + 1
  /\ c_implemented (count_feature c f)
     = c_implemented c + (if has_status "implemented" f then 1 else 0)
  /\ c_deferred (count_feature c f)
     = c_deferred c + (if has_status "deferred" f then 1 else 0)
  /\ c_out_of_scope (count_feature c f)
     = c_out_of_scope c + (if has_status "out_of_scope" f then 1 else 0).
Proof.
  unfold count_feature, has_status. cbv zeta.
  destruct (String.eqb_spec (Feature.status f) "implemented") as [-> | _];
    [simpl; repeat split; lia |].
  destruct (String.eqb_spec (Feature.status f) "deferred") as [-> | _];
    [simpl; repeat split; lia |].
  destruct (String.eqb_spec (Feature.status f) "out_of_scope") as [_ | _];
    simpl; repeat split; lia.
Qed.

Lemma fold_counters features c :
  let c' := fold_left count_feature features c in
  c_total c' = c_total c + Z.of_nat (length features)
  /\ c_implemented c' = c_implemented c + count_status "implemented" features
  /\ c_deferred c' = c_deferred c + count_status "deferred" features
  /\ c_out_of_scope c' = c_out_of_scope c + count_status "out_of_scope" features.
Proof.
  revert c; induction features as [|f fs IH]; intros c.
  - unfold count_status. simpl. repeat split; lia.
  - simpl fold_left. cbv zeta.
    destruct (IH (count_feature c f)) as (H1 & H2 & H3 & H4).
    destruct (count_feature_counters c f) as (E1 & E2 & E3 & E4).
    rewrite H1, H2, H3, H4, E1, E2, E3, E4, !count_status_cons.
    simpl length. repeat split; lia.
Qed.

(** Every feature has exactly one of the three resolved statuses or
    counts as open. *)
Lemma status_partition features :
  Z.of_nat (length features)
  = count_status "implemented" features + count_status "deferred" features
    + count_status "out_of_scope" features
    + Z.of_nat (length (List.filter counts_as_open features)).
Proof.
  induction features as [|f fs IH]; [reflexivity |].
  rewrite !count_status_cons. simpl. unfold counts_as_open at 1.
  unfold has_status.
  destruct (String.eqb_spec (Feature.status f) "implemented") as [-> | _];
    [simpl; lia |].
  destruct (String.eqb_spec (Feature.status f) "deferred") as [-> | _];
    [simpl; lia |].
  destruct (String.eqb_spec (Feature.status f) "out_of_scope") as [_ | _];
    simpl; lia.
Qed.

Lemma tiers_total_features features :
  tiers_total (c_by_tier (count_features features)) = Z.of_nat (length features).
Proof.
  unfold tiers_total, count_features.
  pose proof (fold_total (fun _ => 1) features counters0) as H.
  simpl in H.
  rewrite (sum_entries_ext _ (fun (_ : Z) ts => 1 * ts_total ts))
    by (intros; lia).
  rewrite H. clear H. unfold sum_entries. rewrite map_fold_empty.
  induction features as [|f fs IH]; simpl fold_right; simpl length; lia.
Qed.

Lemma total_effort_features features :
  total_effort (c_by_tier (count_features features)) = weight_sum features.
Proof.
  unfold total_effort, effort, count_features.
  pose proof (fold_total tier_weight features counters0) as H.
  unfold sum_entries in H. rewrite H. simpl. now rewrite map_fold_empty.
Qed.

Lemma done_effort_features features :
  done_effort (c_by_tier (count_features features))
  = weight_sum (with_status "implemented" features).
Proof.
  unfold done_effort, effort, count_features.
  pose proof (fold_done tier_weight features counters0) as H.
  unfold sum_entries in H. rewrite H. simpl. now rewrite map_fold_empty.
Qed.

Lemma weight_sum_app fs gs :
  weight_sum (fs ++ gs) = weight_sum fs + weight_sum gs.
Proof. induction fs as [|f fs IH]; simpl; lia. Qed.

Lemma with_status_app s fs gs :
  with_status s (fs ++ gs) = with_status s fs ++ with_status s gs.
Proof. apply List.filter_app. Qed.

(** C7. The totals of [by_tier] add up to [total], the number of
    features; [pct] is [round(implemented / total * 100, 1)], with
    [implemented] the number of features of that status, and 0.0 for no
    feature; [effort_score] is [round(doneEffort / totalEffort * 100, 1)]
    for the efforts weighted by tier with 1, 2, 4 and 8 for the tiers 1
    to 4, and 0.0 for no effort. *)
Theorem aggregate_statistics (round1 : float -> float) (features : list Feature.t) :
  let st := compute_completion round1 features in
  let n := Z.of_nat (length features) in
  let n_done := count_status "implemented" features in
  let totalEffort := weight_sum features in
  let doneEffort := weight_sum (with_status "implemented" features) in
  tiers_total (by_tier st) = total st
  /\ total st = n
  /\ implemented st = n_done
  /\ pct st = (if 0 <? n
               then round1 (PrimFloat.mul (int_truediv n_done n) 100%float)
               else 0%float)
  /\ effort_score st
     = (if 0 <? totalEffort
        then round1 (PrimFloat.mul (int_truediv doneEffort totalEffort) 100%float)
        else 0%float)
  /\ (tier_weight 1 = 1 /\ tier_weight 2 = 2
      /\ tier_weight 3 = 4 /\ tier_weight 4 = 8).
Proof.
  cbv zeta. unfold compute_completion. cbv zeta. simpl.
  destruct (fold_counters features counters0) as (H1 & H2 & _ & _).
  fold (count_features features) in H1, H2. simpl in H1, H2.
  rewrite tiers_total_features, total_effort_features, done_effort_features.
  rewrite H1, H2. unfold percentage.
  repeat split; reflexivity.
Qed.

(** C10. [open] is [total - implemented - deferred - out_of_scope], which
    is the number of features of any other status, "removed_from_design"
    among them; those features are counted in [total] and in the total
    effort, the two denominators: one more of them raises [open], [total]
    and the total effort and leaves [implemented] and the done effort. *)
Theorem open_counts_every_other_status (round1 : float -> float)
    (features : list Feature.t) :
  let st := compute_completion round1 features in
  open st = total st - implemented st - deferred st - out_of_scope st
  /\ open st = Z.of_nat (length (List.filter counts_as_open features))
  /\ (forall f, Feature.status f = "removed_from_design"%string ->
       counts_as_open f = true)
  /\ total st = Z.of_nat (length features)
  /\ total_effort (by_tier st) = weight_sum features
  /\ pct st = percentage round1 (implemented st) (total st)
  /\ effort_score st
     = percentage round1 (done_effort (by_tier st)) (total_effort (by_tier st))
  /\ (forall f, Feature.status f = "removed_from_design"%string ->
       let st' := compute_completion round1 (features ++ [f]) in
       open st' = open st + 1
       /\ total st' = total st + 1
       /\ implemented st' = implemented st
       /\ total_effort (by_tier st')
          = total_effort (by_tier st) + tier_weight (Feature.tier f)
       /\ done_effort (by_tier st') = done_effort (by_tier st)).
Proof.
  assert (Open : forall fs,
    open (compute_completion round1 fs)
    = Z.of_nat (length (List.filter counts_as_open fs))).
  { intros fs. unfold compute_completion. cbv zeta. simpl.
    destruct (fold_counters fs counters0) as (H1 & H2 & H3 & H4).
    fold (count_features fs) in H1, H2, H3, H4. simpl in H1, H2, H3, H4.
    rewrite H1, H2, H3, H4, (status_partition fs). lia. }
  assert (Rem : forall f, Feature.status f = "removed_from_design"%string ->
    counts_as_open f = true)
    by (intros f Hf; unfold counts_as_open, has_status; now rewrite Hf).
  assert (Tot : forall fs,
    total (compute_completion round1 fs) = Z.of_nat (length fs)).
  { intros fs. unfold compute_completion. cbv zeta. simpl.
    destruct (fold_counters fs counters0) as (H1 & _). exact H1. }
  assert (Impl : forall fs,
    implemented (compute_completion round1 fs) = count_status "implemented" fs).
  { intros fs. unfold compute_completion. cbv zeta. simpl.
    destruct (fold_counters fs counters0) as (_ & H2 & _). exact H2. }
  assert (TE : forall fs,
    total_effort (by_tier (compute_completion round1 fs)) = weight_sum fs)
    by (intros fs; apply total_effort_features).
  assert (DE : forall fs,
    done_effort (by_tier (compute_completion round1 fs))
    = weight_sum (with_status "implemented" fs))
    by (intros fs; apply done_effort_features).
  cbv zeta. split; [reflexivity |]. split; [apply Open |].
  split; [exact Rem |]. split; [apply Tot |]. split; [apply TE |].
  split; [reflexivity |]. split; [reflexivity |].
  intros f Hf. rewrite !Open, !Tot, !Impl, !TE, !DE.
  rewrite weight_sum_app, with_status_app, weight_sum_app.
  unfold count_status. rewrite with_status_app, List.filter_app, !length_app.
  simpl. unfold has_status. rewrite (Rem f Hf), Hf. simpl.
  repeat split; lia.
Qed.

End ScoringFacts.

(** ** Facts on the [dict] operations *)
Module PyDictFacts.

Lemma get_app {V} k (d d' : list (string * V)) :
  PyDict.get k (d ++ d')
  = match PyDict.get k d with Some v => Some v | None => PyDict.get k d' end.
Proof.
  induction d as [|[k' v'] d IH]; simpl; [reflexivity |].
  now destruct (String.eqb k' k).
Qed.

Lemma set_new {V} k (v : V) d :
  PyDict.get k d = None -> PyDict.set k v d = d ++ [(k, v)].
Proof.
  induction d as [|[k' v'] d IH]; simpl; [reflexivity |].
  destruct (String.eqb k' k); [discriminate |].
  intros H. now rewrite IH.
Qed.

Lemma get_some_in {V} k (d : list (string * V)) v :
  PyDict.get k d = Some v -> In (k, v) d.
Proof.
  induction d as [|[k' v'] d IH]; simpl; [discriminate |].
  destruct (String.eqb_spec k' k) as [-> | _].
  - intros [= ->]. now left.
  - intros H. right. now apply IH.
Qed.

Lemma get_none_not_in {V} k (d : list (string * V)) :
  PyDict.get k d = None <-> ~ In k (PyDict.keys d).
Proof.
  induction d as [|[k' v'] d IH]; simpl; [tauto |].
  destruct (String.eqb_spec k' k) as [-> | Hne].
  - split; [discriminate | intros H; destruct H; now left].
  - rewrite IH. tauto.
Qed.

Lemma in_keys {V} k (v : V) (d : list (string * V)) :
  In (k, v) d -> In k (PyDict.keys d).
Proof. intros H. now apply (in_map fst) in H. Qed.

Lemma values_unique {V} (d : list (string * V)) k k' v :
  NoDup (PyDict.values d) -> In (k, v) d -> In (k', v) d -> k = k'.
Proof.
  induction d as [|[k0 v0] d IH]; simpl; [tauto |].
  intros D. apply NoDup_cons in D as [Hv D].
  intros [[= -> ->] | H1] [[= ->] | H2]; try reflexivity.
  - exfalso. apply Hv, list_elem_of_In. now apply (in_map snd) in H2.
  - subst. exfalso. apply Hv, list_elem_of_In. now apply (in_map snd) in H1.
  - now apply IH.
Qed.

End PyDictFacts.

(** ** pen_audit/pen_parser.py: [_parse_node] *)
Module PenParserFacts.
Import PenParser PyDictFacts.

(** Induction on a JSON value, with the hypothesis on every element of a
    list and every value of a [dict]. *)
Section JsonInd.
Variable P : json -> Prop.
Hypothesis Hnull : P JNull.
Hypothesis Hbool : forall b, P (JBool b).
Hypothesis Hint : forall n, P (JInt n).
Hypothesis Hfloat : forall x, P (JFloat x).
Hypothesis Hstr : forall s, P (JStr s).
Hypothesis Hlist : forall l, Forall P l -> P (JList l).
Hypothesis Hobj : forall items, Forall (fun kv => P (snd kv)) items -> P (JObj items).

Lemma json_nested_ind (j : json) : P j.
Proof.
  revert j. fix IH 1. intros [ | b | n | x | s | l | items].
  - exact Hnull.
  - apply Hbool.
  - apply Hint.
  - apply Hfloat.
  - apply Hstr.
  - apply Hlist. revert l. fix IHl 1. intros [|x r].
    + constructor.
    + constructor; [apply IH | apply IHl].
  - apply Hobj. revert items. fix IHl 1. intros [|[k v] r].
    + constructor.
    + constructor; [apply IH | apply IHl].
Qed.
End JsonInd.

(** [_parse_node] in the order of the source: the children first, from
    [data.get("children", [])], then the known keys and the rest. *)
Lemma parse_node_unfold items :
  _parse_node (JObj items)
  = match children_of items with
    | Some children =>
        Some (mkPenNode (get_default "id" (JStr "") items)
                (get_default "type" (JStr "frame") items)
                (get_default "name" (JStr "") items)
                children
                (List.filter (fun kv => not_skipped (fst kv)) items)
                (get_default "reusable" (JBool false) items))
    | None => None
    end.
Proof.
  simpl.
  match goal with
  | |- match ?F items with _ => _ end = _ =>
      assert (H : forall its, F its = children_of its)
  end.
  { induction its as [|[k v] its IH]; [reflexivity |].
    unfold children_of, get_default. simpl PyDict.get.
    destruct (String.eqb k "children"); [reflexivity |].
    rewrite IH. reflexivity. }
  rewrite H. reflexivity.
Qed.

Lemma parse_children_cons x rest :
  parse_children (x :: rest)
  = if is_dict x
    then match _parse_node x with
         | Some child =>
             match parse_children rest with
             | Some nodes => Some (child :: nodes)
             | None => None
             end
         | None => None
         end
    else parse_children rest.
Proof. destruct x; reflexivity. Qed.

(** Every [dict] parses, and so does every list of children, whatever
    is nested in them. *)
Lemma parse_total (j : json) :
  match j with
  | JObj _ => exists node, _parse_node j = Some node
  | JList l => exists nodes, parse_children l = Some nodes
  | _ => True
  end.
Proof.
  induction j as [ | b | n | x | s | l IH | items IH] using json_nested_ind;
    try exact I.
  - change (exists nodes, parse_children l = Some nodes).
    induction l as [|x r IHr]; [now exists [] |].
    inversion IH as [|? ? Hx Hr]; subst.
    destruct (IHr Hr) as [nodes Hnodes].
    rewrite parse_children_cons, Hnodes.
    destruct (is_dict x) eqn:Ed; [| eauto].
    destruct x; try discriminate. cbv beta iota in Hx.
    destruct Hx as [node ->]. eauto.
  - change (exists node, _parse_node (JObj items) = Some node).
    rewrite parse_node_unfold.
    assert (H : exists nodes, children_of items = Some nodes).
    { unfold children_of, get_default.
      destruct (PyDict.get "children" items) as [v|] eqn:E; [| now exists []].
      apply get_some_in in E. rewrite List.Forall_forall in IH.
      specialize (IH _ E). simpl in IH.
      destruct v; try (now exists []). exact IH. }
    destruct H as [nodes ->]. eauto.
Qed.

(** The children are the parsed [dict] elements of the list, in order. *)
Lemma parse_children_spec raw nodes :
  parse_children raw = Some nodes ->
  Forall2 (fun d node => _parse_node d = Some node) (List.filter is_dict raw) nodes.
Proof.
  revert nodes; induction raw as [|x r IH]; intros nodes.
  - intros [= <-]. constructor.
  - rewrite parse_children_cons. simpl List.filter.
    destruct (is_dict x); [| apply IH].
    destruct (_parse_node x) as [child|] eqn:Ex; [| discriminate].
    destruct (parse_children r) as [ns|]; [| discriminate].
    intros [= <-]. constructor; [exact Ex | now apply IH].
Qed.

(** C8. Parsing a [dict] never raises, whatever it holds: the node has
    type "frame" when there is no [type] key, the empty string as [id]
    and as [name] when those keys are missing, no child when [children]
    is missing or is not a list, the parsed [dict] elements of [children]
    as its children when it is a list (the other elements are skipped),
    and as properties the items of every key but [id], [type], [name],
    [children] and [reusable], as they are and in their order. *)
Theorem parse_node_defaults (items : list (string * json)) :
  exists node,
    _parse_node (JObj items) = Some node
    /\ (PyDict.get "type" items = None -> type node = JStr "frame")
    /\ (PyDict.get "id" items = None -> id node = JStr "")
    /\ (PyDict.get "name" items = None -> name node = JStr "")
    /\ (forall v, PyDict.get "type" items = Some v -> type node = v)
    /\ (forall v, PyDict.get "id" items = Some v -> id node = v)
    /\ (forall v, PyDict.get "name" items = Some v -> name node = v)
    /\ (PyDict.get "children" items = None -> children node = [])
    /\ (forall v, PyDict.get "children" items = Some v ->
         (forall l, v <> JList l) -> children node = [])
    /\ (forall l, PyDict.get "children" items = Some (JList l) ->
         Forall2 (fun d child => _parse_node d = Some child)
           (List.filter is_dict l) (children node))
    /\ properties node
       = List.filter
           (fun kv => negb (existsb (String.eqb (fst kv))
                             ["id"; "type"; "name"; "children"; "reusable"]%string))
           items
    /\ (forall k v, In (k, v) (properties node) <->
         In (k, v) items
         /\ ~ In k ["id"; "type"; "name"; "children"; "reusable"]%string).
Proof.
  destruct (parse_total (JObj items)) as [node Hnode].
  exists node. split; [exact Hnode |].
  rewrite parse_node_unfold in Hnode.
  destruct (children_of items) as [nodes|] eqn:Ec; [| discriminate].
  injection Hnode as <-. simpl.
  unfold children_of, get_default in *.
  repeat split.
  - now intros ->.
  - now intros ->.
  - now intros ->.
  - now intros v ->.
  - now intros v ->.
  - now intros v ->.
  - intros E. rewrite E in Ec. now injection Ec as <-.
  - intros v E Hv. rewrite E in Ec.
    destruct v; try (now injection Ec as <-). now destruct (Hv elems).
  - intros l E. rewrite E in Ec. now apply parse_children_spec.
  - match goal with H : In _ (List.filter _ _) |- _ =>
      apply List.filter_In in H as [H1 _]; exact H1 end.
  - match goal with H : In _ (List.filter _ _) |- _ =>
      apply List.filter_In in H as [_ H2] end.
    unfold not_skipped in H2. simpl fst in H2.
    intros Hk. apply negb_true_iff in H2.
    assert (E : existsb (String.eqb k) skip_keys = true).
    { apply existsb_exists. exists k. split; [exact Hk | apply String.eqb_refl]. }
    congruence.
  - intros [H1 H2]. apply List.filter_In. split; [exact H1 |].
    unfold not_skipped. simpl fst. apply negb_true_iff.
    destruct (existsb (String.eqb k) skip_keys) eqn:E; [| reflexivity].
    apply existsb_exists in E as [k' [Hk' E]].
    apply String.eqb_eq in E. subst k'. contradiction.
Qed.

End PenParserFacts.

(** ** pen_audit/state.py: [merge_scan] and [resolve_feature] *)
Module StateFacts.
Import State PyDictFacts.

(** *** The store *)

Lemma upd_eq l g (h : heap) : upd l g h l = g (h l).
Proof. unfold upd. now rewrite Nat.eqb_refl. Qed.

Lemma upd_ne l l' g (h : heap) : l' <> l -> upd l g h l' = h l'.
Proof.
  intros H. unfold upd. destruct (Nat.eqb_spec l' l); [contradiction | reflexivity].
Qed.

Lemma same_unscanned_refl f : Feature.same_unscanned f f.
Proof. repeat split. Qed.

Lemma same_unscanned_trans f g k :
  Feature.same_unscanned f g -> Feature.same_unscanned g k ->
  Feature.same_unscanned f k.
Proof.
  unfold Feature.same_unscanned.
  intros (A1 & A2 & A3 & A4 & A5 & A6 & A7) (B1 & B2 & B3 & B4 & B5 & B6 & B7).
  repeat split; congruence.
Qed.

(** *** The first loop of [merge_scan] *)

(** One turn writes the four scanned fields of the known object, and
    nothing else. *)
Lemma merge_feature_heap now s f l :
  s_heap (merge_feature now s f) l
  = match PyDict.get (Feature.id (s_heap s f)) (s_existing s) with
    | Some old =>
        if Nat.eqb l old
        then Feature.set_detail (Feature.detail (s_heap s f))
               (Feature.set_summary (Feature.summary (s_heap s f))
                  (Feature.set_tier (Feature.tier (s_heap s f))
                     (Feature.set_last_seen now (s_heap s l))))
        else s_heap s l
    | None => s_heap s l
    end.
Proof.
  unfold merge_feature.
  destruct (PyDict.get (Feature.id (s_heap s f)) (s_existing s)) as [old|];
    [| reflexivity].
  simpl. unfold upd.
  destruct (Nat.eqb l old); [| reflexivity].
  destruct (Nat.eqb f old); reflexivity.
Qed.

Lemma merge_feature_frame now s f l :
  Feature.same_unscanned (s_heap s l) (s_heap (merge_feature now s f) l).
Proof.
  rewrite merge_feature_heap.
  destruct (PyDict.get _ _) as [old|]; [| apply same_unscanned_refl].
  destruct (Nat.eqb l old); [| apply same_unscanned_refl].
  repeat split.
Qed.

Lemma merge_loop_frame now fresh s l :
  Feature.same_unscanned (s_heap s l)
    (s_heap (fold_left (merge_feature now) fresh s) l).
Proof.
  revert s; induction fresh as [|f fresh IH]; intros s; simpl.
  - apply same_unscanned_refl.
  - eapply same_unscanned_trans; [apply merge_feature_frame | apply IH].
Qed.

Lemma merge_loop_ids now fresh s fs :
  ids_of (s_heap (fold_left (merge_feature now) fresh s)) fs = ids_of (s_heap s) fs.
Proof.
  unfold ids_of. apply map_ext. intros f.
  now destruct (merge_loop_frame now fresh s f) as (H & _).
Qed.

(** The ids collected by the loop are those of the fresh features. *)
Lemma merge_loop_current_ids now fresh s k :
  k ∈ s_current_ids (fold_left (merge_feature now) fresh s)
  <-> k ∈ s_current_ids s \/ In k (ids_of (s_heap s) fresh).
Proof.
  revert s; induction fresh as [|f fresh IH]; intros s; simpl.
  - tauto.
  - rewrite IH.
    pose proof (merge_loop_ids now [f] s fresh) as E. simpl in E. rewrite E.
    assert (C : s_current_ids (merge_feature now s f)
                = {[Feature.id (s_heap s f)]} ∪ s_current_ids s).
    { unfold merge_feature. now destruct (PyDict.get _ _). }
    rewrite C, elem_of_union, elem_of_singleton. intuition.
Qed.

Lemma merge_feature_existing now s f :
  let fid := Feature.id (s_heap s f) in
  match PyDict.get fid (s_existing s) with
  | Some _ =>
      s_existing (merge_feature now s f) = s_existing s
      /\ s_new_count (merge_feature now s f) = s_new_count s
  | None =>
      s_existing (merge_feature now s f) = s_existing s ++ [(fid, f)]
      /\ s_new_count (merge_feature now s f) = s_new_count s + 1
  end.
Proof.
  cbv zeta. unfold merge_feature.
  destruct (PyDict.get _ _) eqn:G; simpl; [tauto |].
  now rewrite (set_new _ _ _ G).
Qed.

(** The mapping only grows, at its end, by the fresh features whose id
    was not a key; the count of new features is their number. *)
Lemma merge_loop_existing now fresh s :
  let s' := fold_left (merge_feature now) fresh s in
  exists added,
    s_existing s' = s_existing s ++ added
    /\ s_new_count s' = s_new_count s + Z.of_nat (length added)
    /\ (forall k, In k (PyDict.keys added) -> In k (ids_of (s_heap s) fresh))
    /\ (forall k, In k (ids_of (s_heap s) fresh) ->
         In k (PyDict.keys (s_existing s')))
    /\ (forall k, In k (PyDict.keys added) -> PyDict.get k (s_existing s) = None).
Proof.
  revert s; induction fresh as [|f fresh IH]; intros s.
  - exists []. simpl. rewrite app_nil_r. repeat split; try tauto; lia.
  - simpl fold_left. cbv zeta.
    destruct (IH (merge_feature now s f)) as (added & E1 & E2 & E3 & E4 & E5).
    pose proof (merge_loop_ids now [f] s fresh) as Ei. simpl in Ei.
    rewrite Ei in E3, E4. simpl ids_of.
    pose proof (merge_feature_existing now s f) as M. cbv zeta in M.
    set (s1 := merge_feature now s f) in *.
    set (fid := Feature.id (s_heap s f)) in *.
    destruct (PyDict.get fid (s_existing s)) as [old|] eqn:G;
      destruct M as [M1 M2]; rewrite M1 in E1, E5; rewrite M2 in E2.
    + exists added. split; [exact E1 |]. split; [exact E2 |].
      split; [intros k Hk; right; auto |]. split; [| exact E5].
      intros k [<- | Hk]; [| auto].
      rewrite E1. unfold PyDict.keys. rewrite map_app. apply in_or_app. left.
      apply get_some_in in G. now apply (in_map fst) in G.
    + rewrite <- app_assoc in E1.
      exists ((fid, f) :: added). simpl.
      split; [| split; [| split; [| split]]].
      * exact E1.
      * rewrite E2. lia.
      * intros k [<- | Hk]; auto.
      * intros k [<- | Hk]; [| auto].
        rewrite E1. unfold PyDict.keys. rewrite map_app. apply in_or_app. right.
        now left.
      * intros k [<- | Hk]; [exact G |].
        specialize (E5 k Hk). rewrite get_app in E5.
        now destruct (PyDict.get k (s_existing s)).
Qed.

(** *** The second loop of [merge_scan] *)

Lemma marked_refl f : Feature.marked f f.
Proof. now left. Qed.

Lemma marked_trans f g k :
  Feature.marked f g -> Feature.marked g k -> Feature.marked f k.
Proof.
  intros [-> | [Hf ->]] [-> | [Hg ->]]; try (now left); now right.
Qed.

Lemma marked_not_open f g :
  Feature.marked f g -> Feature.status f <> "open"%string -> g = f.
Proof. intros [-> | [Hf _]] H; [reflexivity | contradiction]. Qed.

Section SecondLoop.
Variable current_ids : gset string.
Variable ids : list string.
Hypothesis current_ids_spec : forall k, k ∈ current_ids <-> In k ids.

Lemma absent_iff k :
  bool_decide (k ∉ current_ids) = negb (existsb (String.eqb k) ids).
Proof.
  destruct (existsb (String.eqb k) ids) eqn:E; simpl.
  - apply bool_decide_eq_false. intros H. apply H, current_ids_spec.
    apply existsb_exists in E as [k' [Hk' E]].
    apply String.eqb_eq in E. now subst.
  - apply bool_decide_eq_true. intros H. apply current_ids_spec in H.
    assert (existsb (String.eqb k) ids = true); [| congruence].
    apply existsb_exists. exists k. split; [exact H | apply String.eqb_refl].
Qed.

Lemma remove_absent_step h r item :
  remove_absent current_ids (h, r) item
  = if absent_open h ids item
    then (upd (snd item) (Feature.set_status "removed_from_design") h, r + 1)
    else (h, r).
Proof.
  destruct item as [k l]. unfold remove_absent, absent_open. simpl.
  now rewrite absent_iff.
Qed.

Lemma absent_open_in_ids h item :
  In (fst item) ids -> absent_open h ids item = false.
Proof.
  intros H. unfold absent_open.
  assert (E : existsb (String.eqb (fst item)) ids = true).
  { apply existsb_exists. exists (fst item). split; [exact H | apply String.eqb_refl]. }
  now rewrite E.
Qed.

Lemma absent_open_true h item :
  absent_open h ids item = true <->
  ~ In (fst item) ids /\ Feature.status (h (snd item)) = "open"%string.
Proof.
  unfold absent_open. rewrite andb_true_iff, negb_true_iff, String.eqb_eq.
  split; intros [H1 H2]; split; try assumption.
  - intros H.
    assert (E : existsb (String.eqb (fst item)) ids = true); [| congruence].
    apply existsb_exists. exists (fst item). split; [exact H | apply String.eqb_refl].
  - destruct (existsb (String.eqb (fst item)) ids) eqn:E; [| reflexivity].
    apply existsb_exists in E as [k' [Hk' E]].
    apply String.eqb_eq in E. subst. contradiction.
Qed.

Lemma remove_absent_marked h r item l :
  Feature.marked (h l) (fst (remove_absent current_ids (h, r) item) l).
Proof.
  rewrite remove_absent_step.
  destruct (absent_open h ids item) eqn:E; simpl; [| apply marked_refl].
  apply absent_open_true in E as [_ E].
  unfold upd. destruct (Nat.eqb_spec l (snd item)) as [-> | _];
    [now right | apply marked_refl].
Qed.

(** Every object is left as it was, or was open and is marked. *)
Lemma remove_loop_marked items h r l :
  Feature.marked (h l)
    (fst (fold_left (remove_absent current_ids) items (h, r)) l).
Proof.
  revert h r; induction items as [|item items IH]; intros h r; cbn [fold_left].
  - apply marked_refl.
  - pose proof (remove_absent_marked h r item l) as M.
    destruct (remove_absent current_ids (h, r) item) as [h1 r1].
    eapply marked_trans; [exact M | apply IH].
Qed.

(** An open object under an absent key is marked. *)
Lemma remove_loop_visited items h r k l :
  In (k, l) items -> ~ In k ids ->
  Feature.status (h l) = "open"%string ->
  fst (fold_left (remove_absent current_ids) items (h, r)) l
  = Feature.set_status "removed_from_design" (h l).
Proof.
  revert h r; induction items as [|item items IH]; intros h r; cbn [fold_left];
    [simpl; tauto |].
  intros [-> | Hin] Hk Hopen.
  - rewrite remove_absent_step.
    assert (E : absent_open h ids (k, l) = true)
      by (apply absent_open_true; now split).
    rewrite E. simpl snd.
    pose proof (remove_loop_marked items
      (upd l (Feature.set_status "removed_from_design") h) (r + 1) l) as M.
    rewrite upd_eq in M.
    destruct M as [M | [M _]]; [exact M | discriminate].
  - pose proof (remove_absent_marked h r item l) as M.
    destruct (remove_absent current_ids (h, r) item) as [h1 r1].
    simpl in M. destruct M as [M | [_ M]].
    + rewrite <- M. apply IH; try assumption. now rewrite M.
    + pose proof (remove_loop_marked items h1 r1 l) as M'.
      rewrite M in M'.
      destruct M' as [M' | [M' _]]; [exact M' | discriminate].
Qed.

(** Items whose keys are all among the ids change nothing. *)
Lemma remove_loop_present items h r :
  (forall item, In item items -> In (fst item) ids) ->
  fold_left (remove_absent current_ids) items (h, r) = (h, r).
Proof.
  revert h r; induction items as [|item items IH]; intros h r H; cbn [fold_left];
    [reflexivity |].
  rewrite remove_absent_step, absent_open_in_ids by (apply H; now left).
  apply IH. intros i Hi. apply H. now right.
Qed.

(** Items that are not both absent and open change nothing. *)
Lemma remove_loop_idle items h r :
  (forall item, In item items -> absent_open h ids item = false) ->
  fold_left (remove_absent current_ids) items (h, r) = (h, r).
Proof.
  revert h r; induction items as [|item items IH]; intros h r H; cbn [fold_left];
    [reflexivity |].
  rewrite remove_absent_step, H by now left.
  apply IH. intros i Hi. apply H. now right.
Qed.

Lemma absent_open_ext h h' item :
  Feature.status (h' (snd item)) = Feature.status (h (snd item)) ->
  absent_open h' ids item = absent_open h ids item.
Proof. unfold absent_open. now intros ->. Qed.

(** An object stored only under keys that are among the ids is not
    written. *)
Lemma remove_loop_untouched items h r l :
  (forall k, In (k, l) items -> In k ids) ->
  fst (fold_left (remove_absent current_ids) items (h, r)) l = h l.
Proof.
  revert h r; induction items as [|item items IH]; intros h r H;
    cbn [fold_left]; [reflexivity |].
  rewrite remove_absent_step.
  destruct (absent_open h ids item) eqn:E.
  - rewrite IH by (intros k Hk; apply H; now right).
    apply upd_ne. intros ->.
    apply absent_open_true in E as [E _]. apply E, H. left.
    now destruct item.
  - apply IH. intros k Hk. apply H. now right.
Qed.

(** With distinct objects, the count grows by the number of items that
    were absent and open at the start. *)
Lemma remove_loop_count items h r :
  NoDup (PyDict.values items) ->
  snd (fold_left (remove_absent current_ids) items (h, r))
  = r + Z.of_nat (length (List.filter (absent_open h ids) items)).
Proof.
  revert h r; induction items as [|item items IH]; intros h r D; cbn [fold_left];
    [simpl; lia |].
  apply NoDup_cons in D as [Hl D].
  rewrite remove_absent_step. cbn [List.filter].
  destruct (absent_open h ids item) eqn:E.
  - rewrite (IH _ _ D). cbn [length].
    rewrite (List.filter_ext_in (absent_open _ ids) (absent_open h ids)); [lia |].
    intros i Hi. apply absent_open_ext. rewrite upd_ne; [reflexivity |].
    intros Heq. apply Hl. apply list_elem_of_In. rewrite <- Heq.
    now apply in_map.
  - now rewrite (IH _ _ D).
Qed.
Lemma absent_open_objects_in h items l :
  l ∈ absent_open_objects h ids items
  <-> exists k, In (k, l) items /\ absent_open h ids (k, l) = true.
Proof.
  unfold absent_open_objects, PyDict.values.
  rewrite elem_of_list_to_set, list_elem_of_In, in_map_iff. split.
  - intros [[k l'] [E H]]. simpl in E. subst l'.
    apply List.filter_In in H. now exists k.
  - intros [k H]. exists (k, l). split; [reflexivity |].
    now apply List.filter_In.
Qed.

(** The count grows by the number of objects that were open under an
    absent key: an object stored under two such keys is marked once. *)
Lemma remove_loop_count_objects items h r :
  snd (fold_left (remove_absent current_ids) items (h, r))
  = r + Z.of_nat (size (absent_open_objects h ids items)).
Proof.
  revert h r; induction items as [|item items IH]; intros h r; cbn [fold_left].
  - change (absent_open_objects h ids []) with (∅ : gset nat).
    rewrite size_empty. simpl. lia.
  - rewrite remove_absent_step.
    destruct (absent_open h ids item) eqn:E.
    + rewrite IH. destruct item as [k l]. simpl snd.
      set (h1 := upd l (Feature.set_status "removed_from_design") h).
      assert (X : absent_open_objects h ids ((k, l) :: items)
                  = {[l]} ∪ absent_open_objects h1 ids items).
      { apply set_eq. intros x.
        rewrite elem_of_union, elem_of_singleton, !absent_open_objects_in.
        split.
        - intros [k' [[[= -> ->] | Hin] Hx]]; [now left |].
          destruct (Nat.eq_dec x l) as [-> | Hne]; [now left | right].
          exists k'. split; [exact Hin |].
          rewrite (absent_open_ext h); [exact Hx |].
          simpl. unfold h1. now rewrite upd_ne.
        - intros [-> | [k' [Hin Hx]]].
          + exists k. split; [now left | exact E].
          + exists k'. split; [now right |].
            apply absent_open_true in Hx as [Hk Ho]. simpl in Hk, Ho.
            apply absent_open_true. simpl. split; [exact Hk |].
            destruct (Nat.eq_dec x l) as [-> | Hne].
            * unfold h1 in Ho. rewrite upd_eq in Ho. discriminate.
            * unfold h1 in Ho. now rewrite upd_ne in Ho. }
      rewrite X, size_union, size_singleton; [lia |].
      apply disjoint_singleton_l. rewrite absent_open_objects_in.
      intros [k' [_ Hx]]. apply absent_open_true in Hx as [_ Ho].
      simpl in Ho. unfold h1 in Ho. rewrite upd_eq in Ho. discriminate.
    + rewrite IH. f_equal. f_equal. f_equal.
      unfold absent_open_objects. cbn [List.filter]. now rewrite E.
Qed.

Lemma absent_open_objects_ext h h' items :
  (forall l, Feature.status (h' l) = Feature.status (h l)) ->
  absent_open_objects h' ids items = absent_open_objects h ids items.
Proof.
  intros H. unfold absent_open_objects. f_equal. f_equal.
  apply List.filter_ext. intros item. apply absent_open_ext. apply H.
Qed.

(** With distinct objects that is the number of the items. *)
Lemma absent_open_objects_distinct h items :
  NoDup (PyDict.values items) ->
  size (absent_open_objects h ids items)
  = length (List.filter (absent_open h ids) items).
Proof.
  intros D. unfold absent_open_objects.
  rewrite size_list_to_set.
  - unfold PyDict.values. now rewrite length_map.
  - induction items as [|item items IH]; [constructor |].
    simpl in D. apply NoDup_cons in D as [Hl D]. cbn [List.filter].
    destruct (absent_open h ids item); [| now apply IH].
    simpl. apply NoDup_cons. split; [| now apply IH].
    intros Hin. apply Hl. apply list_elem_of_In in Hin.
    apply list_elem_of_In. apply in_map_iff in Hin as [i [Ei Hi]].
    apply List.filter_In in Hi as [Hi _]. rewrite <- Ei. now apply in_map.
Qed.
End SecondLoop.

Lemma merge_feature_last_seen now s f l :
  Feature.last_seen (s_heap (merge_feature now s f) l)
  = Feature.last_seen (s_heap s l)
  \/ Feature.last_seen (s_heap (merge_feature now s f) l) = now.
Proof.
  rewrite merge_feature_heap.
  destruct (PyDict.get _ _) as [old|]; [| now left].
  destruct (Nat.eqb l old); [now right | now left].
Qed.

Lemma merge_loop_last_seen now fresh s l :
  Feature.last_seen (s_heap (fold_left (merge_feature now) fresh s) l)
  = Feature.last_seen (s_heap s l)
  \/ Feature.last_seen (s_heap (fold_left (merge_feature now) fresh s) l) = now.
Proof.
  revert s; induction fresh as [|f fresh IH]; intros s; cbn [fold_left];
    [now left |].
  destruct (IH (merge_feature now s f)) as [E | E]; [| now right].
  rewrite E. apply merge_feature_last_seen.
Qed.

Lemma merge_feature_get now s f k l :
  PyDict.get k (s_existing s) = Some l ->
  PyDict.get k (s_existing (merge_feature now s f)) = Some l.
Proof.
  intros G. pose proof (merge_feature_existing now s f) as M. cbv zeta in M.
  destruct (PyDict.get (Feature.id (s_heap s f)) (s_existing s));
    destruct M as [-> _]; [exact G |].
  now rewrite get_app, G.
Qed.

(** A known feature that is scanned again is stamped with the time of
    the scan. *)
Lemma merge_loop_seen now fresh s k l :
  PyDict.get k (s_existing s) = Some l ->
  In k (ids_of (s_heap s) fresh) ->
  Feature.last_seen (s_heap (fold_left (merge_feature now) fresh s) l) = now.
Proof.
  revert s; induction fresh as [|f fresh IH]; intros s G; cbn [fold_left];
    [simpl; tauto |].
  pose proof (merge_loop_ids now [f] s fresh) as Ei. simpl in Ei.
  intros [Hk | Hk].
  - destruct (merge_loop_last_seen now fresh (merge_feature now s f) l)
      as [E | E]; [| exact E].
    rewrite E, merge_feature_heap, Hk, G. now rewrite Nat.eqb_refl.
  - apply IH; [now apply merge_feature_get | now rewrite Ei].
Qed.

(** *** States that store every feature under its id *)

Lemma keyed_by_id_get h existing k l :
  keyed_by_id h existing -> In (k, l) existing -> PyDict.get k existing = Some l.
Proof.
  intros [D _]. induction existing as [|[k0 l0] d IH]; simpl; [tauto |].
  simpl in D. apply NoDup_cons in D as [Hk D].
  intros [[= -> ->] | Hin]; [now rewrite String.eqb_refl |].
  destruct (String.eqb_spec k0 k) as [-> | _]; [| now apply IH].
  exfalso. apply Hk, list_elem_of_In. now apply (in_map fst) in Hin.
Qed.

Lemma keyed_by_id_distinct h existing :
  keyed_by_id h existing -> NoDup (PyDict.values existing).
Proof.
  intros [D I]. induction existing as [|[k0 l0] d IH]; simpl; [constructor |].
  simpl in D. apply NoDup_cons in D as [Hk D].
  apply NoDup_cons. split.
  - intros Hl. apply list_elem_of_In, in_map_iff in Hl as [[k l] [E Hin]].
    simpl in E. subst l. apply Hk, list_elem_of_In.
    assert (k = k0); [| subst; now apply (in_map fst) in Hin].
    rewrite <- (I k l0) by now right. apply I. now left.
  - apply IH; [exact D |]. intros k l Hin. apply I. now right.
Qed.

Lemma state_ok_distinct h st : state_ok h st -> distinct_objects st.
Proof. apply keyed_by_id_distinct. Qed.

Lemma empty_state_ok h now : state_ok h (_empty_state now).
Proof. split; [constructor | intros k l []]. Qed.

Lemma merge_feature_keyed now s f :
  keyed_by_id (s_heap s) (s_existing s) ->
  keyed_by_id (s_heap (merge_feature now s f)) (s_existing (merge_feature now s f)).
Proof.
  intros [D I].
  assert (Ids : forall l, Feature.id (s_heap (merge_feature now s f) l)
                          = Feature.id (s_heap s l))
    by (intros l; now destruct (merge_feature_frame now s f l)).
  pose proof (merge_feature_existing now s f) as M. cbv zeta in M.
  destruct (PyDict.get (Feature.id (s_heap s f)) (s_existing s)) eqn:G;
    destruct M as [-> _].
  - split; [exact D |]. intros k l Hin. rewrite Ids. now apply I.
  - split.
    + unfold PyDict.keys. rewrite map_app. simpl.
      apply NoDup_app. split; [exact D |]. split; [| apply NoDup_singleton].
      intros k Hk Hk'. apply list_elem_of_singleton in Hk'. subst k.
      apply get_none_not_in in G. apply G. now apply list_elem_of_In.
    + intros k l Hin. rewrite Ids. apply in_app_or in Hin as [Hin | Hin].
      * now apply I.
      * destruct Hin as [[= <- <-] | []]. reflexivity.
Qed.

Lemma merge_loop_keyed now fresh s :
  keyed_by_id (s_heap s) (s_existing s) ->
  keyed_by_id (s_heap (fold_left (merge_feature now) fresh s))
    (s_existing (fold_left (merge_feature now) fresh s)).
Proof.
  revert s; induction fresh as [|f fresh IH]; intros s H; cbn [fold_left];
    [exact H |].
  now apply IH, merge_feature_keyed.
Qed.

Lemma merge_loop_get now fresh s k l :
  PyDict.get k (s_existing s) = Some l ->
  PyDict.get k (s_existing (fold_left (merge_feature now) fresh s)) = Some l.
Proof.
  revert s; induction fresh as [|f fresh IH]; intros s G; cbn [fold_left];
    [exact G |].
  now apply IH, merge_feature_get.
Qed.

(** An object whose id is not scanned is not written by the first loop. *)
Lemma merge_loop_other now fresh s l :
  keyed_by_id (s_heap s) (s_existing s) ->
  ~ In (Feature.id (s_heap s l)) (ids_of (s_heap s) fresh) ->
  s_heap (fold_left (merge_feature now) fresh s) l = s_heap s l.
Proof.
  revert s; induction fresh as [|f fresh IH]; intros s K Hl; cbn [fold_left];
    [reflexivity |].
  pose proof (merge_loop_ids now [f] s fresh) as Ei. simpl in Ei.
  assert (E : s_heap (merge_feature now s f) l = s_heap s l).
  { rewrite merge_feature_heap.
    destruct (PyDict.get _ _) as [old|] eqn:G; [| reflexivity].
    destruct (Nat.eqb_spec l old) as [-> | _]; [| reflexivity].
    exfalso. apply Hl. left. symmetry.
    destruct K as [_ I]. apply I. now apply get_some_in. }
  rewrite IH.
  - exact E.
  - now apply merge_feature_keyed.
  - rewrite E, Ei. intros H. apply Hl. now right.
Qed.

(** A fresh object other than the one stored under its id is not written
    by the first loop. *)
Lemma merge_loop_source now fresh s f l :
  keyed_by_id (s_heap s) (s_existing s) ->
  PyDict.get (Feature.id (s_heap s f)) (s_existing s) = Some l ->
  f <> l ->
  s_heap (fold_left (merge_feature now) fresh s) f = s_heap s f.
Proof.
  revert s; induction fresh as [|g fresh IH]; intros s K G Hf; cbn [fold_left];
    [reflexivity |].
  assert (E : s_heap (merge_feature now s g) f = s_heap s f).
  { rewrite merge_feature_heap.
    destruct (PyDict.get (Feature.id (s_heap s g)) _) as [old|] eqn:G';
      [| reflexivity].
    destruct (Nat.eqb_spec f old) as [-> | _]; [| reflexivity].
    exfalso. apply Hf.
    pose proof K as [_ I]. apply get_some_in in G'.
    rewrite <- (I _ _ G') in G'.
    rewrite (keyed_by_id_get _ _ _ _ K G') in G. congruence. }
  rewrite IH.
  - exact E.
  - now apply merge_feature_keyed.
  - rewrite E. now apply merge_feature_get.
  - exact Hf.
Qed.

(** The scanned fields of a known feature are those of the last fresh
    feature of its id. *)
Lemma merge_loop_values now s k l pre f post :
  keyed_by_id (s_heap s) (s_existing s) ->
  PyDict.get k (s_existing s) = Some l ->
  Feature.id (s_heap s f) = k ->
  ~ In k (ids_of (s_heap s) post) ->
  f <> l ->
  let h1 := s_heap (fold_left (merge_feature now) (pre ++ f :: post) s) in
  Feature.tier (h1 l) = Feature.tier (s_heap s f)
  /\ Feature.summary (h1 l) = Feature.summary (s_heap s f)
  /\ Feature.detail (h1 l) = Feature.detail (s_heap s f).
Proof.
  intros K G Hid Hpost Hf. cbv zeta. rewrite fold_left_app. cbn [fold_left].
  set (s1 := fold_left (merge_feature now) pre s).
  assert (K1 : keyed_by_id (s_heap s1) (s_existing s1))
    by now apply merge_loop_keyed.
  assert (G1 : PyDict.get k (s_existing s1) = Some l)
    by now apply merge_loop_get.
  assert (E1 : s_heap s1 f = s_heap s f)
    by (apply (merge_loop_source now pre s f l); [exact K | now rewrite Hid | exact Hf]).
  set (s2 := merge_feature now s1 f).
  assert (Ids2 : forall x, Feature.id (s_heap s2 x) = Feature.id (s_heap s x)).
  { intros x. destruct (merge_feature_frame now s1 f x) as (A & _).
    destruct (merge_loop_frame now pre s x) as (B & _).
    unfold s2. now rewrite A. }
  rewrite merge_loop_other.
  - unfold s2. rewrite merge_feature_heap, E1, Hid, G1, Nat.eqb_refl.
    repeat split.
  - now apply merge_feature_keyed.
  - rewrite Ids2. unfold ids_of.
    rewrite (map_ext _ (fun f => Feature.id (s_heap s f)) Ids2).
    destruct K as [_ I]. rewrite (I k l) by now apply get_some_in.
    exact Hpost.
Qed.

(** *** [merge_scan] as its two loops *)

Lemma merge_scan_loops round1 h st fresh src now :
  exists h1 added cur,
    (forall k, k ∈ cur <-> In k (ids_of h fresh))
    /\ h1 = s_heap (fold_left (merge_feature now) fresh
                      (Scan h (features st) ∅ 0))
    /\ (forall l, Feature.same_unscanned (h l) (h1 l))
    /\ (forall k, In k (PyDict.keys added) -> In k (ids_of h fresh))
    /\ (forall k, In k (PyDict.keys added) -> PyDict.get k (features st) = None)
    /\ (forall k, In k (ids_of h fresh) ->
         In k (PyDict.keys (features st ++ added)))
    /\ fst (merge_scan round1 h st fresh src now)
       = (fst (fold_left (remove_absent cur) (features st ++ added) (h1, 0)),
          _recompute_stats round1
            (fst (fold_left (remove_absent cur) (features st ++ added) (h1, 0)))
            (mkState (version st) (created st) (Some now) (scan_count st + 1)
               (if negb (String.eqb src "") then Some src else source_file st)
               (features st ++ added) (components st) (stats st)))
    /\ snd (merge_scan round1 h st fresh src now)
       = Diff (Z.of_nat (length added))
           (snd (fold_left (remove_absent cur) (features st ++ added) (h1, 0)))
           (Z.of_nat (size cur)).
Proof.
  set (s0 := Scan h (features st) ∅ 0).
  destruct (merge_loop_existing now fresh s0) as (added & E1 & E2 & E3 & E4 & E5).
  cbv zeta in E1, E2, E4.
  exists (s_heap (fold_left (merge_feature now) fresh s0)), added,
         (s_current_ids (fold_left (merge_feature now) fresh s0)).
  split.
  { intros k. rewrite merge_loop_current_ids. simpl. split; [| now right].
    intros [H | H]; [now apply not_elem_of_empty in H | exact H]. }
  split; [reflexivity |].
  split; [intros l; apply (merge_loop_frame now fresh s0 l) |].
  split; [exact E3 |]. split; [exact E5 |].
  split; [intros k Hk; simpl in E1; rewrite <- E1; now apply E4 |].
  unfold merge_scan. fold s0. simpl in E1, E2. rewrite E1, E2.
  destruct (fold_left _ (features st ++ added) _) as [h' removed].
  split; reflexivity.
Qed.

Lemma not_in_ids_cases (k : string) (ids : list string) :
  In k ids \/ ~ In k ids.
Proof.
  destruct (existsb (String.eqb k) ids) eqn:E.
  - left. apply existsb_exists in E as [k' [Hk' E]].
    apply String.eqb_eq in E. now subst.
  - right. intros H.
    assert (existsb (String.eqb k) ids = true); [| congruence].
    apply existsb_exists. exists k. split; [exact H | apply String.eqb_refl].
Qed.

(** The second loop, run on the mapping after the first, counts the items
    of the old mapping: those added have their keys among the ids. *)
Lemma remove_loop_added cur ids (Hcur : forall k, k ∈ cur <-> In k ids)
    items added h r :
  (forall k, In k (PyDict.keys added) -> In k ids) ->
  fold_left (remove_absent cur) (items ++ added) (h, r)
  = fold_left (remove_absent cur) items (h, r).
Proof.
  intros H. rewrite fold_left_app.
  destruct (fold_left (remove_absent cur) items (h, r)) as [h1 r1].
  apply (remove_loop_present cur ids Hcur).
  intros [k l] Hi. apply H. now apply in_keys in Hi.
Qed.

(** C1. After [merge_scan], a feature of the state whose id is not among
    the fresh ids has its status changed to "removed_from_design" exactly
    when it was "open"; with any other status it keeps it. The count
    [removed] is the number of the feature objects so marked; when no
    object is stored under two ids, that is the number of the ids so
    marked, which are those of the features of the state whose status
    differs after the call. *)
Theorem merge_scan_removal (round1 : float -> float) (h : heap) (st : state)
    (fresh : list loc) (src now : string) :
  let h' := fst (fst (merge_scan round1 h st fresh src now)) in
  let d := snd (merge_scan round1 h st fresh src now) in
  let ids := ids_of h fresh in
  (forall k l, In (k, l) (features st) -> ~ In k ids ->
     ((Feature.status (h' l) = "removed_from_design"%string
       /\ Feature.status (h' l) <> Feature.status (h l))
      <-> Feature.status (h l) = "open"%string)
     /\ (Feature.status (h l) <> "open"%string ->
         Feature.status (h' l) = Feature.status (h l)))
  /\ removed d = Z.of_nat (size (absent_open_objects h ids (features st)))
  /\ (distinct_objects st ->
      removed d
      = Z.of_nat (length (List.filter (absent_open h ids) (features st)))
      /\ forall k l, In (k, l) (features st) ->
           (absent_open h ids (k, l) = true
            <-> Feature.status (h' l) <> Feature.status (h l))).
Proof.
  cbv zeta.
  destruct (merge_scan_loops round1 h st fresh src now)
    as (h1 & added & cur & Hcur & _ & F1 & A1 & _ & _ & E & Ed).
  rewrite E, Ed. simpl. clear E Ed.
  rewrite (remove_loop_added cur _ Hcur) by exact A1.
  assert (S1 : forall l, Feature.status (h1 l) = Feature.status (h l)).
  { intros l. now destruct (F1 l) as (_ & _ & _ & _ & _ & S & _). }
  assert (Keep : forall l, Feature.status (h l) <> "open"%string ->
    Feature.status (fst (fold_left (remove_absent cur) (features st) (h1, 0)) l)
    = Feature.status (h l)).
  { intros l Hl.
    pose proof (remove_loop_marked cur _ Hcur (features st) h1 0 l) as M.
    apply marked_not_open in M; [| now rewrite S1].
    now rewrite M. }
  assert (Mark : forall k l, In (k, l) (features st) -> ~ In k (ids_of h fresh) ->
    Feature.status (h l) = "open"%string ->
    Feature.status (fst (fold_left (remove_absent cur) (features st) (h1, 0)) l)
    = "removed_from_design"%string).
  { intros k l Hin Hk Ho.
    rewrite (remove_loop_visited cur _ Hcur (features st) h1 0 k l Hin Hk);
      [reflexivity | now rewrite S1]. }
  split.
  - intros k l Hin Hk. split; [| apply Keep].
    split.
    + intros [R C].
      destruct (String.eqb_spec (Feature.status (h l)) "open") as [Ho | Hn];
        [exact Ho |].
      now rewrite (Keep l Hn) in C.
    + intros Ho. rewrite (Mark k l Hin Hk Ho), Ho. split; [reflexivity | discriminate].
  - split.
    { rewrite (remove_loop_count_objects cur _ Hcur), Z.add_0_l.
      now rewrite (absent_open_objects_ext _ h h1). }
    intros D. split.
    + rewrite (remove_loop_count cur _ Hcur) by exact D.
      rewrite Z.add_0_l. f_equal. f_equal.
      apply List.filter_ext. intros item.
      apply absent_open_ext. apply S1.
    + intros k l Hin. rewrite absent_open_true. simpl. split.
      * intros [Hk Ho]. rewrite (Mark k l Hin Hk Ho), Ho. discriminate.
      * intros C.
        destruct (String.eqb_spec (Feature.status (h l)) "open") as [Ho | Hn];
          [| now rewrite (Keep l Hn) in C].
        split; [| exact Ho].
        intros Hk. apply C.
        rewrite (remove_loop_untouched cur _ Hcur); [apply S1 |].
        intros k' Hin'. now rewrite (values_unique _ _ _ _ D Hin' Hin).
Qed.

Lemma marked_fields f g :
  Feature.marked f g ->
  Feature.id g = Feature.id f /\ Feature.detector g = Feature.detector f
  /\ Feature.screen_id g = Feature.screen_id f
  /\ Feature.name g = Feature.name f /\ Feature.tier g = Feature.tier f
  /\ Feature.category g = Feature.category f
  /\ Feature.summary g = Feature.summary f
  /\ Feature.detail g = Feature.detail f
  /\ Feature.first_seen g = Feature.first_seen f
  /\ Feature.last_seen g = Feature.last_seen f.
Proof. intros [-> | [_ ->]]; repeat split. Qed.

(** C2. A feature of the state whose id is among the fresh ids stays the
    same object under the same key; its id, detector, screen, name,
    category and first-seen time are not written, and its last-seen time
    is that of the scan. Its status stays when it is not "open" (so
    "implemented" stays), and in any case when no object is stored under
    two ids. In a state that stores every feature under its id, its tier,
    summary and detail are those of the last fresh feature of its id (when
    that one is another object). *)
Theorem merge_scan_update_in_place (round1 : float -> float) (h : heap)
    (st : state) (fresh : list loc) (src now : string) (k : string) (l : loc) :
  PyDict.get k (features st) = Some l ->
  In k (ids_of h fresh) ->
  let h' := fst (fst (merge_scan round1 h st fresh src now)) in
  let st' := snd (fst (merge_scan round1 h st fresh src now)) in
  PyDict.get k (features st') = Some l
  /\ Feature.id (h' l) = Feature.id (h l)
  /\ Feature.detector (h' l) = Feature.detector (h l)
  /\ Feature.screen_id (h' l) = Feature.screen_id (h l)
  /\ Feature.name (h' l) = Feature.name (h l)
  /\ Feature.category (h' l) = Feature.category (h l)
  /\ Feature.first_seen (h' l) = Feature.first_seen (h l)
  /\ Feature.last_seen (h' l) = now
  /\ (Feature.status (h l) <> "open"%string ->
      Feature.status (h' l) = Feature.status (h l))
  /\ (Feature.status (h l) = "implemented"%string ->
      Feature.status (h' l) = "implemented"%string)
  /\ (distinct_objects st -> Feature.status (h' l) = Feature.status (h l))
  /\ (state_ok h st ->
      forall pre f post,
        fresh = pre ++ f :: post -> Feature.id (h f) = k ->
        ~ In k (ids_of h post) -> f <> l ->
        Feature.tier (h' l) = Feature.tier (h f)
        /\ Feature.summary (h' l) = Feature.summary (h f)
        /\ Feature.detail (h' l) = Feature.detail (h f)).
Proof.
  intros G Hk. cbv zeta.
  destruct (merge_scan_loops round1 h st fresh src now)
    as (h1 & added & cur & Hcur & Eh1 & F1 & A1 & _ & _ & E & _).
  rewrite E. simpl. clear E.
  rewrite (remove_loop_added cur _ Hcur) by exact A1.
  pose proof (remove_loop_marked cur _ Hcur (features st) h1 0 l) as M.
  destruct (marked_fields _ _ M)
    as (M1 & M2 & M3 & M4 & M8 & M5 & M9 & M10 & M6 & M7).
  destruct (F1 l) as (I1 & I2 & I3 & I4 & I5 & I6 & I7).
  assert (Keep : Feature.status (h l) <> "open"%string ->
    Feature.status (fst (fold_left (remove_absent cur) (features st) (h1, 0)) l)
    = Feature.status (h l)).
  { intros Hn. apply marked_not_open in M; [| now rewrite I6].
    now rewrite M. }
  split; [now rewrite get_app, G |].
  split; [congruence |]. split; [congruence |]. split; [congruence |].
  split; [congruence |]. split; [congruence |]. split; [congruence |].
  split.
  { rewrite M7, Eh1. now apply (merge_loop_seen now fresh _ k l). }
  split; [exact Keep |].
  split.
  { intros Hi. rewrite Keep; [exact Hi | rewrite Hi; discriminate]. }
  split.
  { intros D. rewrite (remove_loop_untouched cur _ Hcur); [exact I6 |].
    intros k' Hin'. apply get_some_in in G.
    now rewrite (values_unique _ _ _ _ D Hin' G). }
  intros K pre f post -> Hid Hpost Hf.
  rewrite M8, M9, M10, Eh1.
  now apply (merge_loop_values now (Scan h (features st) ∅ 0) k l pre f post).
Qed.

(** After [merge_scan] every fresh id is a key of the mapping, and no
    object under another key is open. *)
Lemma merge_scan_settled round1 h st fresh src now :
  let h' := fst (fst (merge_scan round1 h st fresh src now)) in
  let st' := snd (fst (merge_scan round1 h st fresh src now)) in
  (forall k, In k (ids_of h fresh) -> In k (PyDict.keys (features st')))
  /\ (forall k l, In (k, l) (features st') -> ~ In k (ids_of h fresh) ->
       Feature.status (h' l) <> "open"%string)
  /\ (forall l, Feature.id (h' l) = Feature.id (h l)).
Proof.
  cbv zeta.
  destruct (merge_scan_loops round1 h st fresh src now)
    as (h1 & added & cur & Hcur & _ & F1 & _ & _ & A3 & E & _).
  rewrite E. simpl. clear E. split; [exact A3 |]. split.
  - intros k l Hin Hk.
    pose proof (remove_loop_marked cur _ Hcur (features st ++ added) h1 0 l) as M.
    destruct (String.eqb_spec (Feature.status (h1 l)) "open") as [Ho | Hn].
    + rewrite (remove_loop_visited cur _ Hcur _ h1 0 k l Hin Hk Ho). discriminate.
    + apply marked_not_open in M; [| exact Hn]. now rewrite M.
  - intros l.
    pose proof (remove_loop_marked cur _ Hcur (features st ++ added) h1 0 l) as M.
    destruct (marked_fields _ _ M) as (M1 & _).
    destruct (F1 l) as (I1 & _). congruence.
Qed.

(** C4. A second [merge_scan] right after the first, with the same list
    of fresh features or with any list of features of the same ids, adds
    nothing ([new] is 0, the mapping is the same) and leaves the status
    of every feature object as the first run left it. *)
Theorem merge_scan_twice (round1 : float -> float) (h : heap) (st : state)
    (fresh : list loc) (src now : string) (fresh2 : list loc)
    (src2 now2 : string) :
  let r1 := merge_scan round1 h st fresh src now in
  let h1 := fst (fst r1) in
  let st1 := snd (fst r1) in
  let r2 := merge_scan round1 h1 st1 fresh2 src2 now2 in
  (fresh2 = fresh
   \/ (forall k, In k (ids_of h1 fresh2) <-> In k (ids_of h fresh))) ->
  new (snd r2) = 0
  /\ features (snd (fst r2)) = features st1
  /\ (forall l, Feature.status (fst (fst r2) l) = Feature.status (h1 l)).
Proof.
  cbv zeta. intros Hsame.
  destruct (merge_scan_settled round1 h st fresh src now) as (S1 & S2 & S3).
  cbv zeta in S1, S2, S3.
  set (h1 := fst (fst (merge_scan round1 h st fresh src now))) in *.
  set (st1 := snd (fst (merge_scan round1 h st fresh src now))) in *.
  assert (Hids : forall k, In k (ids_of h1 fresh2) <-> In k (ids_of h fresh)).
  { destruct Hsame as [-> | H]; [| exact H].
    intros k. unfold ids_of.
    rewrite (map_ext (fun f => Feature.id (h1 f)) (fun f => Feature.id (h f)));
      [tauto | exact S3]. }
  clear Hsame.
  destruct (merge_scan_loops round1 h1 st1 fresh2 src2 now2)
    as (h2 & added & cur & Hcur & _ & F2 & A1 & A2 & _ & E & Ed).
  assert (Hadded : added = []).
  { destruct added as [|[k l] added]; [reflexivity | exfalso].
    assert (Hk : In k (PyDict.keys ((k, l) :: added))) by now left.
    pose proof (A2 k Hk) as G. apply get_none_not_in in G.
    apply G, S1, Hids, A1, Hk. }
  subst added. rewrite app_nil_r in E, Ed. rewrite E, Ed. simpl.
  assert (S2' : forall l, Feature.status (h2 l) = Feature.status (h1 l)).
  { intros l. now destruct (F2 l) as (_ & _ & _ & _ & _ & S & _). }
  rewrite (remove_loop_idle cur _ Hcur).
  - simpl. split; [reflexivity | split; [reflexivity | exact S2']].
  - intros [k l] Hin.
    destruct (not_in_ids_cases k (ids_of h1 fresh2)) as [Hk | Hk].
    + now apply absent_open_in_ids.
    + unfold absent_open. simpl. rewrite S2'.
      destruct (String.eqb_spec (Feature.status (h1 l)) "open") as [Ho | _];
        [| apply andb_false_r].
      exfalso. apply (S2 k l Hin); [| exact Ho].
      intros Hk'. apply Hk, Hids, Hk'.
Qed.

(** *** [resolve_feature] *)

Lemma resolve_item_step pattern status h res item :
  resolve_item pattern status (h, res) item
  = if resolvable h pattern item
    then (upd (snd item) (Feature.set_status status) h, res ++ [fst item])
    else (h, res).
Proof.
  destruct item as [k l]. unfold resolve_item, resolvable. simpl.
  destruct (String.eqb (Feature.status (h l)) "open"); reflexivity.
Qed.

(** What makes an item resolvable, in words: its object is open, and the
    pattern is its key, or the screen of its object, or a part of its
    key. *)
Lemma resolvable_iff h pattern k l :
  resolvable h pattern (k, l) = true <->
  Feature.status (h l) = "open"%string
  /\ (k = pattern \/ Feature.screen_id (h l) = pattern
      \/ exists a b, k = (a +:+ pattern +:+ b)%string).
Proof.
  unfold resolvable. simpl.
  rewrite andb_true_iff, !orb_true_iff, !String.eqb_eq, PyStrFacts.str_in_spec.
  tauto.
Qed.

Lemma resolvable_ext h h' pattern item :
  h' (snd item) = h (snd item) ->
  resolvable h' pattern item = resolvable h pattern item.
Proof. unfold resolvable. now intros ->. Qed.

(** An object that is not open is not written. *)
Lemma resolve_loop_not_open pattern status items h res l :
  Feature.status (h l) <> "open"%string ->
  fst (fold_left (resolve_item pattern status) items (h, res)) l = h l.
Proof.
  revert h res; induction items as [|item items IH]; intros h res Hn;
    cbn [fold_left]; [reflexivity |].
  rewrite resolve_item_step.
  destruct (resolvable h pattern item) eqn:E; [| now apply IH].
  assert (Hl : l <> snd item).
  { intros ->. destruct item as [k l']. apply resolvable_iff in E as [E _].
    contradiction. }
  rewrite IH by now rewrite upd_ne.
  now apply upd_ne.
Qed.

Lemma resolved_as_trans s f g k :
  Feature.resolved_as s f g -> Feature.resolved_as s g k ->
  Feature.resolved_as s f k.
Proof.
  intros [-> | [Hf ->]] [-> | [Hg ->]]; try (now left); now right.
Qed.

Lemma resolve_item_resolved pattern status h res item l :
  Feature.resolved_as status (h l)
    (fst (resolve_item pattern status (h, res) item) l).
Proof.
  rewrite resolve_item_step.
  destruct (resolvable h pattern item) eqn:E; simpl; [| now left].
  unfold upd. destruct (Nat.eqb_spec l (snd item)) as [-> | _]; [| now left].
  right. split; [| reflexivity].
  destruct item as [k l']. now apply resolvable_iff in E as [E _].
Qed.

(** Every object is left as it was, or was open and has the new status. *)
Lemma resolve_loop_resolved pattern status items h res l :
  Feature.resolved_as status (h l)
    (fst (fold_left (resolve_item pattern status) items (h, res)) l).
Proof.
  revert h res; induction items as [|item items IH]; intros h res;
    cbn [fold_left]; [now left |].
  pose proof (resolve_item_resolved pattern status h res item l) as M.
  destruct (resolve_item pattern status (h, res) item) as [h1 res1].
  eapply resolved_as_trans; [exact M | apply IH].
Qed.

(** The object of a resolvable item has the new status. *)
Lemma resolve_loop_hit pattern status items h res k l :
  In (k, l) items -> resolvable h pattern (k, l) = true ->
  fst (fold_left (resolve_item pattern status) items (h, res)) l
  = Feature.set_status status (h l).
Proof.
  revert h res; induction items as [|item items IH]; intros h res;
    cbn [fold_left]; [simpl; tauto |].
  intros [-> | Hin] Hr.
  - rewrite resolve_item_step, Hr. simpl snd.
    pose proof (resolve_loop_resolved pattern status items
      (upd l (Feature.set_status status) h) (res ++ [(k, l).1]) l) as M.
    rewrite upd_eq in M.
    destruct M as [M | [_ M]]; [exact M | exact M].
  - pose proof (resolve_item_resolved pattern status h res item l) as M.
    destruct (resolve_item pattern status (h, res) item) as [h1 res1].
    simpl in M. destruct M as [M | [_ M]].
    + rewrite <- M. apply IH; [exact Hin |].
      rewrite (resolvable_ext h h1); [exact Hr | exact M].
    + pose proof (resolve_loop_resolved pattern status items h1 res1 l) as M'.
      rewrite M in M'.
      destruct M' as [M' | [_ M']]; [exact M' | exact M'].
Qed.

(** An object with no resolvable item is not written. *)
Lemma resolve_loop_miss pattern status items h res l :
  (forall k, In (k, l) items -> resolvable h pattern (k, l) = false) ->
  fst (fold_left (resolve_item pattern status) items (h, res)) l = h l.
Proof.
  revert h res; induction items as [|item items IH]; intros h res H;
    cbn [fold_left]; [reflexivity |].
  rewrite resolve_item_step.
  destruct (resolvable h pattern item) eqn:E.
  - assert (Hne : l <> snd item).
    { intros ->. destruct item as [k0 l0]. simpl in *.
      rewrite H in E; [discriminate | now left]. }
    rewrite IH; [now apply upd_ne |].
    intros k Hin. rewrite (resolvable_ext h); [| now apply upd_ne].
    apply H. now right.
  - apply IH. intros k Hin. apply H. now right.
Qed.

(** With no resolvable item nothing is written and nothing is listed. *)
Lemma resolve_loop_idle pattern status items h res :
  (forall item, In item items -> resolvable h pattern item = false) ->
  fold_left (resolve_item pattern status) items (h, res) = (h, res).
Proof.
  revert h res; induction items as [|item items IH]; intros h res H;
    cbn [fold_left]; [reflexivity |].
  rewrite resolve_item_step, H by now left.
  apply IH. intros i Hi. apply H. now right.
Qed.

(** With distinct objects the list holds the keys of the items that were
    resolvable at the start, in their order. *)
Lemma resolve_loop_list pattern status items h res :
  NoDup (PyDict.values items) ->
  snd (fold_left (resolve_item pattern status) items (h, res))
  = res ++ PyDict.keys (List.filter (resolvable h pattern) items).
Proof.
  revert h res; induction items as [|item items IH]; intros h res D;
    cbn [fold_left].
  - simpl. now rewrite app_nil_r.
  - simpl in D. apply NoDup_cons in D as [Hl D]. rewrite resolve_item_step.
    cbn [List.filter].
    destruct (resolvable h pattern item) eqn:E.
    + rewrite (IH _ _ D). simpl. rewrite <- app_assoc. simpl. f_equal. f_equal.
      f_equal. apply List.filter_ext_in. intros i Hi. apply resolvable_ext.
      apply upd_ne. intros Heq. apply Hl, list_elem_of_In. rewrite <- Heq.
      now apply in_map.
    + apply (IH _ _ D).
Qed.

(** C3. [resolve_feature] sets the status of exactly the features that
    are open and whose id is the pattern, or whose screen is the pattern,
    or whose id contains the pattern; every other feature, and every
    feature that is not open, is left as it is; when none matches, nothing
    is written and the returned list is empty. When no object is stored
    under two ids, the returned list holds the ids of the features so set,
    in the order of the mapping, and for a new status other than "open"
    these are the features whose status differs after the call. *)
Theorem resolve_feature_matching (round1 : float -> float) (h : heap)
    (st : state) (pattern status : string) :
  let r := resolve_feature round1 h st pattern status in
  let h' := fst (fst r) in
  let resolved := snd r in
  features (snd (fst r)) = features st
  /\ (forall k l, resolvable h pattern (k, l) = true <->
       Feature.status (h l) = "open"%string
       /\ (k = pattern \/ Feature.screen_id (h l) = pattern
           \/ exists a b, k = (a +:+ pattern +:+ b)%string))
  /\ (forall k l, In (k, l) (features st) ->
       resolvable h pattern (k, l) = true ->
       h' l = Feature.set_status status (h l))
  /\ (forall l,
       (forall k, In (k, l) (features st) -> resolvable h pattern (k, l) = false) ->
       h' l = h l)
  /\ (forall l, Feature.status (h l) <> "open"%string -> h' l = h l)
  /\ ((forall item, In item (features st) -> resolvable h pattern item = false) ->
      resolved = [] /\ forall l, h' l = h l)
  /\ (distinct_objects st ->
      resolved = PyDict.keys (List.filter (resolvable h pattern) (features st))
      /\ (forall k l, In (k, l) (features st) ->
           resolvable h pattern (k, l) = false -> h' l = h l)
      /\ (status <> "open"%string ->
          forall k l, In (k, l) (features st) ->
            (resolvable h pattern (k, l) = true
             <-> Feature.status (h' l) <> Feature.status (h l)))).
Proof.
  cbv zeta. unfold resolve_feature.
  pose proof (resolve_loop_hit pattern status (features st) h []) as R2.
  pose proof (resolve_loop_miss pattern status (features st) h []) as R3.
  pose proof (fun l => resolve_loop_not_open pattern status (features st) h [] l)
    as R4.
  pose proof (resolve_loop_idle pattern status (features st) h []) as R6.
  pose proof (resolve_loop_list pattern status (features st) h []) as R1.
  destruct (fold_left (resolve_item pattern status) (features st) (h, []))
    as [h' resolved].
  simpl in *.
  split; [reflexivity |].
  split; [intros k l; apply resolvable_iff |].
  split; [exact R2 |]. split; [exact R3 |]. split; [exact R4 |].
  split.
  - intros Hnone. specialize (R6 Hnone). injection R6 as -> ->. now split.
  - intros D.
    assert (R5 : forall k l, In (k, l) (features st) ->
      resolvable h pattern (k, l) = false -> h' l = h l).
    { intros k l Hin Hr. apply R3. intros k' Hin'.
      now rewrite (values_unique _ _ _ _ D Hin' Hin). }
    split; [exact (R1 D) |]. split; [exact R5 |].
    intros Hs k l Hin. split.
    + intros Hr. rewrite (R2 k l Hin Hr). simpl.
      apply resolvable_iff in Hr as [-> _]. exact Hs.
    + intros C. destruct (resolvable h pattern (k, l)) eqn:E; [reflexivity |].
      exfalso. apply C. now rewrite (R5 k l Hin E).
Qed.

(** *** The states the program reaches *)

Lemma resolve_loop_ids pattern status items h res l :
  Feature.id (fst (fold_left (resolve_item pattern status) items (h, res)) l)
  = Feature.id (h l).
Proof.
  revert h res; induction items as [|item items IH]; intros h res;
    cbn [fold_left]; [reflexivity |].
  rewrite resolve_item_step.
  destruct (resolvable h pattern item); [| apply IH].
  rewrite IH. unfold upd. now destruct (Nat.eqb l (snd item)).
Qed.

(** [merge_scan] and [resolve_feature] keep every feature under its id,
    so that from the empty state on no object is stored under two ids. *)
Lemma merge_scan_ok round1 h st fresh src now :
  state_ok h st ->
  state_ok (fst (fst (merge_scan round1 h st fresh src now)))
    (snd (fst (merge_scan round1 h st fresh src now))).
Proof.
  intros K. unfold merge_scan.
  set (s1 := fold_left (merge_feature now) fresh (Scan h (features st) ∅ 0)).
  assert (K1 : keyed_by_id (s_heap s1) (s_existing s1))
    by (apply merge_loop_keyed; exact K).
  assert (Hcur : forall k, k ∈ s_current_ids s1 <-> In k (ids_of h fresh)).
  { intros k. unfold s1. rewrite merge_loop_current_ids. simpl.
    split; [| now right].
    intros [H | H]; [now apply not_elem_of_empty in H | exact H]. }
  pose proof (fun l => remove_loop_marked _ _ Hcur (s_existing s1) (s_heap s1) 0 l)
    as M.
  destruct (fold_left (remove_absent (s_current_ids s1)) (s_existing s1)
              (s_heap s1, 0)) as [h' removed].
  simpl in *. destruct K1 as [D I]. split; [exact D |].
  intros k l Hin. destruct (marked_fields _ _ (M l)) as (-> & _).
  now apply I.
Qed.

Lemma resolve_feature_ok round1 h st pattern status :
  state_ok h st ->
  state_ok (fst (fst (resolve_feature round1 h st pattern status)))
    (snd (fst (resolve_feature round1 h st pattern status))).
Proof.
  intros [D I]. unfold resolve_feature.
  pose proof (fun l => resolve_loop_ids pattern status (features st) h [] l) as Ids.
  destruct (fold_left (resolve_item pattern status) (features st) (h, []))
    as [h' resolved].
  simpl in *. split; [exact D |].
  intros k l Hin. rewrite Ids. now apply I.
Qed.

(** Every state the program comes to stores each feature under its id,
    and so no object under two ids. *)
Lemma reachable_ok round1 h st : reachable round1 h st -> state_ok h st.
Proof.
  induction 1 as [h now | h h' st _ IH Hsame | h st fresh src now _ IH
                 | h st pattern status _ IH].
  - apply empty_state_ok.
  - destruct IH as [D I]. split; [exact D |].
    intros k l Hin. rewrite Hsame; [now apply I |].
    now apply (in_map snd) in Hin.
  - now apply merge_scan_ok.
  - now apply resolve_feature_ok.
Qed.

Lemma reachable_distinct round1 h st :
  reachable round1 h st -> distinct_objects st.
Proof. intros H. eapply state_ok_distinct, reachable_ok, H. Qed.

(** *** The sample state *)
Import Samples.

Lemma state0_ok : state_ok heap0 state0.
Proof.
  split.
  - simpl. repeat (apply NoDup_cons; split; [| ]); try apply NoDup_nil_2;
      rewrite ?list_elem_of_In; simpl; intuition discriminate.
  - intros k l [[= <- <-] | [[= <- <-] | [[= <- <-] | []]]]; reflexivity.
Defined.

Lemma state0_distinct : distinct_objects state0.
Proof. exact (state_ok_distinct _ _ state0_ok). Defined.

Example sample_scan :
  let r := merge_scan Scoring.py_round1 heap0 state0 fresh1 "design.json" t1 in
  snd r = Diff 1 1 3
  /\ features (snd (fst r))
     = [("screen::s2::Settings", 0); ("screen::s1::Food Log", 1);
        ("form::s1", 2); ("data_display::s1::chart", 5)]%string%nat
  /\ map (fun l => Feature.status (fst (fst r) l)) [0; 1; 2; 5]%nat
     = ["implemented"; "open"; "removed_from_design"; "open"]%string.
Proof. repeat split. Qed.

(** The sample scan: the form, open and gone from the design, is marked,
    and it is the one feature counted. *)
Lemma merge_scan_removal_witness :
  let r := merge_scan Scoring.py_round1 heap0 state0 fresh1 "design.json" t1 in
  distinct_objects state0
  /\ In ("form::s1"%string, 2%nat) (features state0)
  /\ ~ In "form::s1"%string (ids_of heap0 fresh1)
  /\ Feature.status (fst (fst r) 2%nat) = "removed_from_design"%string
  /\ removed (snd r) = 1.
Proof.
  cbv zeta.
  assert (D : distinct_objects state0) by exact state0_distinct.
  assert (Hin : In ("form::s1"%string, 2%nat) (features state0))
    by (simpl; tauto).
  assert (Hn : ~ In "form::s1"%string (ids_of heap0 fresh1))
    by (simpl; intuition discriminate).
  destruct (merge_scan_removal Scoring.py_round1 heap0 state0 fresh1
              "design.json" t1) as (P1 & _ & P2).
  destruct (P1 _ _ Hin Hn) as [[_ Q] _].
  destruct (P2 D) as [C _].
  split; [exact D |]. split; [exact Hin |]. split; [exact Hn |].
  split; [apply Q; reflexivity | rewrite C; reflexivity].
Defined.

(** The sample scan: the settings screen, implemented and scanned again,
    stays implemented, keeps its first-seen time and takes the time and
    the tier of the scan. *)
Lemma merge_scan_update_in_place_witness :
  let r := merge_scan Scoring.py_round1 heap0 state0 fresh1 "design.json" t1 in
  PyDict.get "screen::s2::Settings" (features state0) = Some 0%nat
  /\ In "screen::s2::Settings"%string (ids_of heap0 fresh1)
  /\ Feature.status (fst (fst r) 0%nat) = "implemented"%string
  /\ Feature.first_seen (fst (fst r) 0%nat) = t0
  /\ Feature.last_seen (fst (fst r) 0%nat) = t1
  /\ Feature.tier (fst (fst r) 0%nat) = 2.
Proof.
  cbv zeta.
  assert (G : PyDict.get "screen::s2::Settings" (features state0) = Some 0%nat)
    by reflexivity.
  assert (Hk : In "screen::s2::Settings"%string (ids_of heap0 fresh1))
    by (simpl; tauto).
  destruct (merge_scan_update_in_place Scoring.py_round1 heap0 state0 fresh1
              "design.json" t1 _ _ G Hk)
    as (_ & _ & _ & _ & _ & _ & F & L & _ & S & _ & V).
  destruct (V state0_ok [] 3%nat [4; 5]%nat) as (T & _);
    [reflexivity | reflexivity | simpl; intuition discriminate | discriminate |].
  split; [exact G |]. split; [exact Hk |].
  split; [apply S; reflexivity |]. split; [rewrite F; reflexivity |].
  split; [exact L | rewrite T; reflexivity].
Defined.

(** Resolving the pattern "s1" in the sample state: the two open features
    of the screen are deferred, the implemented one is left. *)
Lemma resolve_feature_matching_witness :
  let r := resolve_feature Scoring.py_round1 heap0 state0 "s1" "deferred" in
  distinct_objects state0
  /\ snd r = ["screen::s1::Food Log"; "form::s1"]%string
  /\ Feature.status (fst (fst r) 1%nat) = "deferred"%string
  /\ fst (fst r) 0%nat = heap0 0%nat.
Proof.
  cbv zeta.
  assert (D : distinct_objects state0) by exact state0_distinct.
  destruct (resolve_feature_matching Scoring.py_round1 heap0 state0
              "s1" "deferred") as (_ & _ & S & _ & N & _ & L).
  destruct (L D) as (R & _).
  split; [exact D |]. split; [rewrite R; reflexivity |].
  split.
  - rewrite (S "screen::s1::Food Log"%string 1%nat); [reflexivity | | reflexivity].
    simpl; tauto.
  - apply N. discriminate.
Defined.

(** The sample scan run twice: nothing is new the second time, and the
    form stays marked. *)
Lemma merge_scan_twice_witness :
  let r1 := merge_scan Scoring.py_round1 heap0 state0 fresh1 "design.json" t1 in
  let r2 := merge_scan Scoring.py_round1 (fst (fst r1)) (snd (fst r1)) fresh1
              "design.json" t1 in
  (fresh1 = fresh1
   \/ (forall k, In k (ids_of (fst (fst r1)) fresh1) <-> In k (ids_of heap0 fresh1)))
  /\ new (snd r2) = 0
  /\ Feature.status (fst (fst r2) 2%nat) = "removed_from_design"%string.
Proof.
  cbv zeta.
  destruct (merge_scan_twice Scoring.py_round1 heap0 state0 fresh1
              "design.json" t1 fresh1 "design.json" t1 (or_introl eq_refl))
    as (N & _ & S).
  split; [now left |]. split; [exact N |]. rewrite S. reflexivity.
Defined.

End StateFacts.

(** ** More on [merge_scan], [resolve_feature] and [make_feature] *)
Module ScanFacts.
Import State PyDictFacts StateFacts Samples.

Lemma keys_app {V} (a b : list (string * V)) :
  PyDict.keys (a ++ b) = PyDict.keys a ++ PyDict.keys b.
Proof. unfold PyDict.keys. apply map_app. Qed.

(** The equation of [merge_scan] with its two loops named. *)
Lemma merge_scan_unfold round1 h st fresh src now :
  let s := fold_left (merge_feature now) fresh (Scan h (features st) ∅ 0) in
  let r := fold_left (remove_absent (s_current_ids s)) (s_existing s)
             (s_heap s, 0) in
  merge_scan round1 h st fresh src now
  = (fst r,
     _recompute_stats round1 (fst r)
       (mkState (version st) (created st) (Some now) (scan_count st + 1)
          (if negb (String.eqb src "") then Some src else source_file st)
          (s_existing s) (components st) (stats st)),
     Diff (s_new_count s) (snd r) (Z.of_nat (size (s_current_ids s)))).
Proof.
  cbv zeta. unfold merge_scan.
  destruct (fold_left (remove_absent _) _ _) as [h2 r2]. reflexivity.
Qed.

(** What the first loop adds to the mapping. *)
Lemma merge_loop_added now fresh s :
  let s' := fold_left (merge_feature now) fresh s in
  exists added,
    s_existing s' = s_existing s ++ added
    /\ s_new_count s' = s_new_count s + Z.of_nat (length added)
    /\ NoDup (PyDict.keys added)
    /\ (forall k, In k (PyDict.keys added) <->
         In k (ids_of (s_heap s) fresh) /\ PyDict.get k (s_existing s) = None)
    /\ (forall k l, In (k, l) added ->
         In l fresh /\ Feature.id (s_heap s l) = k).
Proof.
  revert s; induction fresh as [|f fresh IH]; intros s.
  - exists []. simpl. rewrite app_nil_r.
    repeat split; try tauto; try lia. constructor.
  - simpl fold_left. cbv zeta.
    destruct (IH (merge_feature now s f)) as (added & E1 & E2 & E3 & E4 & E5).
    pose proof (merge_loop_ids now [f] s fresh) as Ei. simpl in Ei.
    assert (Hid : forall l, Feature.id (s_heap (merge_feature now s f) l)
                            = Feature.id (s_heap s l)).
    { intros l. pose proof (merge_loop_ids now [f] s [l]) as Hl.
      simpl in Hl. now injection Hl. }
    simpl ids_of.
    pose proof (merge_feature_existing now s f) as M. cbv zeta in M.
    set (s1 := merge_feature now s f) in *.
    set (fid := Feature.id (s_heap s f)) in *.
    destruct (PyDict.get fid (s_existing s)) as [old|] eqn:G;
      destruct M as [M1 M2]; rewrite M1 in E1; rewrite M2 in E2.
    + exists added. split; [exact E1 |]. split; [exact E2 |].
      split; [exact E3 |]. split.
      * intros k. rewrite E4, Ei, M1. split.
        -- intros [A B]. split; [right; exact A | exact B].
        -- intros [[<- | A] B]; [congruence | tauto].
      * intros k l Hkl. destruct (E5 k l Hkl) as [A B].
        split; [right; exact A | now rewrite <- Hid].
    + rewrite <- app_assoc in E1.
      assert (Hfid : ~ In fid (PyDict.keys added)).
      { intros Hk. apply E4 in Hk. destruct Hk as [_ Hk].
        rewrite M1, get_app, G in Hk. simpl in Hk.
        rewrite String.eqb_refl in Hk. discriminate. }
      exists ((fid, f) :: added). simpl.
      split; [exact E1 |]. split; [rewrite E2; lia |].
      split; [apply NoDup_cons; split; [rewrite list_elem_of_In; exact Hfid | exact E3] |]. split.
      * intros k. rewrite E4, Ei, M1, get_app. split.
        -- intros [<- | [A B]]; [split; [now left | exact G] |].
           split; [now right |]. now destruct (PyDict.get k (s_existing s)).
        -- intros [[Hk | A] B]; [now left |].
           destruct (String.eqb_spec k fid) as [-> | Hne]; [now left |].
           right. split; [exact A |]. rewrite B. simpl.
           destruct (String.eqb_spec fid k); [congruence | reflexivity].
      * intros k l [Hkl | Hkl].
        -- injection Hkl as <- <-. split; [now left | reflexivity].
        -- destruct (E5 k l Hkl) as [A B].
           split; [now right | now rewrite <- Hid].
Qed.


Lemma current_ids_spec now fresh h existing k :
  k ∈ s_current_ids (fold_left (merge_feature now) fresh (Scan h existing ∅ 0))
  <-> In k (ids_of h fresh).
Proof.
  rewrite merge_loop_current_ids. simpl. split; [| now right].
  intros [H | H]; [now apply not_elem_of_empty in H | exact H].
Qed.

(** [merge_scan] by its parts: the second loop does nothing on the items
    the first loop added. *)
Lemma merge_scan_parts round1 h st fresh src now :
  let s1 := fold_left (merge_feature now) fresh (Scan h (features st) ∅ 0) in
  let cur := s_current_ids s1 in
  let r := fold_left (remove_absent cur) (features st) (s_heap s1, 0) in
  exists added,
    NoDup (PyDict.keys added)
    /\ (forall k, In k (PyDict.keys added) <->
         In k (ids_of h fresh) /\ PyDict.get k (features st) = None)
    /\ (forall k l, In (k, l) added -> In l fresh /\ Feature.id (h l) = k)
    /\ merge_scan round1 h st fresh src now
       = (fst r,
          _recompute_stats round1 (fst r)
            (mkState (version st) (created st) (Some now) (scan_count st + 1)
               (if negb (String.eqb src "") then Some src else source_file st)
               (features st ++ added) (components st) (stats st)),
          Diff (Z.of_nat (length added)) (snd r) (Z.of_nat (size cur))).
Proof.
  cbv zeta. rewrite merge_scan_unfold. cbv zeta.
  set (s0 := Scan h (features st) ∅ 0).
  destruct (merge_loop_added now fresh s0) as (added & E1 & E2 & E3 & E4 & E5).
  cbv zeta in E1, E2. simpl in E1, E2, E4, E5.
  exists added. split; [exact E3 |]. split; [exact E4 |]. split; [exact E5 |].
  rewrite E1, E2.
  rewrite (remove_loop_added _ (ids_of h fresh)
             (fun k => current_ids_spec now fresh h (features st) k)).
  - reflexivity.
  - intros k Hk. now apply E4 in Hk.
Qed.

(** X1. [merge_scan] never deletes or reorders a feature: the mapping it
    leaves is the mapping it was given followed by one entry for each
    fresh id that was not a key, each holding a fresh object with that id;
    the count [new] is the number of these entries. *)
Theorem merge_scan_only_appends (round1 : float -> float) (h : heap)
    (st : state) (fresh : list loc) (src now : string) :
  let r := merge_scan round1 h st fresh src now in
  exists added,
    features (snd (fst r)) = features st ++ added
    /\ NoDup (PyDict.keys added)
    /\ (forall k, In k (PyDict.keys added) <->
         In k (ids_of h fresh) /\ ~ In k (PyDict.keys (features st)))
    /\ (forall k l, In (k, l) added -> In l fresh /\ Feature.id (h l) = k)
    /\ new (snd r) = Z.of_nat (length added).
Proof.
  cbv zeta.
  destruct (merge_scan_parts round1 h st fresh src now)
    as (added & E1 & E2 & E3 & E4).
  cbv zeta in E4. rewrite E4. exists added. simpl.
  split; [reflexivity |]. split; [exact E1 |].
  split; [| split; [exact E3 | reflexivity]].
  intros k. rewrite E2, get_none_not_in. reflexivity.
Qed.

Lemma remove_dups_length_le {A} `{EqDecision A} (l : list A) :
  (length (remove_dups l) <= length l)%nat.
Proof.
  induction l as [|x l IH]; simpl; [lia |].
  destruct (decide_rel elem_of x l); simpl; lia.
Qed.

Lemma size_list_to_set_dups {A} `{Countable A} (l : list A) :
  size (list_to_set l : gset A) = length (remove_dups l).
Proof.
  rewrite <- (size_list_to_set (C := gset A) (remove_dups l))
    by apply NoDup_remove_dups.
  f_equal. apply set_eq. intros x.
  rewrite !elem_of_list_to_set, elem_of_remove_dups. reflexivity.
Qed.

(** X2. The summary of [merge_scan]: [total] is the number of distinct
    fresh ids, [new] is at most [total], which is at most the number of
    fresh features, and [removed] is at most the number of features the
    state held; none is negative. *)
Theorem merge_scan_summary_bounds (round1 : float -> float) (h : heap)
    (st : state) (fresh : list loc) (src now : string) :
  let d := snd (merge_scan round1 h st fresh src now) in
  total d = Z.of_nat (length (remove_dups (ids_of h fresh)))
  /\ 0 <= new d <= total d
  /\ total d <= Z.of_nat (length fresh)
  /\ 0 <= removed d <= Z.of_nat (length (features st)).
Proof.
  cbv zeta.
  destruct (merge_scan_parts round1 h st fresh src now)
    as (added & E1 & E2 & E3 & E4).
  cbv zeta in E4. rewrite E4. simpl. clear E4.
  set (s1 := fold_left (merge_feature now) fresh (Scan h (features st) ∅ 0)).
  pose proof (fun k => current_ids_spec now fresh h (features st) k) as Hcur.
  fold s1 in Hcur.
  assert (Ec : s_current_ids s1 = list_to_set (ids_of h fresh)).
  { apply set_eq. intros k. rewrite Hcur, elem_of_list_to_set, list_elem_of_In.
    reflexivity. }
  assert (Et : size (s_current_ids s1) = length (remove_dups (ids_of h fresh))).
  { rewrite Ec. apply size_list_to_set_dups. }
  split; [now rewrite Et |]. split; [| split].
  - split; [lia |]. apply Nat2Z.inj_le.
    replace (length added) with (length (PyDict.keys added))
      by (unfold PyDict.keys; apply length_map).
    rewrite <- (size_list_to_set (C := gset string) (PyDict.keys added)) by exact E1.
    apply subseteq_size. intros k. rewrite elem_of_list_to_set, list_elem_of_In.
    intros Hk. apply Hcur. now apply E2 in Hk.
  - rewrite Et. apply Nat2Z.inj_le.
    etransitivity; [apply remove_dups_length_le |].
    unfold ids_of. now rewrite length_map.
  - rewrite (remove_loop_count_objects _ _ Hcur). split; [lia |].
    rewrite Z.add_0_l. apply Nat2Z.inj_le.
    unfold absent_open_objects. rewrite size_list_to_set_dups.
    etransitivity; [apply remove_dups_length_le |].
    unfold PyDict.values. rewrite length_map. apply List.filter_length_le.
Qed.


Lemma same_unscanned_status f g :
  Feature.same_unscanned f g -> Feature.status g = Feature.status f.
Proof. unfold Feature.same_unscanned. tauto. Qed.

Lemma marked_last_seen f g :
  Feature.marked f g -> Feature.last_seen g = Feature.last_seen f.
Proof. intros [-> | [_ ->]]; reflexivity. Qed.

(** What [merge_scan] does to the object of a key of the state. *)
Lemma merge_scan_known round1 h st fresh src now k l :
  PyDict.get k (features st) = Some l ->
  let r := merge_scan round1 h st fresh src now in
  PyDict.get k (features (snd (fst r))) = Some l
  /\ (Feature.status (h l) <> "open"%string ->
      Feature.status (fst (fst r) l) = Feature.status (h l))
  /\ (Feature.status (h l) = "open"%string -> ~ In k (ids_of h fresh) ->
      Feature.status (fst (fst r) l) = "removed_from_design"%string)
  /\ (In k (ids_of h fresh) -> Feature.last_seen (fst (fst r) l) = now).
Proof.
  intros G. cbv zeta.
  destruct (merge_scan_parts round1 h st fresh src now)
    as (added & E1 & E2 & E3 & E4).
  cbv zeta in E4. rewrite E4. clear E4. simpl.
  set (s0 := Scan h (features st) ∅ 0).
  set (s1 := fold_left (merge_feature now) fresh s0).
  pose proof (fun k => current_ids_spec now fresh h (features st) k) as Hcur.
  fold s0 s1 in Hcur.
  pose proof (merge_loop_frame now fresh s0 l) as F. fold s1 in F. simpl in F.
  pose proof (remove_loop_marked _ _ Hcur (features st) (s_heap s1) 0 l) as M.
  split; [rewrite get_app, G; reflexivity |]. split; [| split].
  - intros Hs. rewrite <- (same_unscanned_status _ _ F) in Hs.
    rewrite (marked_not_open _ _ M Hs). now apply same_unscanned_status.
  - intros Hs Hk. rewrite <- (same_unscanned_status _ _ F) in Hs.
    rewrite (remove_loop_visited _ _ Hcur (features st) (s_heap s1) 0 k l);
      [reflexivity | now apply get_some_in | exact Hk | exact Hs].
  - intros Hk. rewrite (marked_last_seen _ _ M).
    apply (merge_loop_seen now fresh s0 k l); assumption.
Qed.

(** X3. A scan in which no known feature is missing marks nothing. *)
Theorem merge_scan_nothing_missing (round1 : float -> float) (h : heap)
    (st : state) (fresh : list loc) (src now : string) :
  (forall k, In k (PyDict.keys (features st)) -> In k (ids_of h fresh)) ->
  let r := merge_scan round1 h st fresh src now in
  removed (snd r) = 0
  /\ forall l, Feature.status (fst (fst r) l) = Feature.status (h l).
Proof.
  intros Hall. cbv zeta.
  destruct (merge_scan_parts round1 h st fresh src now)
    as (added & E1 & E2 & E3 & E4).
  cbv zeta in E4. rewrite E4. clear E4. simpl.
  set (s0 := Scan h (features st) ∅ 0).
  set (s1 := fold_left (merge_feature now) fresh s0).
  pose proof (fun k => current_ids_spec now fresh h (features st) k) as Hcur.
  fold s0 s1 in Hcur.
  rewrite (remove_loop_present _ _ Hcur).
  - split; [reflexivity |]. intros l. simpl.
    apply same_unscanned_status. apply (merge_loop_frame now fresh s0 l).
  - intros [k l] Hin. simpl. apply Hall. now apply in_keys in Hin.
Qed.



Lemma merge_loop_outside now fresh s l :
  ~ In l (PyDict.values (s_existing s)) -> ~ In l fresh ->
  s_heap (fold_left (merge_feature now) fresh s) l = s_heap s l.
Proof.
  revert s. induction fresh as [|f fresh IH]; intros s Hv Hf; [reflexivity |].
  cbn [fold_left]. rewrite IH.
  - rewrite merge_feature_heap.
    destruct (PyDict.get _ (s_existing s)) as [old|] eqn:G; [| reflexivity].
    destruct (Nat.eqb_spec l old) as [-> | _]; [| reflexivity].
    exfalso. apply Hv. apply get_some_in in G.
    now apply (in_map snd) in G.
  - pose proof (merge_feature_existing now s f) as M. cbv zeta in M.
    destruct (PyDict.get _ (s_existing s)) as [old|] eqn:G;
      destruct M as [M1 _]; rewrite M1; [exact Hv |].
    unfold PyDict.values. rewrite map_app, in_app_iff. simpl.
    intros [H | [H | []]]; [now apply Hv | subst; apply Hf; now left].
  - intros H. apply Hf. now right.
Qed.

(** X5. [merge_scan] writes to no object but those the mapping holds and
    those of the fresh list. *)
Theorem merge_scan_frame (round1 : float -> float) (h : heap) (st : state)
    (fresh : list loc) (src now : string) (l : loc) :
  ~ In l (PyDict.values (features st)) -> ~ In l fresh ->
  fst (fst (merge_scan round1 h st fresh src now)) l = h l.
Proof.
  intros Hv Hf.
  destruct (merge_scan_parts round1 h st fresh src now)
    as (added & E1 & E2 & E3 & E4).
  cbv zeta in E4. rewrite E4. clear E4. simpl.
  pose proof (fun k => current_ids_spec now fresh h (features st) k) as Hcur.
  rewrite (remove_loop_untouched _ _ Hcur).
  - now rewrite merge_loop_outside.
  - intros k Hin. exfalso. apply Hv. now apply (in_map snd) in Hin.
Qed.

Lemma resolve_feature_unfold round1 h st pattern status :
  let r := fold_left (resolve_item pattern status) (features st) (h, []) in
  resolve_feature round1 h st pattern status
  = (fst r, _recompute_stats round1 (fst r) st, snd r).
Proof.
  cbv zeta. unfold resolve_feature.
  destruct (fold_left _ _ _) as [h' res]. reflexivity.
Qed.

Lemma str_in_empty s : PyStr.str_in "" s = true.
Proof. apply PyStrFacts.str_in_spec. exists ""%string, s. reflexivity. Qed.

(** X6. The empty pattern matches every id: [resolve_feature] with it
    gives the status to every open feature, and to no other. *)
Theorem resolve_feature_empty_pattern (round1 : float -> float) (h : heap)
    (st : state) (status : string) :
  let r := resolve_feature round1 h st "" status in
  (forall k l, In (k, l) (features st) ->
     Feature.status (h l) = "open"%string ->
     fst (fst r) l = Feature.set_status status (h l))
  /\ (forall l, Feature.status (h l) <> "open"%string -> fst (fst r) l = h l)
  /\ (distinct_objects st ->
      snd r = PyDict.keys
                (List.filter
                   (fun item => String.eqb (Feature.status (h (snd item))) "open")
                   (features st))).
Proof.
  cbv zeta. rewrite resolve_feature_unfold. cbv zeta. simpl.
  assert (R : forall item,
             resolvable h "" item
             = String.eqb (Feature.status (h (snd item))) "open").
  { intros item. unfold resolvable. rewrite str_in_empty, orb_true_r.
    apply andb_true_r. }
  split; [| split].
  - intros k l Hin Hs. apply (resolve_loop_hit "" status _ h [] k l Hin).
    rewrite R. simpl. now apply String.eqb_eq.
  - intros l Hs. now apply resolve_loop_not_open.
  - intros D. rewrite resolve_loop_list by exact D. simpl.
    f_equal. apply List.filter_ext. exact R.
Qed.

(** X7. Resolving is idempotent: a second call with the same pattern and
    status finds nothing to resolve and leaves the store and the state. *)
Theorem resolve_feature_again (round1 : float -> float) (h : heap)
    (st : state) (pattern status : string) :
  status <> "open"%string ->
  let r1 := resolve_feature round1 h st pattern status in
  let r2 := resolve_feature round1 (fst (fst r1)) (snd (fst r1)) pattern status in
  snd r2 = [] /\ fst r2 = fst r1.
Proof.
  intros Hst. cbv zeta.
  rewrite (resolve_feature_unfold round1 h). cbv zeta. simpl.
  set (h1 := fst (fold_left (resolve_item pattern status) (features st) (h, []))).
  rewrite resolve_feature_unfold. cbv zeta. simpl.
  rewrite resolve_loop_idle; [split; reflexivity |].
  intros [k l] Hin.
  assert (Hno : Feature.status (Feature.set_status status (h l)) <> "open"%string)
    by exact Hst.
  destruct (resolve_loop_resolved pattern status (features st) h [] l)
    as [E | [_ E]]; fold h1 in E.
  - destruct (resolvable h pattern (k, l)) eqn:R.
    + pose proof (resolve_loop_hit pattern status _ h [] k l Hin R) as E'.
      fold h1 in E'. unfold resolvable. simpl. rewrite E'.
      apply String.eqb_neq in Hno. now rewrite Hno.
    + rewrite <- R. apply resolvable_ext. exact E.
  - unfold resolvable. simpl. rewrite E.
    apply String.eqb_neq in Hno. now rewrite Hno.
Qed.

(** X8. Every state the program comes to, from the empty state by scans
    and resolutions, is a mapping without a repeated key that stores each
    feature under its own id, and no object under two keys. *)
Theorem reachable_state_keyed_by_id (round1 : float -> float) (h : heap)
    (st : state) :
  reachable round1 h st ->
  NoDup (PyDict.keys (features st))
  /\ (forall k l, In (k, l) (features st) -> Feature.id (h l) = k)
  /\ (forall k l, In (k, l) (features st) ->
        PyDict.get k (features st) = Some l)
  /\ NoDup (PyDict.values (features st)).
Proof.
  intros R. pose proof (reachable_ok round1 h st R) as K.
  pose proof (reachable_distinct round1 h st R) as D.
  destruct K as [K1 K2].
  split; [exact K1 |]. split; [exact K2 |]. split; [| exact D].
  intros k l Hin. apply (keyed_by_id_get h); [split; assumption | exact Hin].
Qed.


Lemma no_colon_cons c s :
  PyStr.str_in ":" (String c s) = false ->
  c <> ":"%char /\ PyStr.str_in ":" s = false.
Proof.
  intros H. split.
  - intros ->. enough (PyStr.str_in ":" (String ":" s) = true) by congruence.
    apply PyStrFacts.str_in_spec. exists ""%string, s. reflexivity.
  - destruct (PyStr.str_in ":" s) eqn:E; [| reflexivity].
    apply PyStrFacts.str_in_spec in E as (a & b & ->).
    enough (PyStr.str_in ":" (String c (a +:+ ":" +:+ b)) = true) by congruence.
    apply PyStrFacts.str_in_spec. exists (String c a), b. reflexivity.
Qed.

Lemma append_cons c (s t : string) :
  (String c s +:+ t)%string = String c (s +:+ t).
Proof. reflexivity. Qed.

Lemma append_empty_l (t : string) : ("" +:+ t)%string = t.
Proof. reflexivity. Qed.

(** A string without a colon, followed by nothing or by a colon and more,
    is read back in one way. *)
Lemma no_colon_prefix_unique s : forall s' t t',
  PyStr.str_in ":" s = false -> PyStr.str_in ":" s' = false ->
  (t = "" \/ exists u, t = String ":" u)%string ->
  (t' = "" \/ exists u, t' = String ":" u)%string ->
  (s +:+ t = s' +:+ t')%string -> s = s' /\ t = t'.
Proof.
  induction s as [|c s IH]; intros s' t t' Hs Hs' Ht Ht' E.
  - destruct s' as [|c' s']; [split; [reflexivity | exact E] |].
    exfalso. apply no_colon_cons in Hs' as [Hc _].
    rewrite append_empty_l, append_cons in E.
    destruct Ht as [-> | [u ->]]; [discriminate |]. congruence.
  - apply no_colon_cons in Hs as [Hc Hs].
    destruct s' as [|c' s'].
    + exfalso. rewrite append_empty_l, append_cons in E.
      destruct Ht' as [-> | [u ->]]; [discriminate |]. congruence.
    + apply no_colon_cons in Hs' as [_ Hs']. rewrite !append_cons in E.
      injection E as -> E.
      destruct (IH s' t t' Hs Hs' Ht Ht' E) as [-> ->]. split; reflexivity.
Qed.

Lemma append_empty_r (s : string) : (s +:+ "")%string = s.
Proof.
  induction s as [|c s IH]; [reflexivity |]. now rewrite append_cons, IH.
Qed.

(** X9. The id of a feature names it: when the detector names and the
    screen ids hold no colon, two features made with the same id have the
    same detector, screen id and name. *)
Theorem make_feature_id_injective (detector screen_id name : string)
    (detector' screen_id' name' : string) (tier tier' : Z)
    (category summary category' summary' : string)
    (detail detail' : option (list (string * json))) (now now' : string) :
  PyStr.str_in ":" detector = false -> PyStr.str_in ":" screen_id = false ->
  PyStr.str_in ":" detector' = false -> PyStr.str_in ":" screen_id' = false ->
  Feature.id (make_feature detector screen_id name tier category summary
                detail now)
  = Feature.id (make_feature detector' screen_id' name' tier' category'
                  summary' detail' now') ->
  detector = detector' /\ screen_id = screen_id' /\ name = name'.
Proof.
  intros Hd Hs Hd' Hs' E. simpl in E.
  set (tail := fun n : string =>
                 if negb (String.eqb n "") then ("::" +:+ n)%string
                 else ""%string).
  assert (Ef : forall d s n,
             (if negb (String.eqb n "")
              then (d +:+ "::" +:+ s +:+ "::" +:+ n)%string
              else (d +:+ "::" +:+ s)%string)
             = (d +:+ String ":" (String ":" (s +:+ tail n)))%string).
  { intros d s n. unfold tail. destruct (negb (String.eqb n "")).
    - reflexivity.
    - now rewrite append_empty_r. }
  rewrite !Ef in E.
  assert (Ht : forall n, tail n = ""%string \/ exists u, tail n = String ":" u).
  { intros n. unfold tail. destruct (negb (String.eqb n ""));
      [right; eexists; reflexivity | now left]. }
  apply no_colon_prefix_unique in E as [-> E]; try assumption;
    try (right; eexists; reflexivity).
  injection E as E.
  apply no_colon_prefix_unique in E as [-> E]; try assumption; try apply Ht.
  split; [reflexivity |]. split; [reflexivity |].
  unfold tail in E.
  destruct (String.eqb_spec name "") as [-> | Hn];
    destruct (String.eqb_spec name' "") as [-> | Hn']; simpl in E;
    try discriminate; try reflexivity.
  now injection E.
Qed.

End ScanFacts.

(** ** More on [classify_screen_tier] and [compute_completion] *)
Module StatsFacts.
Import Scoring ScoringFacts Tiers.

Lemma any_positive_mono fc fc' inds :
  (forall ind, count_of fc ind <= count_of fc' ind) ->
  any_positive fc inds = true -> any_positive fc' inds = true.
Proof.
  intros Hle. rewrite !any_positive_iff. intros (ind & Hin & Hpos).
  exists ind. split; [exact Hin |]. specialize (Hle ind). lia.
Qed.

(** X10. [classify_screen_tier] is monotone: raising counts never lowers the
    tier, and the tier is always between 1 and 4. *)
Theorem classify_screen_tier_monotone (fc fc' : gmap string Z) :
  (forall ind, count_of fc ind <= count_of fc' ind) ->
  1 <= classify_screen_tier fc
  /\ classify_screen_tier fc <= classify_screen_tier fc'
  /\ classify_screen_tier fc' <= 4.
Proof.
  intros Hle. unfold classify_screen_tier.
  pose proof (any_positive_mono fc fc' t4_indicators Hle) as M4.
  pose proof (any_positive_mono fc fc' t3_indicators Hle) as M3.
  pose proof (any_positive_mono fc fc' t2_indicators Hle) as M2.
  destruct (any_positive fc t4_indicators);
    [rewrite M4 by reflexivity; lia |].
  destruct (any_positive fc t3_indicators).
  { rewrite M3 by reflexivity. destruct (any_positive fc' t4_indicators); lia. }
  destruct (any_positive fc t2_indicators).
  { rewrite M2 by reflexivity.
    destruct (any_positive fc' t4_indicators),
             (any_positive fc' t3_indicators); lia. }
  destruct (any_positive fc' t4_indicators),
           (any_positive fc' t3_indicators),
           (any_positive fc' t2_indicators); lia.
Qed.

Lemma setdefault_lookup_ne (m : gmap Z tier_stats) k t :
  k <> t -> setdefault k m !! t = m !! t.
Proof.
  intros Hne. unfold setdefault. destruct (m !! k); [reflexivity |].
  now rewrite lookup_insert_ne.
Qed.

Lemma count_feature_lookup c f t :
  c_by_tier (count_feature c f) !! t
  = if Feature.tier f =? t
    then Some (bump f (default (TierStats 0 0) (c_by_tier c !! t)))
    else c_by_tier c !! t.
Proof.
  rewrite count_feature_by_tier. cbv zeta.
  destruct (Z.eqb_spec (Feature.tier f) t) as [<- | Hne].
  - unfold bump. destruct (has_status "implemented" f).
    + rewrite !lookup_alter_eq, setdefault_lookup. simpl.
      unfold add_done, add_total. simpl. reflexivity.
    + rewrite !lookup_alter_eq, setdefault_lookup. simpl.
      unfold add_total. simpl. now rewrite Z.add_0_r.
  - destruct (has_status "implemented" f);
      rewrite ?lookup_alter_ne by exact Hne;
      now apply setdefault_lookup_ne.
Qed.


Lemma fold_lookup fs : forall c t,
  c_by_tier (fold_left count_feature fs c) !! t
  = entry_after t fs (c_by_tier c !! t).
Proof.
  induction fs as [|f fs IH]; intros c t; [reflexivity |].
  cbn [fold_left]. rewrite IH, count_feature_lookup.
  unfold entry_after, of_tier. cbn [List.filter].
  destruct (Z.eqb_spec (Feature.tier f) t) as [E | Hne]; [| reflexivity].
  cbn [length]. rewrite count_status_cons. unfold bump.
  set (base := default (TierStats 0 0) (c_by_tier c !! t)).
  cbn [default ts_total ts_done Nat.eqb].
  destruct (length _ =? 0)%nat eqn:El.
  - apply Nat.eqb_eq in El. rewrite El.
    apply length_zero_iff_nil in El. rewrite El.
    change (count_status "implemented" []) with 0.
    f_equal. f_equal; destruct (has_status "implemented" f); lia.
  - unfold id. cbn [ts_total ts_done].
    f_equal. f_equal; destruct (has_status "implemented" f); lia.
Qed.

(** X11. The entry of [by_tier] for a tier counts the features of the tier
    and, as done, those of them that are implemented; a tier without a
    feature has no entry. *)
Theorem by_tier_breakdown (round1 : float -> float)
    (features : list Feature.t) (tier : Z) :
  let st := compute_completion round1 features in
  by_tier st !! tier = tier_entry tier features
  /\ (by_tier st !! tier = None <->
      forall f, In f features -> Feature.tier f <> tier)
  /\ (forall ts, by_tier st !! tier = Some ts ->
        0 <= ts_done ts <= ts_total ts /\ 1 <= ts_total ts).
Proof.
  cbv zeta.
  assert (E : by_tier (compute_completion round1 features) !! tier
              = tier_entry tier features).
  { unfold compute_completion. cbn [by_tier]. unfold count_features.
    rewrite fold_lookup. unfold entry_after, tier_entry. cbn.
    rewrite lookup_empty. cbn.
    destruct (length _ =? 0)%nat; [reflexivity |]. f_equal. }
  split; [exact E |]. rewrite E. clear E. unfold tier_entry. cbv zeta.
  split.
  - destruct (length _ =? 0)%nat eqn:El.
    + split; [| reflexivity]. intros _ f Hin Ht.
      apply Nat.eqb_eq, length_zero_iff_nil in El.
      assert (Hf : In f (of_tier tier features)).
      { apply List.filter_In. split; [exact Hin | now apply Z.eqb_eq]. }
      rewrite El in Hf. destruct Hf.
    + split; [discriminate |]. intros Hno. exfalso.
      apply Nat.eqb_neq in El. apply El. apply length_zero_iff_nil.
      destruct (of_tier tier features) as [|f fs] eqn:Ef; [reflexivity |].
      assert (Hf : In f (of_tier tier features)) by (rewrite Ef; now left).
      apply List.filter_In in Hf as [Hin Ht]. apply Z.eqb_eq in Ht.
      now destruct (Hno f Hin).
  - intros ts. destruct (length _ =? 0)%nat eqn:El; [discriminate |].
    intros [= <-]. cbn [ts_done ts_total]. apply Nat.eqb_neq in El.
    unfold count_status, with_status.
    pose proof (List.filter_length_le (has_status "implemented")
                  (of_tier tier features)).
    lia.
Qed.

Lemma filter_perm {A} (p : A -> bool) (l l' : list A) :
  Permutation l l' -> Permutation (List.filter p l) (List.filter p l').
Proof.
  induction 1 as [| x l l' _ IH | x y l | l l' l'' _ IH1 _ IH2];
    cbn [List.filter].
  - constructor.
  - destruct (p x); [now constructor | exact IH].
  - destruct (p x), (p y); try reflexivity. apply perm_swap.
  - now transitivity (List.filter p l').
Qed.

Lemma of_tier_perm t fs gs :
  Permutation fs gs -> length (of_tier t fs) = length (of_tier t gs)
  /\ count_status "implemented" (of_tier t fs)
     = count_status "implemented" (of_tier t gs).
Proof.
  intros P.
  assert (P1 : Permutation (of_tier t fs) (of_tier t gs))
    by (unfold of_tier; now apply filter_perm).
  split; [now apply Permutation_length |].
  unfold count_status, with_status. f_equal.
  apply Permutation_length. now apply filter_perm.
Qed.

Lemma count_status_perm s fs gs :
  Permutation fs gs -> count_status s fs = count_status s gs.
Proof.
  intros P. unfold count_status, with_status. f_equal.
  apply Permutation_length. now apply filter_perm.
Qed.

(** X12. The statistics do not depend on the order of the features. *)
Theorem compute_completion_any_order (round1 : float -> float)
    (features features' : list Feature.t) :
  Permutation features features' ->
  compute_completion round1 features = compute_completion round1 features'.
Proof.
  intros P.
  enough (E : count_features features = count_features features')
    by (unfold compute_completion; now rewrite E).
  assert (Eta : forall c,
             c = Counters (c_by_tier c) (c_total c) (c_implemented c)
                   (c_deferred c) (c_out_of_scope c))
    by (intros []; reflexivity).
  rewrite (Eta (count_features features)), (Eta (count_features features')).
  unfold count_features.
  destruct (fold_counters features counters0) as (T & I & D & O).
  destruct (fold_counters features' counters0) as (T' & I' & D' & O').
  cbv zeta in *. rewrite T, I, D, O, T', I', D', O'.
  rewrite (Permutation_length P),
    (count_status_perm "implemented" _ _ P),
    (count_status_perm "deferred" _ _ P),
    (count_status_perm "out_of_scope" _ _ P).
  f_equal. apply map_eq. intros t. rewrite !fold_lookup.
  unfold entry_after. destruct (of_tier_perm t _ _ P) as [-> ->].
  reflexivity.
Qed.

Lemma tier_weight_bounds t : 1 <= tier_weight t <= 8.
Proof.
  unfold tier_weight.
  destruct (t =? 1), (t =? 2), (t =? 3), (t =? 4); lia.
Qed.

Lemma weight_sum_bounds fs :
  Z.of_nat (length fs) <= weight_sum fs <= 8 * Z.of_nat (length fs).
Proof.
  induction fs as [|f fs IH]; [simpl; lia |].
  unfold weight_sum in *. cbn [fold_right length].
  pose proof (tier_weight_bounds (Feature.tier f)). lia.
Qed.

Lemma weight_sum_filter p fs :
  0 <= weight_sum (List.filter p fs) <= weight_sum fs.
Proof.
  induction fs as [|f fs IH]; [simpl; lia |].
  cbn [List.filter]. pose proof (tier_weight_bounds (Feature.tier f)).
  destruct (p f); unfold weight_sum in *; cbn [fold_right]; lia.
Qed.

(** X13. The numbers of [compute_completion] are within bounds: no count
    is negative, the three resolved counts together are at most the
    total, the done effort is at most the total effort, and the total
    effort lies between the total and eight times the total, so it is
    zero only for no feature at all. *)
Theorem compute_completion_bounds (round1 : float -> float)
    (features : list Feature.t) :
  let st := compute_completion round1 features in
  0 <= implemented st /\ 0 <= deferred st /\ 0 <= out_of_scope st
  /\ 0 <= open st
  /\ implemented st + deferred st + out_of_scope st + open st = total st
  /\ 0 <= done_effort (by_tier st) <= total_effort (by_tier st)
  /\ total st <= total_effort (by_tier st) <= 8 * total st
  /\ (total_effort (by_tier st) = 0 <-> features = []).
Proof.
  cbv zeta. unfold compute_completion. cbn [implemented deferred out_of_scope
    open total by_tier].
  rewrite total_effort_features, done_effort_features.
  unfold count_features.
  destruct (fold_counters features counters0) as (T & I & D & O).
  cbv zeta in *. rewrite T, I, D, O. cbn [counters0 c_total c_implemented
    c_deferred c_out_of_scope].
  pose proof (status_partition features) as SP.
  pose proof (weight_sum_bounds features) as WB.
  pose proof (weight_sum_filter (has_status "implemented") features) as WF.
  unfold count_status in *. unfold with_status in *.
  repeat split; try lia.
  - intros E. destruct features; [reflexivity |]. simpl length in WB. lia.
  - intros ->. reflexivity.
Qed.

End StatsFacts.

(** ** The tree of nodes *)
Module PenTreeFacts.
Import PenParser PenTree PenParserFacts.

Lemma PenNode_nested_ind (P : PenNode -> Prop) :
  (forall n, Forall P (children n) -> P n) -> forall n, P n.
Proof.
  intros H. fix IH 1. intros [i t nm cs ps r]. apply H. simpl.
  induction cs as [|c cs IHcs]; constructor; [apply IH | exact IHcs].
Qed.

Lemma walk_unfold n : walk n = n :: flat_map walk (children n).
Proof. destruct n; reflexivity. Qed.

Lemma in_walk m n :
  In m (walk n) <-> m = n \/ exists c, In c (children n) /\ In m (walk c).
Proof.
  rewrite walk_unfold. simpl. rewrite in_flat_map.
  split; (intros [H | H]; [left; congruence | right; exact H]).
Qed.

Lemma length_flat_map {A B} (f : A -> list B) (l : list A) :
  length (flat_map f l) = fold_right (fun x acc => (length (f x) + acc)%nat) 0%nat l.
Proof.
  induction l as [|x l IH]; [reflexivity |].
  simpl. now rewrite length_app, IH.
Qed.

(** X14. [walk] yields the node first and, with every node it yields, the
    whole subtree of that node: the nodes yielded are the node and those
    yielded for its children. *)
Theorem walk_subtrees (n : PenNode) :
  (exists rest, walk n = n :: rest)
  /\ (forall m, In m (walk n) <->
        m = n \/ exists c, In c (children n) /\ In m (walk c))
  /\ (forall m, In m (walk n) -> forall x, In x (walk m) -> In x (walk n))
  /\ length (walk n)
     = S (fold_right (fun c acc => (length (walk c) + acc)%nat) 0%nat
            (children n)).
Proof.
  split; [rewrite walk_unfold; eexists; reflexivity |].
  split; [intros m; apply in_walk |].
  split; [| rewrite walk_unfold; simpl; now rewrite length_flat_map].
  induction n as [n IH] using PenNode_nested_ind.
  intros m Hm x Hx. apply in_walk in Hm as [-> | (c & Hc & Hm)]; [exact Hx |].
  apply in_walk. right. exists c. split; [exact Hc |].
  rewrite List.Forall_forall in IH. now apply (IH c Hc m).
Qed.

Lemma max_of_ge x l : x <= max_of x l.
Proof.
  unfold max_of. revert x. induction l as [|y l IH]; intros x; simpl; [lia |].
  specialize (IH (Z.max x y)). lia.
Qed.

Lemma max_of_in x l y : In y l -> y <= max_of x l.
Proof.
  unfold max_of. revert x. induction l as [|z l IH]; intros x; [intros []|].
  simpl. intros [-> | H].
  - pose proof (max_of_ge (Z.max x y) l) as G. unfold max_of in G. lia.
  - now apply IH.
Qed.

Lemma max_of_attained x l : max_of x l = x \/ In (max_of x l) l.
Proof.
  unfold max_of. revert x. induction l as [|z l IH]; intros x; [now left |].
  simpl. destruct (IH (Z.max x z)) as [E | H]; [| right; now right].
  rewrite E. destruct (Z.max_spec x z) as [[_ ->] | [_ ->]];
    [right; now left | now left].
Qed.

Lemma depth_unfold n :
  depth n = match children n with
            | [] => 0
            | child :: rest => 1 + max_of (depth child) (map depth rest)
            end.
Proof. destruct n; reflexivity. Qed.

Lemma depth_nonneg n : 0 <= depth n.
Proof.
  induction n as [n IH] using PenNode_nested_ind.
  rewrite depth_unfold. destruct (children n) as [|c cs]; [lia |].
  apply Forall_cons in IH as [Hc _].
  pose proof (max_of_ge (depth c) (map depth cs)). lia.
Qed.

Lemma depth_child_lt n c : In c (children n) -> depth c < depth n.
Proof.
  intros Hc. rewrite (depth_unfold n).
  destruct (children n) as [|c0 cs]; [destruct Hc |].
  destruct Hc as [-> | Hc].
  - pose proof (max_of_ge (depth c) (map depth cs)). lia.
  - pose proof (max_of_in (depth c0) (map depth cs) (depth c)
                  (in_map depth _ _ Hc)). lia.
Qed.

(** X15. [depth] is 0 exactly for a node without children; otherwise it is
    one more than the depth of its deepest child, and it is less than the
    number of nodes [walk] yields. *)
Theorem depth_of_subtree (n : PenNode) :
  (depth n = 0 <-> children n = [])
  /\ (forall c, In c (children n) -> depth c < depth n)
  /\ (children n <> [] ->
      exists c, In c (children n) /\ depth n = 1 + depth c)
  /\ 0 <= depth n < Z.of_nat (length (walk n)).
Proof.
  split; [| split; [| split]].
  - rewrite depth_unfold. destruct (children n) as [|c cs]; [tauto |].
    pose proof (max_of_ge (depth c) (map depth cs)).
    pose proof (depth_nonneg c). split; [lia | discriminate].
  - intros c Hc. now apply depth_child_lt.
  - intros Hne. rewrite (depth_unfold n).
    destruct (children n) as [|c0 cs]; [congruence |].
    destruct (max_of_attained (depth c0) (map depth cs)) as [E | H].
    + exists c0. split; [now left | now rewrite E].
    + apply in_map_iff in H as (c & E & Hc).
      exists c. split; [now right | now rewrite E].
  - split; [apply depth_nonneg |].
    induction n as [n IH] using PenNode_nested_ind.
    rewrite depth_unfold, walk_unfold. cbn [length].
    destruct (children n) as [|c0 cs] eqn:Ec; [simpl; lia |].
    assert (Hall : forall c, In c (c0 :: cs) ->
              depth c < Z.of_nat (length (flat_map walk (c0 :: cs)))).
    { intros c Hc. rewrite List.Forall_forall in IH. specialize (IH c Hc).
      enough (length (walk c) <= length (flat_map walk (c0 :: cs)))%nat by lia.
      clear -Hc. induction (c0 :: cs) as [|d ds IHd]; [destruct Hc |].
      simpl. rewrite length_app. destruct Hc as [-> | Hc]; [lia |].
      specialize (IHd Hc). lia. }
    destruct (max_of_attained (depth c0) (map depth cs)) as [E | H].
    + rewrite E. specialize (Hall c0 (or_introl eq_refl)). lia.
    + apply in_map_iff in H as (c & E & Hc). rewrite <- E.
      specialize (Hall c (or_intror Hc)). lia.
Qed.


Lemma child_not_self n : ~ In n (children n).
Proof.
  intros H. pose proof (depth_child_lt n n H). lia.
Qed.

(** X16. The screens of a document are direct children of the root; no
    screen is listed among the components or among the instances, and
    the root is no screen. Components and instances are nodes of the
    tree. *)
Theorem screens_components_instances (doc : PenDocument) :
  (forall s, In s (screens doc) ->
     In s (children (root doc)) /\ In s (walk (root doc))
     /\ s <> root doc
     /\ ~ In s (components doc) /\ ~ In s (all_instances doc))
  /\ (forall n, In n (components doc) ->
        In n (walk (root doc)) /\ ~ In n (screens doc))
  /\ (forall n, In n (all_instances doc) ->
        In n (walk (root doc)) /\ type n = JStr "ref").
Proof.
  unfold screens, components, all_instances, is_component.
  split; [| split].
  - intros s Hs. apply List.filter_In in Hs as [Hc Hscr].
    unfold is_screen in Hscr. apply andb_true_iff in Hscr as [Ht Hr].
    apply negb_true_iff in Hr.
    split; [exact Hc |]. split; [apply in_walk; right; exists s; split;
      [exact Hc | rewrite walk_unfold; now left] |].
    split; [intros ->; now apply child_not_self in Hc |].
    split.
    + rewrite List.filter_In. intros [_ H]. congruence.
    + rewrite List.filter_In. intros [_ H]. unfold is_instance in H.
      destruct (type s) as [| | | | t | |]; try discriminate.
      simpl in Ht, H. apply String.eqb_eq in Ht, H. congruence.
  - intros n Hn. apply List.filter_In in Hn as [Hw Hr].
    split; [exact Hw |]. rewrite List.filter_In. intros [_ H].
    unfold is_screen in H. rewrite Hr in H. now rewrite andb_false_r in H.
  - intros n Hn. apply List.filter_In in Hn as [Hw Hi].
    split; [exact Hw |]. unfold is_instance in Hi.
    destruct (type n) as [| | | | t | |]; try discriminate.
    simpl in Hi. apply String.eqb_eq in Hi. now subst.
Qed.

Lemma select_none {A} (cond : A -> option bool) l :
  select cond l = None <-> exists x, In x l /\ cond x = None.
Proof.
  induction l as [|x l IH]; simpl.
  - split; [discriminate | intros (x & [] & _)].
  - destruct (cond x) as [b|] eqn:E.
    + destruct (select cond l) as [r|].
      * split; [discriminate |]. intros (y & [<- | Hy] & Hn); [congruence |].
        enough (Some r = None) by discriminate. apply IH. now exists y.
      * split; [| reflexivity]. intros _.
        destruct (proj1 IH eq_refl) as (y & Hy & Hn).
        exists y. split; [now right | exact Hn].
    + split; [| reflexivity]. intros _. exists x. split; [now left | exact E].
Qed.

Lemma select_some {A} (cond : A -> option bool) l r :
  select cond l = Some r ->
  r = List.filter (fun x => default false (cond x)) l
  /\ forall x, In x l -> exists b, cond x = Some b.
Proof.
  revert r. induction l as [|x l IH]; intros r; simpl.
  - intros [= <-]. split; [reflexivity | intros x []].
  - destruct (cond x) as [b|] eqn:E; [| discriminate].
    destruct (select cond l) as [r'|]; [| discriminate].
    intros [= <-]. destruct (IH r' eq_refl) as [-> Hall]. split.
    + simpl. now destruct b.
    + intros y [<- | Hy]; [now exists b | now apply Hall].
Qed.

Lemma select_ext {A} (cond cond' : A -> option bool) l :
  (forall x, cond x = cond' x) -> select cond l = select cond' l.
Proof.
  intros H. induction l as [|x l IH]; [reflexivity |].
  simpl. now rewrite H, IH.
Qed.

Lemma lower_char_idem c : PyStr.lower_char (PyStr.lower_char c) = PyStr.lower_char c.
Proof. PyStrFacts.each_char c. Qed.

Lemma str_lower_idem s : PyStr.str_lower (PyStr.str_lower s) = PyStr.str_lower s.
Proof.
  unfold PyStr.str_lower. rewrite PyStrFacts.of_to_string. f_equal.
  unfold PyStr.lower. rewrite map_map. apply map_ext. apply lower_char_idem.
Qed.


Lemma parsed_is_screen items node :
  _parse_node (JObj items) = Some node ->
  is_screen node = screen_data (JObj items).
Proof.
  rewrite parse_node_unfold. destruct (children_of items); [| discriminate].
  intros [= <-]. reflexivity.
Qed.

Lemma parse_children_screens raw : forall nodes,
  parse_children raw = Some nodes ->
  parse_children (List.filter screen_data raw)
  = Some (List.filter is_screen nodes).
Proof.
  induction raw as [|x raw IH]; intros nodes.
  - intros [= <-]. reflexivity.
  - rewrite parse_children_cons. destruct x as [| | | | | |items];
      try (cbn [is_dict List.filter screen_data]; apply IH).
    cbn [is_dict List.filter].
    destruct (_parse_node (JObj items)) as [child|] eqn:Ep; [| discriminate].
    destruct (parse_children raw) as [rest|]; [| discriminate].
    intros [= <-]. specialize (IH rest eq_refl).
    rewrite <- (parsed_is_screen items child Ep).
    cbn [List.filter]. destruct (is_screen child) eqn:Es; [| exact IH].
    rewrite parse_children_cons. cbn [is_dict]. now rewrite Ep, IH.
Qed.

(** X18. The screens of a parsed document are the parsed screen entries of
    the list under "children": the [dict] entries whose type is "frame"
    or absent and whose [reusable] is absent or not true, in their order;
    when "children" is absent or not a list there is no screen. *)
Theorem parsed_screens (items : list (string * json)) (doc : PenDocument) :
  parse_pen_json (JObj items) = Some doc ->
  (forall raw, PyDict.get "children" items = Some (JList raw) ->
     parse_children (List.filter screen_data raw) = Some (screens doc)
     /\ Forall2 (fun d s => _parse_node d = Some s)
          (List.filter screen_data raw) (screens doc))
  /\ ((forall raw, PyDict.get "children" items <> Some (JList raw)) ->
      screens doc = []).
Proof.
  unfold parse_pen_json. rewrite parse_node_unfold.
  unfold children_of, get_default.
  destruct (PyDict.get "children" items) as [v|] eqn:G.
  - destruct v as [| | | | | raw |];
      try (intros [= <-]; split; [intros raw [=] | reflexivity]).
    destruct (parse_children raw) as [nodes|] eqn:Ep; [| discriminate].
    intros [= <-]. unfold screens. cbn [root children]. split.
    + intros raw' [= <-].
      pose proof (parse_children_screens raw nodes Ep) as E.
      split; [exact E |].
      apply parse_children_spec in E.
      rewrite List.forallb_filter_id in E; [exact E |].
      apply forallb_forall. intros x Hx. apply List.filter_In in Hx as [_ Hx].
      now destruct x.
    + intros H. now destruct (H raw).
  - intros [= <-]. split; [intros raw [=] | reflexivity].
Qed.

End PenTreeFacts.

(** ** [_normalize] *)
Module NormalizeFacts.
Import PyStr CodebaseMatcher Normalize PyStrFacts CodebaseMatcherFacts.

Lemma alnum_lower_fixed c : alnum_lower c = true -> lower_char c = c.
Proof. each_char c. Qed.

Lemma alnum_keep c : alnum_lower c = true -> slug_keep c = true.
Proof. each_char c. Qed.

Lemma alnum_not_space c : is_space c = true -> alnum_lower c = false.
Proof. each_char c. Qed.

Lemma alnum_not_sep c : space_or_underscore c = true -> alnum_lower c = false.
Proof. each_char c. Qed.

Lemma alnum_not_hyphen c : is_hyphen c = true -> alnum_lower c = false.
Proof. each_char c. Qed.

Lemma lower_idem s : lower (lower s) = lower s.
Proof.
  unfold lower. rewrite map_map. apply map_ext. intros c. each_char c.
Qed.

Lemma lower_fixed s : forallb alnum_lower s = true -> lower s = s.
Proof.
  induction s as [|c s IH]; [reflexivity |]. simpl.
  intros H. apply andb_true_iff in H as [Hc Hs].
  now rewrite (alnum_lower_fixed c Hc), IH.
Qed.

Section Filtered.
Variables (q cls : ascii -> bool).
Hypothesis Hdisjoint : forall c, cls c = true -> q c = false.

Lemma filter_lstrip s : List.filter q (lstrip cls s) = List.filter q s.
Proof.
  induction s as [|c s IH]; [reflexivity |]. simpl.
  destruct (cls c) eqn:E; [| reflexivity].
  now rewrite (Hdisjoint c E).
Qed.

Lemma filter_rev_list s : List.filter q (rev s) = rev (List.filter q s).
Proof.
  induction s as [|c s IH]; [reflexivity |]. simpl.
  rewrite List.filter_app, IH. simpl.
  destruct (q c); simpl; [reflexivity | now rewrite app_nil_r].
Qed.

Lemma filter_strip s : List.filter q (strip cls s) = List.filter q s.
Proof.
  unfold strip, rstrip.
  now rewrite filter_rev_list, filter_lstrip, <- filter_rev_list, rev_involutive,
    filter_lstrip.
Qed.

Lemma filter_sub_runs rep b s :
  q rep = false ->
  List.filter q (sub_runs_from cls rep b s) = List.filter q s.
Proof.
  intros Hrep. revert b. induction s as [|c s IH]; intros b; [reflexivity |].
  simpl. destruct (cls c) eqn:E.
  - rewrite (Hdisjoint c E). destruct b; simpl; rewrite ?Hrep; apply IH.
  - simpl. now rewrite IH.
Qed.
End Filtered.

Lemma filter_filter_keep s :
  List.filter alnum_lower (List.filter slug_keep s) = List.filter alnum_lower s.
Proof.
  induction s as [|c s IH]; [reflexivity |]. simpl.
  destruct (slug_keep c) eqn:K; simpl.
  - now rewrite IH.
  - destruct (alnum_lower c) eqn:A; [| exact IH].
    apply alnum_keep in A. congruence.
Qed.

Lemma normalize_chars_shape s : forallb alnum_lower (normalize_chars s) = true.
Proof.
  apply forallb_forall. intros c Hc.
  apply List.filter_In in Hc. tauto.
Qed.

Lemma normalize_chars_fixed s :
  forallb alnum_lower s = true -> normalize_chars s = s.
Proof.
  intros H. unfold normalize_chars, sub_delete_not.
  rewrite (lower_fixed s H). now apply List.forallb_filter_id.
Qed.

(** X19. [_normalize] leaves only [a-z] and [0-9], and is idempotent; a
    string of such characters is its own normal form. *)
Theorem normalize_idempotent_and_shaped (s : string) :
  _normalize (_normalize s) = _normalize s
  /\ (forall c, In c (of_string (_normalize s)) ->
        (97 <= code c <= 122)%N \/ (48 <= code c <= 57)%N)
  /\ (forallb alnum_lower (of_string s) = true -> _normalize s = s).
Proof.
  unfold _normalize. split; [| split].
  - rewrite of_to_string. f_equal. apply normalize_chars_fixed.
    apply normalize_chars_shape.
  - intros c Hc. rewrite of_to_string in Hc.
    pose proof (normalize_chars_shape (of_string s)) as H.
    rewrite forallb_forall in H. specialize (H c Hc).
    unfold alnum_lower, is_lower_az, is_digit in H.
    apply orb_true_iff in H as [H | H]; apply andb_true_iff in H as [H1 H2];
      apply N.leb_le in H1, H2; [left | right]; split; assumption.
  - intros H. rewrite (normalize_chars_fixed _ H). apply to_of_string.
Qed.

(** X20. The slug of a name has the normal form of the name: [_slugify]
    only removes characters that [_normalize] removes too. *)
Theorem normalize_slugify (name : string) :
  _normalize (_slugify name) = _normalize name.
Proof.
  unfold _normalize, _slugify. rewrite of_to_string. f_equal.
  unfold normalize_chars, sub_delete_not.
  pose proof (slugify_chars_ok (of_string name)) as Hok.
  unfold slug_ok in Hok. repeat (apply andb_true_iff in Hok as [Hok ?]).
  assert (El : lower (slugify_chars (of_string name))
               = slugify_chars (of_string name)).
  { unfold lower. rewrite <- (map_id (slugify_chars (of_string name))) at 2.
    apply map_ext_in. intros c Hc. apply slug_char_lower.
    rewrite forallb_forall in Hok. now apply Hok. }
  rewrite El. unfold slugify_chars, sub_runs, sub_delete_not.
  rewrite (filter_strip _ _ alnum_not_hyphen).
  rewrite (filter_sub_runs _ _ alnum_not_hyphen) by reflexivity.
  rewrite (filter_sub_runs _ _ alnum_not_sep) by reflexivity.
  rewrite filter_filter_keep.
  now rewrite (filter_strip _ _ alnum_not_space).
Qed.

End NormalizeFacts.

(** ** [_build_route_map] and [match_codebase] *)
Module MatcherFacts.
Import PyStr CodebaseMatcher Normalize PenParser PenTree State Matcher.
Import PyDictFacts StateFacts.

Lemma get_set {V} k k' (v : V) d :
  PyDict.get k (PyDict.set k' v d)
  = if String.eqb k' k then Some v else PyDict.get k d.
Proof.
  induction d as [|[k0 v0] d IH]; simpl.
  - reflexivity.
  - destruct (String.eqb_spec k0 k') as [-> | Hne]; simpl.
    + now destruct (String.eqb k' k).
    + rewrite IH. destruct (String.eqb_spec k0 k) as [-> | _]; [| reflexivity].
      destruct (String.eqb_spec k' k) as [-> | _]; [congruence | reflexivity].
Qed.

Lemma fold_opt_app {A B} (step : A -> B -> option A) l l' a :
  fold_opt step (l ++ l') a
  = match fold_opt step l a with
    | Some a' => fold_opt step l' a'
    | None => None
    end.
Proof.
  revert a. induction l as [|x l IH]; intros a; simpl; [reflexivity |].
  destruct (step a x); [apply IH | reflexivity].
Qed.

Lemma fold_opt_none {A B} (step : A -> B -> option A)
    (bad : B -> bool) l a :
  (forall a x, step a x = None <-> bad x = true) ->
  fold_opt step l a = None <-> existsb bad l = true.
Proof.
  intros Hbad. revert a. induction l as [|x l IH]; intros a; simpl.
  - split; discriminate.
  - destruct (step a x) as [a'|] eqn:E.
    + destruct (bad x) eqn:Ex.
      * apply (proj2 (Hbad a x)) in Ex. congruence.
      * simpl. apply IH.
    + apply (proj1 (Hbad a x)) in E. rewrite E. simpl. tauto.
Qed.

Lemma add_route_none result route :
  add_route result route = None <-> bad_name_route route = true.
Proof.
  unfold add_route, bad_name_route, bad_screen_name.
  destruct route as [| | | | | |items]; try (split; discriminate).
  destruct (get_default "screen_name" (JStr "") items) as [|b|n|x|s|l|o];
    simpl; try (split; discriminate).
  - destruct b; split; try discriminate; reflexivity.
  - destruct (negb (n =? 0)); split; try discriminate; reflexivity.
  - destruct (negb _); split; try discriminate; reflexivity.
  - destruct (negb _); split; discriminate.
  - destruct l; split; try discriminate; reflexivity.
  - destruct o; split; try discriminate; reflexivity.
Qed.

Lemma add_route_page_none pages acc route :
  add_route_page pages acc route = None <-> bad_path_route route = true.
Proof.
  unfold add_route_page, bad_path_route, bad_path, route_path.
  destruct route as [| | | | | |items]; try (split; discriminate).
  destruct (get_default "path" (JStr "") items) as [|b|n|x|s|l|o];
    try (split; [reflexivity | reflexivity]).
  destruct (find_page _ pages); split; discriminate.
Qed.

Lemma add_route_some result route result' k :
  add_route result route = Some result' ->
  PyDict.get k result'
  = if named k route then Some route else PyDict.get k result.
Proof.
  unfold add_route, named.
  destruct route as [| | | | | |items]; try (intros [= <-]; reflexivity).
  destruct (get_default "screen_name" (JStr "") items) as [|b|n|x|s|l|o];
    simpl; try (intros [= <-]; reflexivity).
  - destruct b; [discriminate | intros [= <-]; reflexivity].
  - destruct (negb (n =? 0)); [discriminate | intros [= <-]; reflexivity].
  - destruct (negb _); [discriminate | intros [= <-]; reflexivity].
  - destruct (negb (String.eqb s "")); intros [= <-]; [| reflexivity].
    simpl. apply get_set.
  - destruct l; [intros [= <-]; reflexivity | discriminate].
  - destruct o; [intros [= <-]; reflexivity | discriminate].
Qed.

Lemma find_app_list {A} (p : A -> bool) l l' :
  List.find p (l ++ l')
  = match List.find p l with Some x => Some x | None => List.find p l' end.
Proof.
  induction l as [|x l IH]; simpl; [reflexivity |].
  destruct (p x); [reflexivity | exact IH].
Qed.

Lemma build_route_map_get routes : forall acc rm k,
  fold_opt add_route routes acc = Some rm ->
  PyDict.get k rm
  = match List.find (named k) (rev routes) with
    | Some route => Some route
    | None => PyDict.get k acc
    end.
Proof.
  induction routes as [|route routes IH]; intros acc rm k; simpl.
  - intros [= <-]. reflexivity.
  - destruct (add_route acc route) as [acc'|] eqn:E; [| discriminate].
    intros H. rewrite (IH acc' rm k H), find_app_list.
    destruct (List.find (named k) (rev routes)); [reflexivity |].
    simpl. rewrite (add_route_some _ _ _ k E).
    now destruct (named k route).
Qed.

Lemma build_route_map_none routes :
  _build_route_map routes = None <->
  exists items, In (JObj items) routes /\ bad_screen_name items = true.
Proof.
  unfold _build_route_map.
  rewrite (fold_opt_none add_route bad_name_route) by apply add_route_none.
  rewrite existsb_exists. split.
  - intros (route & Hin & Hbad). destruct route; try discriminate.
    eexists. split; [exact Hin | exact Hbad].
  - intros (items & Hin & Hbad). exists (JObj items). now split.
Qed.

(** X21. [_build_route_map] raises exactly when a route has a screen name
    that is true and not a [str]; otherwise the route under a key is the
    last route of the list whose screen name is not empty and has the key
    as its normal form, and routes that are no [dict] or have no screen
    name are left out. *)
Theorem build_route_map_lookup (routes : list json) :
  (_build_route_map routes = None <->
     exists items, In (JObj items) routes /\ bad_screen_name items = true)
  /\ (forall route_map, _build_route_map routes = Some route_map ->
        forall k, PyDict.get k route_map = List.find (named k) (rev routes)).
Proof.
  split; [apply build_route_map_none |].
  intros rm H k. rewrite (build_route_map_get routes [] rm k H).
    now destruct (List.find (named k) (rev routes)).
Qed.


Lemma fold_opt_some_not_bad {A B} (step : A -> B -> option A)
    (bad : B -> bool) l a a' :
  (forall a x, step a x = None <-> bad x = true) ->
  fold_opt step l a = Some a' -> forall x, In x l -> bad x = false.
Proof.
  intros Hbad H x Hx. destruct (bad x) eqn:E; [| reflexivity].
  assert (N : fold_opt step l a = None).
  { apply (fold_opt_none step bad l a Hbad). apply existsb_exists.
    now exists x. }
  congruence.
Qed.

Lemma routes_good pages routes rm acc :
  _build_route_map routes = Some rm ->
  fold_opt (add_route_page pages) routes [] = Some acc ->
  good_routes rm.
Proof.
  intros Hb Hp k v Hg.
  rewrite (build_route_map_get routes [] rm k Hb) in Hg.
  destruct (List.find (named k) (rev routes)) as [route|] eqn:Ef;
    [| discriminate].
  injection Hg as ->. apply find_some in Ef as [Hin Hn].
  apply in_rev in Hin.
  pose proof (fold_opt_some_not_bad _ bad_path_route routes [] acc
                (add_route_page_none pages) Hp v Hin) as Hbad.
  destruct v as [| | | | | |items]; try discriminate.
  exists items. split; [reflexivity | exact Hbad].
Qed.

Lemma find_page_for_total pages rm name :
  good_routes rm -> exists found, find_page_for pages rm name = Some found.
Proof.
  intros G. unfold find_page_for. cbv zeta.
  destruct (PyDict.get (_normalize name) rm) as [v|] eqn:E.
  - destruct (G _ _ E) as (items & -> & Hp).
    unfold route_path. unfold bad_path in Hp.
    destruct (get_default "path" (JStr "") items); try discriminate.
    eexists. reflexivity.
  - eexists. reflexivity.
Qed.

Lemma extend_nil res : extend res [] [] [] = res.
Proof.
  destruct res. unfold extend. simpl.
  now rewrite !app_nil_r, !Z.add_0_r.
Qed.

Lemma extend_extend res ms ss xs ms' ss' xs' :
  extend (extend res ms ss xs) ms' ss' xs'
  = extend res (ms ++ ms') (ss ++ ss') (xs ++ xs').
Proof.
  unfold extend. simpl. rewrite !length_app, !Nat2Z.inj_add, <- !app_assoc.
  f_equal; lia.
Qed.

(** One turn of the loop, by the entries it adds. *)
Lemma match_feature_step pages rm read dry h res fid f :
  good_routes rm ->
  match_feature pages rm read dry (h, res) (fid, f)
  = Some (if dry then h
          else match matched_for pages rm read fid (h f) with
               | Some _ => upd f (Feature.set_status "implemented") h
               | None => h
               end,
          extend res (opt_list (matched_for pages rm read fid (h f)))
            (opt_list (stub_for pages rm read fid (h f)))
            (opt_list (missing_for pages rm fid (h f)))).
Proof.
  intros G. unfold match_feature, matched_for, stub_for, missing_for,
    open_screen, search, has_route.
  destruct (String.eqb (Feature.category (h f)) "screen"); simpl;
    [| rewrite extend_nil; now destruct dry].
  destruct (String.eqb (Feature.status (h f)) "open"); simpl;
    [| rewrite extend_nil; now destruct dry].
  destruct (find_page_for_total pages rm (Feature.name (h f)) G)
    as ([page via] & ->).
  destruct page as [path|]; [destruct (_is_stub_page (read path)) |];
    destruct dry; unfold extend; simpl;
    rewrite ?app_nil_r, ?Z.add_0_r; reflexivity.
Qed.

Lemma collect_ext {B} (entry : string -> Feature.t -> option B)
    (h h' : heap) items :
  (forall l, In l (PyDict.values items) -> h' l = h l) ->
  collect entry h' items = collect entry h items.
Proof.
  intros H. unfold collect.
  induction items as [|[k l] items IH]; [reflexivity |].
  cbn [flat_map fst snd]. rewrite H by now left.
  rewrite IH; [reflexivity |]. intros l' Hl'. apply H. now right.
Qed.

Lemma collect_cons {B} (entry : string -> Feature.t -> option B) h k l items :
  collect entry h ((k, l) :: items)
  = opt_list (entry k (h l)) ++ collect entry h items.
Proof. reflexivity. Qed.

(** The loop, by the entries it adds: each turn reads the store as the
    loop found it, when no object is visited twice or nothing is
    written. *)
Lemma match_loop pages rm read dry items :
  good_routes rm ->
  dry = true \/ NoDup (PyDict.values items) ->
  forall h res,
    exists h',
      fold_opt (match_feature pages rm read dry) items (h, res)
      = Some (h',
              extend res (collect (matched_for pages rm read) h items)
                (collect (stub_for pages rm read) h items)
                (collect (missing_for pages rm) h items))
      /\ (dry = true -> h' = h)
      /\ (forall k l, In (k, l) items ->
            dry = false ->
            matched_for pages rm read k (h l) <> None ->
            h' l = Feature.set_status "implemented" (h l))
      /\ (forall l,
            (forall k, In (k, l) items ->
               matched_for pages rm read k (h l) = None) ->
            h' l = h l).
Proof.
  intros G. induction items as [|[k l] items IH]; intros D h res.
  - exists h. simpl. rewrite extend_nil.
    split; [reflexivity |]. split; [reflexivity |].
    split; [intros ? ? [] | reflexivity].
  - cbn [fold_opt]. rewrite (match_feature_step _ _ _ _ _ _ _ _ G).
    set (h1 := if dry then h
               else match matched_for pages rm read k (h l) with
                    | Some _ => upd l (Feature.set_status "implemented") h
                    | None => h
                    end).
    assert (Hrest : forall l', In l' (PyDict.values items) -> h1 l' = h l').
    { intros l' Hl'. unfold h1. destruct dry eqn:Ed; [reflexivity |].
      destruct (matched_for pages rm read k (h l)); [| reflexivity].
      apply upd_ne. intros ->. destruct D as [D | D]; [discriminate |].
      simpl in D. apply NoDup_cons in D as [D _]. apply D.
      now apply list_elem_of_In. }
    assert (D' : dry = true \/ NoDup (PyDict.values items)).
    { destruct D as [D | D]; [now left | right].
      simpl in D. now apply NoDup_cons in D as [_ D]. }
    destruct (IH D' h1 (extend res
                 (opt_list (matched_for pages rm read k (h l)))
                 (opt_list (stub_for pages rm read k (h l)))
                 (opt_list (missing_for pages rm k (h l)))))
      as (h' & E & Hdry & Hhit & Hmiss).
    exists h'. rewrite E, extend_extend.
    rewrite !(collect_ext _ h h1 items Hrest), !collect_cons.
    split; [reflexivity |].
    split; [intros Ed; rewrite (Hdry Ed); unfold h1; now rewrite Ed |].
    split.
    + intros k' l' [[= <- <-] | Hin] Ed Hm.
      * assert (Hl : h' l = h1 l).
        { apply Hmiss. intros k' Hin. exfalso.
          destruct D as [D | D]; [congruence |].
          simpl in D. apply NoDup_cons in D as [D _]. apply D.
          apply list_elem_of_In. now apply (in_map snd) in Hin. }
        rewrite Hl. unfold h1. rewrite Ed.
        destruct (matched_for pages rm read k (h l)); [| congruence].
        apply upd_eq.
      * assert (Hl' : h1 l' = h l').
        { apply Hrest. now apply (in_map snd) in Hin. }
        rewrite <- Hl'. apply (Hhit k' l' Hin Ed). now rewrite Hl'.
    + intros l' Hnone.
      assert (Hl' : h1 l' = h l').
      { unfold h1. destruct dry; [reflexivity |].
        destruct (matched_for pages rm read k (h l)) eqn:Em; [| reflexivity].
        apply upd_ne. intros ->.
        rewrite (Hnone k (or_introl eq_refl)) in Em. discriminate. }
      rewrite <- Hl'. apply Hmiss. intros k' Hin. rewrite Hl'.
      apply Hnone. now right.
Qed.


Lemma implemented_from_refl f : implemented_from f f.
Proof. now left. Qed.

Lemma implemented_from_trans f g k :
  implemented_from f g -> implemented_from g k -> implemented_from f k.
Proof.
  intros [-> | [Ho ->]] [-> | [Ho' ->]];
    [now left | now right | now right |].
  unfold open_screen in Ho'. simpl in Ho'.
  now rewrite andb_false_r in Ho'.
Qed.

Lemma matched_for_open pages rm read k f e :
  matched_for pages rm read k f = Some e -> open_screen f = true.
Proof. unfold matched_for. now destruct (open_screen f). Qed.

(** The loop writes "implemented" on open screens only, and on objects
    of the mapping only. *)
Lemma match_loop_store pages rm read dry items :
  good_routes rm ->
  forall h res h' res',
    fold_opt (match_feature pages rm read dry) items (h, res) = Some (h', res') ->
    (forall l, implemented_from (h l) (h' l))
    /\ (forall l, ~ In l (PyDict.values items) -> h' l = h l).
Proof.
  intros G. induction items as [|[k l] items IH]; intros h res h' res'.
  - intros [= <- <-]. split; [intros; apply implemented_from_refl | reflexivity].
  - cbn [fold_opt]. rewrite (match_feature_step _ _ _ _ _ _ _ _ G).
    intros H. destruct (IH _ _ _ _ H) as [I1 I2]. split.
    + intros l'. eapply implemented_from_trans; [| apply I1].
      destruct dry; [apply implemented_from_refl |].
      destruct (matched_for pages rm read k (h l)) eqn:Em;
        [| apply implemented_from_refl].
      unfold upd. destruct (Nat.eqb_spec l' l) as [-> | _];
        [| apply implemented_from_refl].
      right. split; [now apply matched_for_open in Em | reflexivity].
    + intros l' Hl'. rewrite I2.
      * destruct dry; [reflexivity |].
        destruct (matched_for pages rm read k (h l)); [| reflexivity].
        apply upd_ne. intros ->. apply Hl'. now left.
      * intros Hin. apply Hl'. now right.
Qed.

(** [match_codebase] when it comes to the loop. *)
Lemma match_codebase_some h st app_dir app_exists pages routes read dry h' out :
  match_codebase h st app_dir app_exists pages routes read dry = Some (h', out) ->
  (app_exists = false /\ h' = h
   /\ out = NoAppDir ("App directory not found: " +:+ app_dir))
  \/ (app_exists = true
      /\ exists rm res,
           _build_route_map routes = Some rm /\ good_routes rm
           /\ fold_opt (match_feature pages rm read dry) (features st)
                (h, results0) = Some (h', res)
           /\ out = Report res).
Proof.
  unfold match_codebase. destruct app_exists; simpl.
  - destruct (_build_route_map routes) as [rm|] eqn:Eb; [| discriminate].
    destruct (fold_opt (add_route_page pages) routes []) as [acc|] eqn:Ep;
      [| discriminate].
    destruct (fold_opt (match_feature pages rm read dry) _ _)
      as [[h1 res]|] eqn:El; [| discriminate].
    intros [= <- <-]. right. split; [reflexivity |].
    exists rm, res. split; [reflexivity |].
    split; [now apply (routes_good pages routes rm acc) |]. now split.
  - intros [= <- <-]. now left.
Qed.


(** X23. [match_codebase] writes nothing in a dry run; otherwise it writes
    only the status "implemented", only on features that were open
    screens, and only on objects of the mapping. *)
Theorem match_codebase_store (h : heap) (st : state) (app_dir : string)
    (app_exists : bool) (pages : list (string * string)) (routes : list json)
    (read : string -> option string) (dry_run : bool) (h' : heap)
    (out : outcome) :
  match_codebase h st app_dir app_exists pages routes read dry_run
  = Some (h', out) ->
  (dry_run = true -> h' = h)
  /\ (forall l, h' l = h l
        \/ (Feature.category (h l) = "screen"%string
            /\ Feature.status (h l) = "open"%string
            /\ h' l = Feature.set_status "implemented" (h l)))
  /\ (forall l, ~ In l (PyDict.values (features st)) -> h' l = h l).
Proof.
  intros H. apply match_codebase_some in H
    as [(_ & -> & _) | (_ & rm & res & Eb & G & El & _)].
  - split; [reflexivity |]. split; [now left | reflexivity].
  - destruct (match_loop_store _ _ _ _ _ G _ _ _ _ El) as [I1 I2].
    split; [| split; [| exact I2]].
    + intros ->.
      destruct (match_loop pages rm read true (features st) G
                  (or_introl eq_refl) h results0) as (hd & Ed & Hd & _).
      rewrite Ed in El. injection El as <- _. now apply Hd.
    + intros l. destruct (I1 l) as [E | [Ho E]]; [now left | right].
      unfold open_screen in Ho. apply andb_true_iff in Ho as [Hc Hs].
      apply String.eqb_eq in Hc, Hs. now split.
Qed.

(** X24. The report of a dry run is the report of the real run, when no
    object is stored under two keys. *)
Theorem match_codebase_dry_report (h : heap) (st : state) (app_dir : string)
    (app_exists : bool) (pages : list (string * string)) (routes : list json)
    (read : string -> option string) :
  distinct_objects st ->
  option_map snd
    (match_codebase h st app_dir app_exists pages routes read true)
  = option_map snd
      (match_codebase h st app_dir app_exists pages routes read false).
Proof.
  intros D. unfold match_codebase. destruct app_exists; simpl; [| reflexivity].
  destruct (_build_route_map routes) as [rm|] eqn:Eb; [| reflexivity].
  destruct (fold_opt (add_route_page pages) routes []) as [acc|] eqn:Ep;
    [| reflexivity].
  pose proof (routes_good pages routes rm acc Eb Ep) as G.
  destruct (match_loop pages rm read true (features st) G
              (or_introl eq_refl) h results0) as (hd & -> & _).
  destruct (match_loop pages rm read false (features st) G
              (or_intror D) h results0) as (hr & -> & _).
  reflexivity.
Qed.

Lemma collect_lengths pages rm read (h : heap) items :
  (length (collect (matched_for pages rm read) h items)
   + length (collect (stub_for pages rm read) h items)
   + length (collect (missing_for pages rm) h items))%nat
  = length (List.filter (fun item => open_screen (h (snd item))) items).
Proof.
  induction items as [|[k l] items IH]; [reflexivity |].
  rewrite !collect_cons, !length_app. cbn [List.filter snd].
  assert (E : (length (opt_list (matched_for pages rm read k (h l)))
               + length (opt_list (stub_for pages rm read k (h l)))
               + length (opt_list (missing_for pages rm k (h l))))%nat
              = if open_screen (h l) then 1%nat else 0%nat).
  { unfold matched_for, stub_for, missing_for.
    destruct (open_screen (h l)); [| reflexivity].
    destruct (search pages rm (Feature.name (h l))) as [[path|] via];
      [destruct (_is_stub_page (read path)) |]; reflexivity. }
  destruct (open_screen (h l)); cbn [length]; lia.
Qed.

(** X25. The report of [match_codebase]: each list holds, in the order of
    the mapping, the entries of the open screens of its kind, each total
    is the length of its list, and the three totals add up to the number
    of open screens. *)
Theorem match_codebase_report (h : heap) (st : state) (app_dir : string)
    (app_exists : bool) (pages : list (string * string)) (routes : list json)
    (read : string -> option string) (dry_run : bool) (h' : heap)
    (r : results) :
  dry_run = true \/ distinct_objects st ->
  match_codebase h st app_dir app_exists pages routes read dry_run
  = Some (h', Report r) ->
  exists route_map,
    _build_route_map routes = Some route_map
    /\ matched r = collect (matched_for pages route_map read) h (features st)
    /\ stub r = collect (stub_for pages route_map read) h (features st)
    /\ missing r = collect (missing_for pages route_map) h (features st)
    /\ total_matched r = Z.of_nat (length (matched r))
    /\ total_stub r = Z.of_nat (length (stub r))
    /\ total_missing r = Z.of_nat (length (missing r))
    /\ total_matched r + total_stub r + total_missing r
       = Z.of_nat (length (List.filter
                             (fun item => open_screen (h (snd item)))
                             (features st))).
Proof.
  intros D H. apply match_codebase_some in H
    as [(_ & _ & [=]) | (_ & rm & res & Eb & G & El & [= ->])].
  destruct (match_loop pages rm read dry_run (features st) G D h results0)
    as (h1 & E1 & _).
  rewrite E1 in El. injection El as _ <-.
  exists rm. split; [exact Eb |]. unfold extend. simpl.
  repeat (split; [reflexivity |]).
  rewrite <- (collect_lengths pages rm read), !Nat2Z.inj_add. lia.
Qed.


Lemma find_page_some cond pages path :
  find_page cond pages = Some path ->
  exists slug, In (slug, path) pages /\ cond slug = true.
Proof.
  unfold find_page.
  destruct (List.find _ pages) as [[slug p]|] eqn:E; [| discriminate].
  intros [= ->]. apply find_some in E as [Hin Hc]. now exists slug.
Qed.

Lemma find_page_none cond pages :
  find_page cond pages = None ->
  forall slug path, In (slug, path) pages -> cond slug = false.
Proof.
  unfold find_page.
  destruct (List.find _ pages) as [[slug p]|] eqn:E; [discriminate |].
  intros _ slug path Hin. apply (find_none _ _ E (slug, path) Hin).
Qed.

Lemma try_pages_ok cond via pages found :
  In via strategies -> found_ok pages found ->
  found_ok pages (try_pages cond via pages found).
Proof.
  intros Hv Hf. unfold try_pages.
  destruct (fst found) eqn:E; [exact Hf |].
  destruct (find_page cond pages) as [path|] eqn:Ef; [| exact Hf].
  unfold found_ok. simpl. apply find_page_some in Ef as (slug & Hin & _).
  split; [now exists slug | now exists via].
Qed.

Lemma try_pages_none cond via pages found :
  fst (try_pages cond via pages found) = None ->
  fst found = None /\ find_page cond pages = None.
Proof.
  unfold try_pages. destruct (fst found) eqn:E; [congruence |].
  destruct (find_page cond pages); [discriminate | now split].
Qed.

Lemma search_found pages rm name path via :
  search pages rm name = (Some path, via) ->
  (exists slug, In (slug, path) pages)
  /\ exists v, via = Some v /\ In v strategies.
Proof.
  unfold search.
  destruct (find_page_for pages rm name) as [found|] eqn:E; [| discriminate].
  intros ->. revert E. unfold find_page_for. cbv zeta.
  set (s1 := match PyDict.get (_normalize name) rm with
             | Some (JObj route_data) => _
             | Some _ => None
             | None => Some (None, None)
             end).
  assert (H1 : forall f, s1 = Some f -> found_ok pages f).
  { unfold s1. destruct (PyDict.get (_normalize name) rm) as [v|];
      [| intros f [= <-]; exact I].
    destruct v; try discriminate.
    destruct (route_path items) as [rpath|]; [| discriminate].
    intros f [= <-]. unfold found_ok. cbn [fst snd].
    destruct (find_page _ pages) as [p|] eqn:Ef; [| exact I].
    apply find_page_some in Ef as (slug & Hin & _).
    split; [now exists slug |].
    exists "routes.json"%string. split; [reflexivity | now left]. }
  destruct s1 as [f|]; [| discriminate]. specialize (H1 f eq_refl).
  intros [= E].
  assert (Hok : found_ok pages (Some path, via)).
  { rewrite <- E. repeat apply try_pages_ok; try exact H1;
      unfold strategies; simpl; tauto. }
  exact Hok.
Qed.

Lemma search_none pages rm name via :
  good_routes rm ->
  search pages rm name = (None, via) ->
  forall slug path, In (slug, path) pages ->
    slug <> _slugify name
    /\ slug <> ("app/" +:+ _slugify name)%string
    /\ _normalize slug <> _normalize name.
Proof.
  intros G. unfold search.
  destruct (find_page_for_total pages rm name G) as (found & E).
  rewrite E. intros ->. revert E. unfold find_page_for. cbv zeta.
  destruct (match PyDict.get (_normalize name) rm with
            | Some (JObj route_data) => _
            | Some _ => None
            | None => Some (None, None)
            end) as [f|]; [| discriminate].
  intros [= E].
  assert (E4 := f_equal fst E). cbn [fst] in E4.
  apply try_pages_none in E4 as [E3 F4].
  apply try_pages_none in E3 as [E2 F3].
  apply try_pages_none in E2 as [_ F2].
  intros slug path Hin.
  assert (C2 : String.eqb (_slugify name) slug
               || String.eqb ("app/" +:+ _slugify name) slug = false)
    by exact (find_page_none _ _ F2 slug path Hin).
  assert (C4 : String.eqb (_normalize name) (_normalize slug) = false)
    by exact (find_page_none _ _ F4 slug path Hin).
  apply orb_false_iff in C2 as [C2a C2b].
  destruct (String.eqb_spec (_slugify name) slug); [discriminate |].
  destruct (String.eqb_spec ("app/" +:+ _slugify name) slug); [discriminate |].
  destruct (String.eqb_spec (_normalize name) (_normalize slug));
    [discriminate |].
  split; [congruence |]. split; congruence.
Qed.

Lemma in_collect {B} (entry : string -> Feature.t -> option B) (h : heap)
    items e :
  In e (collect entry h items)
  <-> exists k l, In (k, l) items /\ entry k (h l) = Some e.
Proof.
  unfold collect. rewrite in_flat_map. split.
  - intros ([k l] & Hin & He). simpl in He.
    destruct (entry k (h l)) eqn:E; [| destruct He].
    destruct He as [<- | []]. now exists k, l.
  - intros (k & l & Hin & He). exists (k, l). split; [exact Hin |].
    simpl. rewrite He. now left.
Qed.

(** X26. The entries of the report are sound: a matched or stub entry
    names an open screen of the mapping and a page of the app found by
    one of the four strategies, a stub for the stub entry and not a stub
    for the matched one; a missing entry names an open screen whose
    expected slug is the slug of its name, and no page has that slug, with
    or without "app/" before it, nor the normal form of the name. *)
Theorem match_codebase_entries (h : heap) (st : state) (app_dir : string)
    (app_exists : bool) (pages : list (string * string)) (routes : list json)
    (read : string -> option string) (dry_run : bool) (h' : heap)
    (r : results) :
  dry_run = true \/ distinct_objects st ->
  match_codebase h st app_dir app_exists pages routes read dry_run
  = Some (h', Report r) ->
  (forall e, In e (matched r) ->
     (exists l, In (m_feature_id e, l) (features st)
        /\ open_screen (h l) = true
        /\ m_screen_name e = Feature.name (h l))
     /\ (exists slug, In (slug, m_page_path e) pages)
     /\ _is_stub_page (read (m_page_path e)) = false
     /\ exists via, m_matched_via e = Some via /\ In via strategies)
  /\ (forall e, In e (stub r) ->
        (exists l, In (s_feature_id e, l) (features st)
           /\ open_screen (h l) = true
           /\ s_screen_name e = Feature.name (h l))
        /\ (exists slug, In (slug, s_page_path e) pages)
        /\ _is_stub_page (read (s_page_path e)) = true
        /\ exists via, s_matched_via e = Some via /\ In via strategies)
  /\ (forall e, In e (missing r) ->
        (exists l, In (x_feature_id e, l) (features st)
           /\ open_screen (h l) = true
           /\ x_screen_name e = Feature.name (h l))
        /\ x_expected_slug e = _slugify (x_screen_name e)
        /\ forall slug path, In (slug, path) pages ->
             slug <> x_expected_slug e
             /\ slug <> ("app/" +:+ x_expected_slug e)%string
             /\ _normalize slug <> _normalize (x_screen_name e)).
Proof.
  intros D H. apply match_codebase_some in H
    as [(_ & _ & [=]) | (_ & rm & res & Eb & G & El & [= ->])].
  destruct (match_loop pages rm read dry_run (features st) G D h results0)
    as (h1 & E1 & _).
  rewrite E1 in El. injection El as _ <-. unfold extend. cbn.
  split; [| split].
  - intros e He. apply in_collect in He as (k & l & Hin & He).
    unfold matched_for in He. destruct (open_screen (h l)) eqn:Ho;
      [| discriminate].
    destruct (search pages rm (Feature.name (h l))) as [[path|] via] eqn:Es;
      [| discriminate].
    destruct (_is_stub_page (read path)) eqn:Est; [discriminate |].
    injection He as <-. cbn.
    apply search_found in Es as [Hp Hv].
    split; [exists l; now split |]. now split.
  - intros e He. apply in_collect in He as (k & l & Hin & He).
    unfold stub_for in He. destruct (open_screen (h l)) eqn:Ho;
      [| discriminate].
    destruct (search pages rm (Feature.name (h l))) as [[path|] via] eqn:Es;
      [| discriminate].
    destruct (_is_stub_page (read path)) eqn:Est; [| discriminate].
    injection He as <-. cbn.
    apply search_found in Es as [Hp Hv].
    split; [exists l; now split |]. now split.
  - intros e He. apply in_collect in He as (k & l & Hin & He).
    unfold missing_for in He. destruct (open_screen (h l)) eqn:Ho;
      [| discriminate].
    destruct (search pages rm (Feature.name (h l))) as [[path|] via] eqn:Es;
      [discriminate |].
    injection He as <-. cbn.
    split; [exists l; now split |]. split; [reflexivity |].
    now apply (search_none pages rm _ via G).
Qed.

Lemma collect_ext_in {B} (entry : string -> Feature.t -> option B)
    (h h' : heap) items :
  (forall k l, In (k, l) items -> entry k (h' l) = entry k (h l)) ->
  collect entry h' items = collect entry h items.
Proof.
  intros H. unfold collect.
  induction items as [|[k l] items IH]; [reflexivity |].
  cbn [flat_map fst snd]. rewrite H by now left.
  rewrite IH; [reflexivity |]. intros k' l' Hin. apply H. now right.
Qed.

Lemma collect_none {B} (entry : string -> Feature.t -> option B)
    (h : heap) items :
  (forall k l, In (k, l) items -> entry k (h l) = None) ->
  collect entry h items = [].
Proof.
  intros H. unfold collect.
  induction items as [|[k l] items IH]; [reflexivity |].
  cbn [flat_map fst snd]. rewrite H by now left.
  apply IH. intros k' l' Hin. apply H. now right.
Qed.

Lemma not_open_implemented f :
  open_screen (Feature.set_status "implemented" f) = false.
Proof. unfold open_screen. simpl. apply andb_false_r. Qed.

(** X27. A second run of [match_codebase] matches nothing more: the
    features it implemented are no longer open, the stub and the missing
    entries come again as they were, and the store is left alone. *)
Theorem match_codebase_again (h : heap) (st : state) (app_dir : string)
    (app_exists : bool) (pages : list (string * string)) (routes : list json)
    (read : string -> option string) (h1 : heap) (r1 : results) :
  distinct_objects st ->
  match_codebase h st app_dir app_exists pages routes read false
  = Some (h1, Report r1) ->
  exists h2 r2,
    match_codebase h1 st app_dir app_exists pages routes read false
    = Some (h2, Report r2)
    /\ matched r2 = [] /\ total_matched r2 = 0
    /\ stub r2 = stub r1 /\ total_stub r2 = total_stub r1
    /\ missing r2 = missing r1 /\ total_missing r2 = total_missing r1
    /\ forall l, h2 l = h1 l.
Proof.
  intros D H.
  pose proof H as H0. apply match_codebase_some in H0
    as [(_ & _ & [=]) | (Ea & rm & res & Eb & G & El & [= ->])].
  destruct (match_loop pages rm read false (features st) G (or_intror D)
              h results0) as (h1' & E1 & _ & Hhit & Hmiss).
  rewrite E1 in El. injection El as -> <-.
  assert (Hitem : forall k l, In (k, l) (features st) ->
            (matched_for pages rm read k (h l) <> None
             /\ open_screen (h1 l) = false)
            \/ (matched_for pages rm read k (h l) = None /\ h1 l = h l)).
  { intros k l Hin.
    destruct (matched_for pages rm read k (h l)) as [e|] eqn:Em.
    - left. split; [discriminate |].
      rewrite (Hhit k l Hin eq_refl); [apply not_open_implemented |].
      rewrite Em. discriminate.
    - right. split; [reflexivity |]. apply Hmiss. intros k' Hin'.
      now rewrite (values_unique _ k' k l D Hin' Hin). }
  assert (Hm : collect (matched_for pages rm read) h1 (features st) = []).
  { apply collect_none. intros k l Hin.
    destruct (Hitem k l Hin) as [[_ Ho] | [Em ->]]; [| exact Em].
    unfold matched_for. now rewrite Ho. }
  assert (Hs : collect (stub_for pages rm read) h1 (features st)
               = collect (stub_for pages rm read) h (features st)).
  { apply collect_ext_in. intros k l Hin.
    destruct (Hitem k l Hin) as [[Em Ho] | [_ ->]]; [| reflexivity].
    unfold stub_for. rewrite Ho. unfold matched_for in Em.
    destruct (open_screen (h l)); [| reflexivity].
    destruct (search pages rm (Feature.name (h l))) as [[path|] via];
      [| reflexivity].
    destruct (_is_stub_page (read path)); [congruence | reflexivity]. }
  assert (Hx : collect (missing_for pages rm) h1 (features st)
               = collect (missing_for pages rm) h (features st)).
  { apply collect_ext_in. intros k l Hin.
    destruct (Hitem k l Hin) as [[Em Ho] | [_ ->]]; [| reflexivity].
    unfold missing_for. rewrite Ho. unfold matched_for in Em.
    destruct (open_screen (h l)); [| reflexivity].
    destruct (search pages rm (Feature.name (h l))) as [[path|] via];
      [reflexivity | congruence]. }
  destruct (match_loop pages rm read false (features st) G (or_intror D)
              h1 results0) as (h2 & E2 & _ & _ & Hmiss2).
  exists h2. eexists. split.
  - unfold match_codebase. rewrite Ea. simpl. rewrite Eb.
    unfold match_codebase in H. rewrite Ea in H. simpl in H. rewrite Eb in H.
    destruct (fold_opt (add_route_page pages) routes []); [| discriminate].
    rewrite E2. reflexivity.
  - rewrite Hm, Hs, Hx. unfold extend. cbn.
    repeat (split; [reflexivity |]).
    intros l. apply Hmiss2. intros k Hin.
    destruct (Hitem k l Hin) as [[_ Ho] | [Em ->]]; [| exact Em].
    unfold matched_for. now rewrite Ho.
Qed.

End MatcherFacts.

(** ** [count_by_type] and [_count_features] *)
Module ScreenDetectorFacts.
Import PyStr PenParser PenTree Scoring Matcher ScreenDetector ScoringFacts.

Lemma count_of_incr key counts k :
  count_of (incr key counts) k
  = if String.eqb key k then count_of counts k + 1 else count_of counts k.
Proof.
  unfold incr, count_of. destruct (String.eqb_spec key k) as [-> | Hne].
  - now rewrite lookup_insert_eq.
  - now rewrite lookup_insert_ne.
Qed.

Lemma incr_ok key counts :
  In key counted -> key <> "camera"%string -> key <> "scanner"%string ->
  counts_ok counts -> counts_ok (incr key counts).
Proof.
  intros Hin Hc Hs (K & E & N). split; [| split].
  - intros k Hk. unfold incr. rewrite lookup_insert_ne; [now apply K |].
    intros ->. contradiction.
  - rewrite !count_of_incr.
    destruct (String.eqb_spec key "camera"); [contradiction |].
    destruct (String.eqb_spec key "scanner"); [contradiction | exact E].
  - intros k H1 H2. rewrite count_of_incr. specialize (N k H1 H2).
    destruct (String.eqb key k); lia.
Qed.

Lemma incr_if_ok b key counts :
  In key counted -> key <> "camera"%string -> key <> "scanner"%string ->
  counts_ok counts -> counts_ok (incr_if b key counts).
Proof. destruct b; [apply incr_ok | auto]. Qed.

Lemma incr_camera_ok counts :
  counts_ok counts -> counts_ok (incr "scanner" (incr "camera" counts)).
Proof.
  intros (K & E & N). split; [| split].
  - intros k Hk. unfold incr.
    rewrite !lookup_insert_ne; [now apply K | |]; intros <-; apply Hk;
      unfold counted; simpl; tauto.
  - rewrite !count_of_incr. simpl. lia.
  - intros k H1 H2. rewrite !count_of_incr. specialize (N k H1 H2).
    destruct (String.eqb "scanner" k), (String.eqb "camera" k); lia.
Qed.

Lemma count_node_ok counts n counts' :
  count_node counts n = Some counts' -> counts_ok counts -> counts_ok counts'.
Proof.
  unfold count_node.
  destruct (name_lower_of n) as [name_lower|]; [| discriminate].
  destruct (texts_of n) as [texts|]; [| discriminate].
  intros [= <-] H.
  repeat first
    [ apply incr_if_ok;
      [unfold counted; simpl; tauto | discriminate | discriminate |]
    | match goal with
      | |- counts_ok (if ?b then _ else _) =>
          destruct b; [apply incr_camera_ok |]
      end ];
    exact H.
Qed.

Lemma count_loop_ok nodes : forall counts counts',
  fold_opt count_node nodes counts = Some counts' ->
  counts_ok counts -> counts_ok counts'.
Proof.
  induction nodes as [|n nodes IH]; intros counts counts'; simpl.
  - now intros [= <-].
  - destruct (count_node counts n) as [c1|] eqn:E; [| discriminate].
    intros H Hok. apply (IH c1 counts' H). now apply (count_node_ok counts n).
Qed.

Lemma spec_tier_agrees counts :
  counts !! "tabs_complex"%string = None ->
  classify_screen_tier counts = spec_tier counts.
Proof.
  intros H. unfold classify_screen_tier, spec_tier.
  enough (E : any_positive counts t3_indicators
              = any_positive counts spec_t3_indicators) by now rewrite E.
  unfold any_positive, t3_indicators, spec_t3_indicators. simpl.
  unfold count_of at 6. rewrite H. simpl. now rewrite !orb_false_r.
Qed.

Lemma count_features_ok key_eq node counts :
  _count_features key_eq node = Some counts -> counts_ok counts.
Proof.
  unfold _count_features.
  destruct (count_by_type key_eq node) as [type_counts|]; [| discriminate].
  cbv zeta. intros H. apply count_loop_ok in H; [exact H |].
  split; [| split].
  - intros k Hk. rewrite !lookup_insert_ne, lookup_empty; [reflexivity | |];
      intros <-; apply Hk; unfold counted; simpl; tauto.
  - unfold count_of. rewrite !lookup_insert_ne by discriminate.
    reflexivity.
  - intros k H1 H2. unfold count_of.
    rewrite !lookup_insert_ne by congruence. now rewrite lookup_empty.
Qed.

Lemma never_counted counts k :
  counts_ok counts ->
  In k ["tabs_complex"; "swipe"; "video"; "realtime"; "animation";
        "device_api"; "detail_view"]%string ->
  counts !! k = None.
Proof.
  intros (K & _ & _) Hk. apply K. intros Hc. unfold counted in Hc.
  simpl in Hk, Hc.
  repeat (destruct Hk as [<- | Hk];
          [repeat (destruct Hc as [Hc | Hc]; [discriminate |]);
           exact Hc |]).
  exact Hk.
Qed.

(** X29. The counts of [_count_features] have no key but the fifteen it
    writes, so none of "tabs_complex", "swipe", "video", "realtime",
    "animation", "device_api" and "detail_view"; "camera" and "scanner"
    count the same; no count of a pattern is negative; and on these counts
    [classify_screen_tier] gives the tier of the order that leaves
    "tabs_complex" out. *)
Theorem count_features_keys (key_eq : json -> json -> bool) (node : PenNode)
    (counts : gmap string Z) :
  _count_features key_eq node = Some counts ->
  (forall k, counts !! k <> None -> In k counted)
  /\ (forall k, In k ["tabs_complex"; "swipe"; "video"; "realtime";
                      "animation"; "device_api"; "detail_view"]%string ->
        count_of counts k = 0)
  /\ count_of counts "camera" = count_of counts "scanner"
  /\ (forall k, k <> "text_nodes"%string -> k <> "ref_nodes"%string ->
        0 <= count_of counts k)
  /\ classify_screen_tier counts = spec_tier counts.
Proof.
  intros H. pose proof (count_features_ok _ _ _ H) as Hok.
  pose proof (never_counted counts) as Hnone.
  destruct Hok as (K & E & N).
  split; [| split; [| split; [exact E | split; [exact N |]]]].
  - intros k Hk. destruct (in_dec String.string_dec k counted) as [Hin | Hn];
      [exact Hin |]. now destruct (Hk (K k Hn)).
  - intros k Hk. unfold count_of.
    rewrite (Hnone k); [reflexivity | now repeat split | exact Hk].
  - apply spec_tier_agrees. apply Hnone; [now repeat split | now left].
Qed.


Lemma count_of_incr_if_ne b key counts k :
  key <> k -> count_of (incr_if b key counts) k = count_of counts k.
Proof.
  intros Hne. destruct b; [| reflexivity]. simpl. rewrite count_of_incr.
  now destruct (String.eqb_spec key k).
Qed.

Lemma count_of_incr_if_eq b key counts :
  count_of (incr_if b key counts) key = count_of counts key + b2z b.
Proof.
  destruct b; simpl; [| lia]. rewrite count_of_incr.
  now rewrite String.eqb_refl.
Qed.

Lemma count_of_camera_block (b : bool) counts k :
  k <> "scanner"%string ->
  count_of (if b then incr "scanner" (incr "camera" counts) else counts) k
  = count_of counts k + b2z (b && String.eqb "camera" k).
Proof.
  intros Hs. destruct b; cbn [andb b2z]; [| lia]. rewrite !count_of_incr.
  destruct (String.eqb_spec "scanner" k); [congruence |].
  destruct (String.eqb "camera" k); cbn [b2z]; lia.
Qed.

Ltac count_steps :=
  repeat first
    [ rewrite count_of_incr_if_eq
    | rewrite count_of_incr_if_ne by discriminate
    | rewrite count_of_camera_block by discriminate ].

(** The six counts that decide tiers 4 and 3, after one node. *)
Lemma count_node_counts counts n counts' :
  count_node counts n = Some counts' ->
  count_of counts' "camera"
  = count_of counts "camera"
    + b2z (name_has ["camera"; "scanner"; "barcode"; "qr"] n)
  /\ count_of counts' "map" = count_of counts "map" + b2z (name_has ["map"] n)
  /\ count_of counts' "charts"
     = count_of counts "charts"
       + b2z (name_has ["chart"; "graph"; "ring"; "progress"; "donut"] n)
  /\ count_of counts' "timers"
     = count_of counts "timers"
       + b2z (name_has ["timer"; "stopwatch"; "countdown"] n)
  /\ count_of counts' "drag_drop"
     = count_of counts "drag_drop"
       + b2z (name_has ["drag"; "reorder"; "sortable"] n)
  /\ count_of counts' "builders"
     = count_of counts "builders" + b2z (name_has ["builder"] n).
Proof.
  unfold count_node, name_has.
  destruct (name_lower_of n) as [name_lower|]; [| discriminate].
  destruct (texts_of n) as [texts|]; [| discriminate].
  intros [= <-].
  repeat split; count_steps; unfold any_in; cbn [existsb];
    repeat match goal with
           | |- context [String.eqb ?a ?b] =>
               let v := eval vm_compute in (String.eqb a b) in
               change (String.eqb a b) with v
           end;
    rewrite ?andb_true_r, ?andb_false_r, ?orb_false_r; cbn [b2z]; lia.
Qed.

Lemma count_loop_counts nodes : forall counts counts',
  fold_opt count_node nodes counts = Some counts' ->
  let hits keys := Z.of_nat (length (List.filter (name_has keys) nodes)) in
  count_of counts' "camera"
  = count_of counts "camera" + hits ["camera"; "scanner"; "barcode"; "qr"]%string
  /\ count_of counts' "map" = count_of counts "map" + hits ["map"]%string
  /\ count_of counts' "charts"
     = count_of counts "charts"
       + hits ["chart"; "graph"; "ring"; "progress"; "donut"]%string
  /\ count_of counts' "timers"
     = count_of counts "timers" + hits ["timer"; "stopwatch"; "countdown"]%string
  /\ count_of counts' "drag_drop"
     = count_of counts "drag_drop" + hits ["drag"; "reorder"; "sortable"]%string
  /\ count_of counts' "builders"
     = count_of counts "builders" + hits ["builder"]%string.
Proof.
  induction nodes as [|n nodes IH]; intros counts counts'; cbn [fold_opt].
  - intros [= <-]. cbv zeta. simpl. lia.
  - destruct (count_node counts n) as [c1|] eqn:E; [| discriminate].
    intros H. specialize (IH c1 counts' H). cbv zeta in IH.
    destruct IH as (A1 & A2 & A3 & A4 & A5 & A6).
    destruct (count_node_counts counts n c1 E) as (B1 & B2 & B3 & B4 & B5 & B6).
    cbv zeta. cbn [List.filter].
    rewrite A1, A2, A3, A4, A5, A6, B1, B2, B3, B4, B5, B6.
    repeat split;
      match goal with
      | |- context [name_has ?keys n] => destruct (name_has keys n)
      end; cbn [length b2z]; lia.
Qed.

Lemma hits_positive keys nodes :
  0 < Z.of_nat (length (List.filter (name_has keys) nodes))
  <-> exists m, In m nodes /\ name_has keys m = true.
Proof.
  split.
  - intros H. destruct (List.filter (name_has keys) nodes) as [|m r] eqn:E;
      [simpl in H; lia |].
    exists m. apply List.filter_In. rewrite E. now left.
  - intros (m & Hin & Hm).
    assert (Hf : In m (List.filter (name_has keys) nodes))
      by (apply List.filter_In; now split).
    destruct (List.filter (name_has keys) nodes); [destruct Hf | simpl; lia].
Qed.

Lemma name_has_app keys keys' n :
  name_has (keys ++ keys') n = name_has keys n || name_has keys' n.
Proof.
  unfold name_has. destruct (name_lower_of n); [| reflexivity].
  unfold any_in. apply existsb_app.
Qed.

(** X30. The names decide tiers 4 and 3 of a screen: on the counts of
    [_count_features], [classify_screen_tier] gives 4 exactly when the
    lowered name of some node of the screen contains "camera", "scanner",
    "barcode", "qr" or "map"; it gives 3 exactly when no name does and
    some name contains one of "chart", "graph", "ring", "progress",
    "donut", "timer", "stopwatch", "countdown", "drag", "reorder",
    "sortable" and "builder". *)
Theorem screen_tier_by_names (key_eq : json -> json -> bool) (node : PenNode)
    (counts : gmap string Z) :
  _count_features key_eq node = Some counts ->
  let named keys := exists m, In m (walk node) /\ name_has keys m = true in
  (classify_screen_tier counts = 4 <-> named tier4_names)
  /\ (classify_screen_tier counts = 3 <->
      ~ named tier4_names /\ named tier3_names).
Proof.
  intros H. cbv zeta.
  pose proof (count_features_ok _ _ _ H) as Hok.
  assert (Z0 : forall k,
            In k ["tabs_complex"; "swipe"; "video"; "realtime"; "animation";
                  "device_api"; "detail_view"]%string ->
            count_of counts k = 0).
  { intros k Hk. unfold count_of. now rewrite (never_counted counts k Hok Hk). }
  assert (Ecs : count_of counts "camera" = count_of counts "scanner")
    by apply Hok.
  clear Hok.
  unfold _count_features in H.
  destruct (count_by_type key_eq node) as [type_counts|]; [| discriminate].
  cbv zeta in H. apply count_loop_counts in H. cbv zeta in H.
  destruct H as (A1 & A2 & A3 & A4 & A5 & A6).
  assert (I0 : forall k, k <> "text_nodes"%string -> k <> "ref_nodes"%string ->
            count_of (<["ref_nodes"%string := default 0
                          (kget key_eq (JStr "ref") type_counts)]>
                        (<["text_nodes"%string := default 0
                             (kget key_eq (JStr "text") type_counts)]> ∅)) k = 0).
  { intros k H1 H2. unfold count_of.
    rewrite !lookup_insert_ne by congruence. now rewrite lookup_empty. }
  rewrite I0 in A1, A2, A3, A4, A5, A6 by discriminate.
  assert (P4 : any_positive counts t4_indicators = true
               <-> exists m, In m (walk node) /\ name_has tier4_names m = true).
  { unfold any_positive, t4_indicators. cbn [existsb].
    rewrite <- Ecs, A1, A2.
    rewrite !(Z0 "video"%string), !(Z0 "realtime"%string),
      !(Z0 "animation"%string), !(Z0 "device_api"%string)
      by (simpl; tauto).
    change (0 <? 0) with false. rewrite !orb_false_r, orb_assoc, orb_diag.
    rewrite orb_true_iff, !Z.ltb_lt, !Z.add_0_l, !hits_positive.
    change tier4_names
      with (["camera"; "scanner"; "barcode"; "qr"]%string ++ ["map"]%string).
    split.
    - intros [(m & Hin & Hm) | (m & Hin & Hm)]; exists m;
        (split; [exact Hin |]); rewrite name_has_app, Hm;
        [reflexivity | apply orb_true_r].
    - intros (m & Hin & Hm). rewrite name_has_app in Hm.
      apply orb_true_iff in Hm as [Hm | Hm]; [left | right]; now exists m. }
  assert (P3 : any_positive counts t3_indicators = true
               <-> exists m, In m (walk node) /\ name_has tier3_names m = true).
  { unfold any_positive, t3_indicators. cbn [existsb].
    rewrite A3, A4, A5, A6.
    rewrite !(Z0 "swipe"%string), !(Z0 "tabs_complex"%string)
      by (simpl; tauto).
    change (0 <? 0) with false. rewrite !orb_false_r.
    rewrite !orb_true_iff, !Z.ltb_lt, !Z.add_0_l, !hits_positive.
    change tier3_names
      with (["chart"; "graph"; "ring"; "progress"; "donut"]%string
            ++ ["timer"; "stopwatch"; "countdown"]%string
            ++ ["drag"; "reorder"; "sortable"]%string ++ ["builder"]%string).
    split.
    - intros [(m & Hin & Hm) | [(m & Hin & Hm) | [(m & Hin & Hm)
             | (m & Hin & Hm)]]]; exists m; (split; [exact Hin |]);
        rewrite !name_has_app, Hm; rewrite ?orb_true_r; reflexivity.
    - intros (m & Hin & Hm). rewrite !name_has_app in Hm.
      apply orb_true_iff in Hm as [Hm | Hm]; [left; now exists m |].
      apply orb_true_iff in Hm as [Hm | Hm]; [right; left; now exists m |].
      apply orb_true_iff in Hm as [Hm | Hm];
        [right; right; right; now exists m
        | right; right; left; now exists m]. }
  unfold classify_screen_tier.
  destruct (any_positive counts t4_indicators) eqn:E4.
  - split; [split; [intros _; now apply P4 | reflexivity] |].
    split; [discriminate |]. intros [Hn _]. destruct Hn. now apply P4.
  - assert (N4 : ~ exists m, In m (walk node) /\ name_has tier4_names m = true)
      by (intros Hx; apply P4 in Hx; discriminate).
    split; [split; [destruct (any_positive counts t3_indicators),
                      (any_positive counts t2_indicators); discriminate
                   | intros Hx; now destruct (N4 Hx)] |].
    destruct (any_positive counts t3_indicators) eqn:E3.
    + split; [intros _; split; [exact N4 | now apply P3] | reflexivity].
    + split.
      * destruct (any_positive counts t2_indicators); discriminate.
      * intros [_ Hx]. apply P3 in Hx. discriminate.
Qed.


Lemma kset_total key_eq k d :
  total_count (kset key_eq k (default 0 (kget key_eq k d) + 1) d)
  = total_count d + 1.
Proof.
  induction d as [|[k' v'] d IH]; simpl; [lia |].
  destruct (key_eq k' k); simpl; [lia |]. rewrite IH. lia.
Qed.

Lemma kset_positive key_eq k d :
  (forall kv, In kv d -> 1 <= snd kv) ->
  forall kv, In kv (kset key_eq k (default 0 (kget key_eq k d) + 1) d) ->
    1 <= snd kv.
Proof.
  induction d as [|[k' v'] d IH]; simpl; intros Hd kv.
  - intros [<- | []]. simpl. lia.
  - destruct (key_eq k' k); simpl.
    + intros [<- | Hin]; [| apply Hd; now right]. simpl.
      specialize (Hd (k', v') (or_introl eq_refl)). simpl in Hd. lia.
    + intros [<- | Hin]; [apply Hd; now left |].
      apply IH; [| exact Hin]. intros kv' H'. apply Hd. now right.
Qed.

Lemma count_loop_total key_eq nodes : forall counts counts',
  fold_opt (count_type key_eq) nodes counts = Some counts' ->
  total_count counts' = total_count counts + Z.of_nat (length nodes)
  /\ ((forall kv, In kv counts -> 1 <= snd kv) ->
      forall kv, In kv counts' -> 1 <= snd kv).
Proof.
  induction nodes as [|n nodes IH]; intros counts counts'; cbn [fold_opt].
  - intros [= <-]. simpl. split; [lia | auto].
  - unfold count_type at 1. destruct (hashable (type n)); [| discriminate].
    intros H. destruct (IH _ _ H) as [E P]. rewrite E, kset_total.
    split; [cbn [length]; lia |].
    intros Hc. apply P. now apply kset_positive.
Qed.

(** X28. [count_by_type] counts every node of the subtree once: it raises
    exactly when the type of some node is a list or a [dict], and
    otherwise its counts are all at least 1 and add up to the number of
    nodes, whatever the equality of keys. *)
Theorem count_by_type_total (key_eq : json -> json -> bool) (n : PenNode) :
  (count_by_type key_eq n = None <->
     exists m, In m (walk n) /\ hashable (type m) = false)
  /\ (forall counts, count_by_type key_eq n = Some counts ->
        total_count counts = Z.of_nat (length (walk n))
        /\ forall k v, In (k, v) counts -> 1 <= v).
Proof.
  unfold count_by_type. split.
  - rewrite (MatcherFacts.fold_opt_none (count_type key_eq)
               (fun m => negb (hashable (type m)))).
    + rewrite existsb_exists. split; intros (m & Hin & Hm); exists m;
        (split; [exact Hin |]); [now apply negb_true_iff in Hm
                                | now apply negb_true_iff].
    + intros a m. unfold count_type. destruct (hashable (type m)); simpl;
        split; discriminate || reflexivity.
  - intros counts H. apply count_loop_total in H as [E P]. split.
    + rewrite E. simpl. lia.
    + intros k v Hin. apply (P (fun kv H => match H with end) (k, v) Hin).
Qed.

End ScreenDetectorFacts.

(** ** The properties on the sample data *)
Module Examples.
Import State PyDictFacts StateFacts Samples Designs ScanFacts.
Import Scoring ScoringFacts Tiers StatsFacts.
Import PenParser PenTree PenTreeFacts Matcher MatcherFacts.
Import ScreenDetector ScreenDetectorFacts CodebaseMatcher.

Lemma merge_scan_nothing_missing_witness :
  let r := merge_scan Scoring.py_round1 heap2 state0 fresh2 "design.json" t2 in
  (forall k, In k (PyDict.keys (features state0)) -> In k (ids_of heap2 fresh2))
  /\ removed (snd r) = 0
  /\ Feature.status (fst (fst r) 2%nat) = "open"%string.
Proof.
  cbv zeta.
  assert (H : forall k, In k (PyDict.keys (features state0)) ->
                        In k (ids_of heap2 fresh2)).
  { intros k Hk. simpl in Hk. vm_compute.
    destruct Hk as [<- | [<- | [<- | []]]]; tauto. }
  split; [exact H |].
  destruct (merge_scan_nothing_missing Scoring.py_round1 heap2 state0 fresh2
              "design.json" t2 H) as [R S].
  split; [exact R | rewrite S; reflexivity].
Defined.


Lemma merge_scan_frame_witness :
  ~ In 7%nat (PyDict.values (features state0))
  /\ ~ In 7%nat fresh1
  /\ fst (fst (merge_scan Scoring.py_round1 heap0 state0 fresh1
                 "design.json" t1)) 7%nat = heap0 7%nat.
Proof.
  assert (H1 : ~ In 7%nat (PyDict.values (features state0))).
  { simpl. intros [H | [H | [H | []]]]; discriminate. }
  assert (H2 : ~ In 7%nat fresh1).
  { simpl. intros [H | [H | [H | []]]]; discriminate. }
  split; [exact H1 |]. split; [exact H2 |].
  exact (merge_scan_frame Scoring.py_round1 heap0 state0 fresh1
           "design.json" t1 7%nat H1 H2).
Defined.

Lemma resolve_feature_again_witness :
  let r1 := resolve_feature Scoring.py_round1 heap0 state0 "s1" "deferred" in
  let r2 := resolve_feature Scoring.py_round1 (fst (fst r1)) (snd (fst r1))
              "s1" "deferred" in
  "deferred"%string <> "open"%string
  /\ snd r1 = ["screen::s1::Food Log"; "form::s1"]%string
  /\ snd r2 = [] /\ fst r2 = fst r1.
Proof.
  cbv zeta.
  assert (H : "deferred"%string <> "open"%string) by discriminate.
  split; [exact H |]. split; [reflexivity |].
  exact (resolve_feature_again Scoring.py_round1 heap0 state0 "s1" "deferred" H).
Defined.

Lemma reachable_state_keyed_by_id_witness :
  let r := merge_scan Scoring.py_round1 heap0 (_empty_state t0) fresh1
             "design.json" t1 in
  reachable Scoring.py_round1 (fst (fst r)) (snd (fst r))
  /\ PyDict.keys (features (snd (fst r)))
     = ["screen::s2::Settings"; "screen::s1::Food Log";
        "data_display::s1::chart"]%string
  /\ NoDup (PyDict.keys (features (snd (fst r))))
  /\ NoDup (PyDict.values (features (snd (fst r)))).
Proof.
  cbv zeta.
  assert (R : reachable Scoring.py_round1
                (fst (fst (merge_scan Scoring.py_round1 heap0 (_empty_state t0)
                             fresh1 "design.json" t1)))
                (snd (fst (merge_scan Scoring.py_round1 heap0 (_empty_state t0)
                             fresh1 "design.json" t1)))).
  { apply reach_merge. apply reach_empty. }
  split; [exact R |]. split; [reflexivity |].
  destruct (reachable_state_keyed_by_id Scoring.py_round1 _ _ R)
    as (K & _ & _ & V).
  split; assumption.
Defined.

Lemma make_feature_id_injective_witness :
  PyStr.str_in ":" "screen" = false /\ PyStr.str_in ":" "s1" = false
  /\ Feature.id (make_feature "screen" "s1" "Food Log" 2 "screen" "Food Log"
                   None t0)
     = Feature.id (make_feature "screen" "s1" "Food Log" 3 "screen"
                     "Food Log with chart" None t1)
  /\ ("screen"%string = "screen"%string /\ "s1"%string = "s1"%string
      /\ "Food Log"%string = "Food Log"%string).
Proof.
  assert (H1 : PyStr.str_in ":" "screen" = false) by reflexivity.
  assert (H2 : PyStr.str_in ":" "s1" = false) by reflexivity.
  split; [exact H1 |]. split; [exact H2 |]. split; [reflexivity |].
  exact (make_feature_id_injective "screen" "s1" "Food Log" "screen" "s1"
           "Food Log" 2 3 "screen" "Food Log" "screen" "Food Log with chart"
           None None t0 t1 H1 H2 H1 H2 eq_refl).
Defined.


Lemma classify_screen_tier_monotone_witness :
  (forall ind, count_of ∅ ind <= count_of tabs_complex_only ind)
  /\ classify_screen_tier ∅ = 1
  /\ classify_screen_tier tabs_complex_only = 3
  /\ classify_screen_tier ∅ <= classify_screen_tier tabs_complex_only.
Proof.
  assert (H : forall ind, count_of ∅ ind <= count_of tabs_complex_only ind).
  { intros ind. unfold count_of, tabs_complex_only.
    rewrite lookup_empty. simpl.
    destruct (decide (ind = "tabs_complex"%string)) as [-> | Hne].
    - rewrite lookup_singleton_eq. simpl. lia.
    - rewrite lookup_singleton_ne by congruence. simpl. lia. }
  split; [exact H |]. split; [reflexivity |]. split; [reflexivity |].
  apply (classify_screen_tier_monotone ∅ tabs_complex_only H).
Defined.

Lemma compute_completion_any_order_witness :
  Permutation [settings0; food_log0; form0] [form0; settings0; food_log0]
  /\ compute_completion py_round1 [settings0; food_log0; form0]
     = compute_completion py_round1 [form0; settings0; food_log0]
  /\ implemented (compute_completion py_round1 [form0; settings0; food_log0]) = 1.
Proof.
  assert (P : Permutation [settings0; food_log0; form0]
                [form0; settings0; food_log0]).
  { apply Permutation_sym. apply (Permutation_cons_app [settings0; food_log0] []).
    reflexivity. }
  split; [exact P |].
  split; [exact (compute_completion_any_order py_round1 _ _ P) | reflexivity].
Defined.

Lemma parsed_screens_witness :
  exists doc,
    parse_pen_json (JObj design) = Some doc
    /\ PyDict.get "children" design = Some (JList raw_children)
    /\ List.filter screen_data raw_children
       = [JObj food_log_data; JObj settings_data]
    /\ parse_children [JObj food_log_data; JObj settings_data]
       = Some (screens doc).
Proof.
  destruct (parse_pen_json (JObj design)) as [doc|] eqn:E;
    [| vm_compute in E; discriminate].
  exists doc. split; [reflexivity |]. split; [reflexivity |].
  split; [reflexivity |].
  exact (proj1 (proj1 (parsed_screens design doc E) raw_children eq_refl)).
Defined.

Lemma match_codebase_store_witness :
  exists h' out,
    match_codebase heap0 state0 "app" true pages routes read false
    = Some (h', out)
    /\ Feature.status (h' 1%nat) = "implemented"%string
    /\ h' 0%nat = heap0 0%nat /\ h' 2%nat = heap0 2%nat
    /\ h' 9%nat = heap0 9%nat.
Proof.
  destruct (match_codebase heap0 state0 "app" true pages routes read false)
    as [[h' out]|] eqn:E; [| vm_compute in E; discriminate].
  exists h', out. split; [reflexivity |].
  destruct (match_codebase_store heap0 state0 "app" true pages routes read
              false h' out E) as (_ & S & F).
  assert (E1 : Feature.status (h' 1%nat) = "implemented"%string).
  { vm_compute in E. injection E as <- _. reflexivity. }
  split; [exact E1 |].
  split; [destruct (S 0%nat) as [H | (_ & H & _)]; [exact H | discriminate] |].
  split; [destruct (S 2%nat) as [H | (H & _)]; [exact H | discriminate] |].
  apply F. simpl. intros [H | [H | [H | []]]]; discriminate.
Defined.

Lemma match_codebase_dry_report_witness :
  distinct_objects state0
  /\ option_map snd
       (match_codebase heap0 state0 "app" true pages routes read true)
     = option_map snd
         (match_codebase heap0 state0 "app" true pages routes read false)
  /\ option_map snd
       (match_codebase heap0 state0 "app" true pages routes read true)
     = Some (Report
               (Results
                  [Matched "screen::s1::Food Log" "Food Log"
                     "app/food-log/page.tsx" (Some "exact_slug"%string) false]
                  [] [] 1 0 0)).
Proof.
  split; [exact state0_distinct |].
  split; [| reflexivity].
  exact (match_codebase_dry_report heap0 state0 "app" true pages routes read
           state0_distinct).
Defined.


Lemma match_codebase_report_witness :
  exists h' r,
    (true = true \/ distinct_objects state0)
    /\ match_codebase heap0 state0 "app" true pages routes read true
       = Some (h', Report r)
    /\ map m_feature_id (matched r) = ["screen::s1::Food Log"%string]
    /\ total_matched r + total_stub r + total_missing r = 1.
Proof.
  destruct (match_codebase heap0 state0 "app" true pages routes read true)
    as [[h' [e | r]]|] eqn:E;
    [vm_compute in E; discriminate | | vm_compute in E; discriminate].
  exists h', r.
  assert (D : true = true \/ distinct_objects state0) by now left.
  split; [exact D |]. split; [reflexivity |].
  destruct (match_codebase_report heap0 state0 "app" true pages routes read
              true h' r D E) as (rm & _ & _ & _ & _ & _ & _ & _ & T).
  split; [| exact T].
  vm_compute in E. injection E as _ <-. reflexivity.
Defined.

Lemma match_codebase_entries_witness :
  exists h' r e,
    (false = true \/ distinct_objects state0)
    /\ match_codebase heap0 state0 "app" true pages routes read false
       = Some (h', Report r)
    /\ matched r = [e]
    /\ m_page_path e = "app/food-log/page.tsx"%string
    /\ _is_stub_page (read (m_page_path e)) = false
    /\ exists via, m_matched_via e = Some via /\ In via strategies.
Proof.
  destruct (match_codebase heap0 state0 "app" true pages routes read false)
    as [[h' [e | r]]|] eqn:E;
    [vm_compute in E; discriminate | | vm_compute in E; discriminate].
  assert (Em : matched r
               = [Matched "screen::s1::Food Log" "Food Log"
                    "app/food-log/page.tsx" (Some "exact_slug"%string) false]).
  { vm_compute in E. injection E as _ <-. reflexivity. }
  exists h', r, (Matched "screen::s1::Food Log" "Food Log"
                   "app/food-log/page.tsx" (Some "exact_slug"%string) false).
  assert (D : false = true \/ distinct_objects state0)
    by (right; exact state0_distinct).
  split; [exact D |]. split; [reflexivity |]. split; [exact Em |].
  split; [reflexivity |].
  destruct (match_codebase_entries heap0 state0 "app" true pages routes read
              false h' r D E) as (M & _ & _).
  assert (Hin : In (Matched "screen::s1::Food Log" "Food Log"
                      "app/food-log/page.tsx" (Some "exact_slug"%string) false)
                  (matched r)) by (rewrite Em; now left).
  destruct (M _ Hin) as (_ & _ & S & V).
  split; [exact S | exact V].
Defined.

Lemma match_codebase_again_witness :
  exists h1 r1 h2 r2,
    distinct_objects state0
    /\ match_codebase heap0 state0 "app" true pages routes read false
       = Some (h1, Report r1)
    /\ total_matched r1 = 1
    /\ match_codebase h1 state0 "app" true pages routes read false
       = Some (h2, Report r2)
    /\ matched r2 = [] /\ total_matched r2 = 0.
Proof.
  destruct (match_codebase heap0 state0 "app" true pages routes read false)
    as [[h1 [e | r1]]|] eqn:E;
    [vm_compute in E; discriminate | | vm_compute in E; discriminate].
  destruct (match_codebase_again heap0 state0 "app" true pages routes read
              h1 r1 state0_distinct E)
    as (h2 & r2 & E2 & M & T & _).
  exists h1, r1, h2, r2.
  split; [exact state0_distinct |]. split; [reflexivity |].
  split; [vm_compute in E; injection E as _ <-; reflexivity |].
  split; [exact E2 |]. split; [exact M | exact T].
Defined.

Lemma count_features_keys_witness :
  exists counts,
    _count_features str_key_eq food_log_node = Some counts
    /\ count_of counts "camera" = 1
    /\ count_of counts "camera" = count_of counts "scanner"
    /\ classify_screen_tier counts = spec_tier counts.
Proof.
  destruct (_count_features str_key_eq food_log_node) as [counts|] eqn:E;
    [| vm_compute in E; discriminate].
  exists counts. split; [reflexivity |].
  destruct (count_features_keys str_key_eq food_log_node counts E)
    as (_ & _ & C & _ & T).
  split; [| split; [exact C | exact T]].
  vm_compute in E. injection E as <-. reflexivity.
Defined.

Lemma screen_tier_by_names_witness :
  exists counts m,
    _count_features str_key_eq food_log_node = Some counts
    /\ In m (walk food_log_node)
    /\ name m = JStr "Camera View"
    /\ name_has tier4_names m = true
    /\ classify_screen_tier counts = 4.
Proof.
  destruct (_count_features str_key_eq food_log_node) as [counts|] eqn:E;
    [| vm_compute in E; discriminate].
  exists counts,
    (mkPenNode (JStr "c1") (JStr "frame") (JStr "Camera View") [] []
       (JBool false)).
  split; [reflexivity |].
  assert (Hin : In (mkPenNode (JStr "c1") (JStr "frame") (JStr "Camera View")
                      [] [] (JBool false)) (walk food_log_node))
    by (right; left; reflexivity).
  split; [exact Hin |]. split; [reflexivity |]. split; [reflexivity |].
  apply (proj1 (screen_tier_by_names str_key_eq food_log_node counts E)).
  eexists. split; [exact Hin | reflexivity].
Defined.

End Examples.
